(** * A verified model of the dungeon map engine

    Shallow embedding of [map_engine/tile_selector.py] and
    [map_engine/map_generator.py].

    Python integers are [Z].  A Python list is a [list]; indexing follows
    Python (negative indices count from the end, an index out of range raises
    [IndexError]).  Methods that mutate [self], print, draw on a surface or
    draw random numbers are written in a state-and-exception monad: a raised
    exception keeps the state as it was at the [raise], exactly as a Python
    object keeps the mutations made before an exception escapes. *)

From Stdlib Require Import ZArith Ascii String List Bool Lia.
From stdpp Require Import base list.
Import ListNotations.
Open Scope Z_scope.

(** ** Exceptions, results and the monad *)

Inductive exn : Type :=
| ValueError
| IndexError
| ZeroDivisionError
| FileNotFoundError
| PygameError                 (* pygame.error *)
| RuntimeError (path : string).

(** [OutOfFuel] is not a Python outcome: it marks a [while] loop of the model
    whose fuel ran out.  The loops of the program are shown never to reach
    it. *)
Inductive res (A : Type) : Type :=
| Ok (a : A)
| Raise (e : exn)
| OutOfFuel.
Arguments Ok {A} a.
Arguments Raise {A} e.
Arguments OutOfFuel {A}.

Definition M (S A : Type) : Type := S -> res A * S.

Module Py.

Definition ret {S A} (a : A) : M S A := fun s => (Ok a, s).

Definition bind {S A B} (m : M S A) (f : A -> M S B) : M S B :=
  fun s =>
    match m s with
    | (Ok a, s') => f a s'
    | (Raise e, s') => (Raise e, s')
    | (OutOfFuel, s') => (OutOfFuel, s')
    end.

Definition raise {S A} (e : exn) : M S A := fun s => (Raise e, s).
Definition get {S} : M S S := fun s => (Ok s, s).
Definition gets {S A} (f : S -> A) : M S A := fun s => (Ok (f s), s).
Definition put {S} (s : S) : M S unit := fun _ => (Ok tt, s).
Definition modify {S} (f : S -> S) : M S unit := fun s => (Ok tt, f s).

(** [try: m except pygame.error: h] *)
Definition except_pygame {S A} (m : M S A) (h : M S A) : M S A :=
  fun s =>
    match m s with
    | (Raise PygameError, s') => h s'
    | r => r
    end.

(** Run a computation on a component of the state. *)
Definition zoom {S T A} (proj : S -> T) (inj : T -> S -> S)
           (m : M T A) : M S A :=
  fun s => let (r, t') := m (proj s) in (r, inj t' s).

(** Lift a result that does not touch the state. *)
Definition lift {S A} (r : res A) : M S A := fun s => (r, s).

End Py.

Declare Scope py_scope.
Delimit Scope py_scope with py.
Notation "x <- m ;; k" := (Py.bind m (fun x => k))
  (at level 100, m at next level, right associativity) : py_scope.
Notation "m ;;; k" := (Py.bind m (fun _ => k))
  (at level 100, right associativity) : py_scope.
Open Scope py_scope.

(** [for x in xs: body x] *)
Fixpoint forM_ {S A} (xs : list A) (body : A -> M S unit) : M S unit :=
  match xs with
  | [] => Py.ret tt
  | x :: xs' => body x ;;; forM_ xs' body
  end.

(** [range(a, b)] *)
Definition range (a b : Z) : list Z := seqZ a (b - a).

(** [while x != x2: body x; x += step] *)
Fixpoint while_ne {S} (fuel : nat) (x x2 step : Z) (body : Z -> M S unit)
  : M S unit :=
  if x =? x2 then Py.ret tt
  else
    match fuel with
    | O => fun s => (OutOfFuel, s)
    | Datatypes.S fuel' => body x ;;; while_ne fuel' (x + step) x2 step body
    end.

(** ** Python list indexing *)

(** The position a Python index denotes in a list of length [len]. *)
Definition py_index (len : nat) (i : Z) : option nat :=
  if 0 <=? i then
    if i <? Z.of_nat len then Some (Z.to_nat i) else None
  else
    if - Z.of_nat len <=? i then Some (Z.to_nat (Z.of_nat len + i)) else None.

(** [l[i]] *)
Definition py_get {A} (l : list A) (i : Z) : res A :=
  match py_index (length l) i with
  | Some n => match l !! n with Some a => Ok a | None => Raise IndexError end
  | None => Raise IndexError
  end.

(** [l[i] = v] *)
Definition py_set {A} (l : list A) (i : Z) (v : A) : res (list A) :=
  match py_index (length l) i with
  | Some n => Ok (<[n := v]> l)
  | None => Raise IndexError
  end.

(** [a // b] *)
Definition floordiv (a b : Z) : res Z :=
  if b =? 0 then Raise ZeroDivisionError else Ok (a / b).

(** ** The tile selector: [map_engine/tile_selector.py] *)

Definition DEFAULT_TILE_SIZE : Z := 48.

(** What a path holds on disk: nothing, a file pygame cannot decode, or an
    image of the given pixel size. *)
Inductive FileEntry : Type :=
| Missing
| Undecodable
| Picture (w h : N).

Definition FileSystem : Type := string -> FileEntry.

(** A loaded image, and a tile: a fresh [side] x [side] surface onto which
    the area at ([tile_px], [tile_py]) of the source image was blitted. *)
Record Image : Type := { img_path : string; img_w : N; img_h : N }.
Record Tile : Type :=
  { tile_src : Image; tile_px : Z; tile_py : Z; tile_side : Z }.

(** Lines printed on the console. *)
Inductive Msg : Type :=
| MissingFileWarning (path : string)
| LoadSuccess (img_idx : Z) (path : string) (ntiles : Z).

Fixpoint basename_aux (s : string) (acc : string) : string :=
  match s with
  | EmptyString => acc
  | String c s' =>
      if Ascii.eqb c "/"%char then basename_aux s' EmptyString
      else basename_aux s' (acc ++ String c EmptyString)%string
  end.

(** [os.path.basename] *)
Definition basename (s : string) : string := basename_aux s EmptyString.

Module TileSelector.

Record t : Type :=
  { tile_size : Z;
    tileset_images : list (list Tile);
    tileset_names : list string }.

(** The state of a construction: the object being filled in and the
    console. *)
Record Loading : Type := { self : t; stdout : list Msg }.

Definition print (m : Msg) : M Loading unit :=
  Py.modify (fun l => {| self := self l; stdout := stdout l ++ [m] |}).

Definition append_tileset (tiles : list Tile) (name : string)
  : M Loading unit :=
  Py.modify (fun l =>
    {| self := {| tile_size := tile_size (self l);
                  tileset_images := tileset_images (self l) ++ [tiles];
                  tileset_names := tileset_names (self l) ++ [name] |};
       stdout := stdout l |}).

(** [os.path.exists] *)
Definition path_exists (fs : FileSystem) (p : string) : bool :=
  match fs p with Missing => false | _ => true end.

(** [pygame.image.load(p).convert_alpha()] *)
Definition image_load {S} (fs : FileSystem) (p : string) : M S Image :=
  match fs p with
  | Picture w h => Py.ret {| img_path := p; img_w := w; img_h := h |}
  | _ => Py.raise PygameError
  end.

(** [pygame.Surface((tile_size, tile_size), SRCALPHA)] followed by the
    blit of the source area; pygame refuses a negative size. *)
Definition cut_tile {S} (tileset : Image) (tile_size x y : Z) : M S Tile :=
  if tile_size <? 0 then Py.raise PygameError
  else Py.ret {| tile_src := tileset; tile_px := x * tile_size;
                 tile_py := y * tile_size; tile_side := tile_size |}.

(** The two nested loops that fill the local list [tiles]. *)
Definition slice_loops (tileset : Image) (tile_size width height : Z)
  : M (list Tile) unit :=
  forM_ (range 0 height) (fun y =>
    forM_ (range 0 width) (fun x =>
      tile_surface <- cut_tile tileset tile_size x y ;;
      Py.modify (fun tiles => tiles ++ [tile_surface]))).

Definition slice {S} (tileset : Image) (tile_size width height : Z)
  : M S (list Tile) :=
  fun s =>
    match slice_loops tileset tile_size width height [] with
    | (Ok _, tiles) => (Ok tiles, s)
    | (Raise e, _) => (Raise e, s)
    | (OutOfFuel, _) => (OutOfFuel, s)
    end.

(** The body of the loop of [__init__], with its [try]/[except]. *)
Definition load_one (fs : FileSystem) (tile_size : Z)
           (img_idx : Z) (img_path : string) : M Loading unit :=
  Py.except_pygame
    (if negb (path_exists fs img_path) then
       print (MissingFileWarning img_path)          (* continue *)
     else
       tileset <- image_load fs img_path ;;
       let img_width := Z.of_N (img_w tileset) in
       let img_height := Z.of_N (img_h tileset) in
       width <- Py.lift (floordiv img_width tile_size) ;;
       height <- Py.lift (floordiv img_height tile_size) ;;
       tiles <- slice tileset tile_size width height ;;
       append_tileset tiles (basename img_path) ;;;
       print (LoadSuccess img_idx img_path (Z.of_nat (length tiles))))
    (Py.raise (RuntimeError img_path)).

(** [enumerate(tileset_images)] *)
Definition enumerate {A} (l : list A) : list (Z * A) :=
  combine (range 0 (Z.of_nat (length l))) l.

Definition init_loop (fs : FileSystem) (tile_size : Z)
           (paths : list string) : M Loading unit :=
  forM_ (enumerate paths) (fun '(img_idx, img_path) =>
    load_one fs tile_size img_idx img_path).

(** [TileSelector(tileset_images, tile_size)]: the console is the state,
    the constructed object the result. *)
Definition init (fs : FileSystem) (paths : list string) (tile_size : Z)
  : M (list Msg) t :=
  fun out =>
    let start := {| self := {| tile_size := tile_size;
                               tileset_images := [];
                               tileset_names := [] |};
                    stdout := out |} in
    match init_loop fs tile_size paths start with
    | (Ok _, l) => (Ok (self l), stdout l)
    | (Raise e, l) => (Raise e, stdout l)
    | (OutOfFuel, l) => (OutOfFuel, stdout l)
    end.

Definition get_tile (sel : t) (tileset_idx tile_idx : Z)
  : res (option Tile) :=
  if (0 <=? tileset_idx)
     && (tileset_idx <? Z.of_nat (length (tileset_images sel))) then
    match py_get (tileset_images sel) tileset_idx with
    | Ok tiles =>
        if (0 <=? tile_idx) && (tile_idx <? Z.of_nat (length tiles)) then
          match py_get tiles tile_idx with
          | Ok tile => Ok (Some tile)
          | Raise e => Raise e
          | OutOfFuel => OutOfFuel
          end
        else Ok None
    | Raise e => Raise e
    | OutOfFuel => OutOfFuel
    end
  else Ok None.

Definition get_tileset_count (sel : t) : Z :=
  Z.of_nat (length (tileset_images sel)).

Definition get_tileset_name (sel : t) (tileset_idx : Z)
  : res (option string) :=
  if (0 <=? tileset_idx)
     && (tileset_idx <? Z.of_nat (length (tileset_names sel))) then
    match py_get (tileset_names sel) tileset_idx with
    | Ok name => Ok (Some name)
    | Raise e => Raise e
    | OutOfFuel => OutOfFuel
    end
  else Ok None.

Definition get_tile_count (sel : t) (tileset_idx : Z) : res Z :=
  if (0 <=? tileset_idx)
     && (tileset_idx <? Z.of_nat (length (tileset_images sel))) then
    match py_get (tileset_images sel) tileset_idx with
    | Ok tiles => Ok (Z.of_nat (length tiles))
    | Raise e => Raise e
    | OutOfFuel => OutOfFuel
    end
  else Ok 0.

(** The images of the paths that are located and decodable, in the order
    of the paths: what a successful construction has to slice. *)
Definition located_images (fs : FileSystem) (paths : list string)
  : list Image :=
  flat_map (fun p =>
    match fs p with
    | Picture w h => [{| img_path := p; img_w := w; img_h := h |}]
    | _ => []
    end) paths.

(** The tile of column [col] and row [row] of a sheet. *)
Definition tile_at (img : Image) (tile_size col row : Z) : Tile :=
  {| tile_src := img; tile_px := col * tile_size;
     tile_py := row * tile_size; tile_side := tile_size |}.

(** The list the slicing loops build for a sheet of [cols] x [rows]
    tiles. *)
Definition sheet_tiles (img : Image) (tile_size cols rows : Z)
  : list Tile :=
  flat_map (fun row =>
    map (fun col => tile_at img tile_size col row) (range 0 cols))
    (range 0 rows).

(** The tiles a sheet is cut into for a tile size. *)
Definition sliced (tile_size : Z) (img : Image) : list Tile :=
  sheet_tiles img tile_size (Z.of_N (img_w img) / tile_size)
              (Z.of_N (img_h img) / tile_size).

(** [tiles] is the row-major slicing of [img]: (W/T)*(H/T) tiles, the one
    of row [row] and column [col] at index [row * sheetCols + col]. *)
Definition row_major (tile_size : Z) (img : Image) (tiles : list Tile)
  : Prop :=
  let sheet_cols := Z.of_N (img_w img) / tile_size in
  let sheet_rows := Z.of_N (img_h img) / tile_size in
  Z.of_nat (length tiles) = sheet_cols * sheet_rows /\
  forall row col,
    0 <= row < sheet_rows -> 0 <= col < sheet_cols ->
    py_get tiles (row * sheet_cols + col)
    = Ok (tile_at img tile_size col row).

(** The paths of the warnings printed on a console, oldest first. *)
Definition warnings (out : list Msg) : list string :=
  flat_map (fun m =>
    match m with MissingFileWarning p => [p] | _ => [] end) out.

End TileSelector.

(** ** Collaborators of the map generator *)

(** [pygame.Rect]; [center] uses C integer division, which truncates. *)
Record Rect : Type := { rect_x : Z; rect_y : Z; rect_w : Z; rect_h : Z }.

Definition left (r : Rect) : Z := rect_x r.
Definition right (r : Rect) : Z := rect_x r + rect_w r.
Definition top (r : Rect) : Z := rect_y r.
Definition bottom (r : Rect) : Z := rect_y r + rect_h r.
Definition center (r : Rect) : Z * Z :=
  (rect_x r + Z.quot (rect_w r) 2, rect_y r + Z.quot (rect_h r) 2).

(** The module-level generator of [random]: an unknown sequence of raw
    draws and the number of draws consumed so far. *)
Record Random : Type := { tape : nat -> Z; drawn : nat }.

(** [random.randint(a, b)]: a value of [a..b], [ValueError] on an empty
    range.  Every value of the range is produced by some tape. *)
Definition randint (a b : Z) : M Random Z :=
  fun g =>
    if b <? a then (Raise ValueError, g)
    else (Ok (a + tape g (drawn g) mod (b - a + 1)),
          {| tape := tape g; drawn := Datatypes.S (drawn g) |}).

(** The render target: its pixel size and the draw calls it received, oldest
    first. *)
Inductive DrawOp : Type :=
| Blit (img : Tile) (pos : Z * Z)
| FillRect (color : Z * Z * Z) (area : Z * Z * Z * Z).

Record Surface : Type := { surf_w : Z; surf_h : Z; calls : list DrawOp }.

(** The surface after further draw calls. *)
Definition drawn_on (sf : Surface) (ops : list DrawOp) : Surface :=
  {| surf_w := surf_w sf; surf_h := surf_h sf; calls := calls sf ++ ops |}.

Definition record_call (op : DrawOp) : M Surface unit :=
  Py.modify (fun sf =>
    {| surf_w := surf_w sf; surf_h := surf_h sf; calls := calls sf ++ [op] |}).

(** ** The map generator: [map_engine/map_generator.py] *)

Module MapGenerator.

Record t : Type :=
  { width : Z;
    height : Z;
    tile_size : Z;
    room_count : Z;
    room_min_size : Z;
    room_max_size : Z;
    tilemap : list (list Z);          (* tilemap[x][y]: 0 = wall, 1 = floor *)
    rooms : list Rect;
    tile_selector : TileSelector.t;
    floor_tileset : Z;
    floor_tile : Z;
    wall_tileset : Z;
    wall_tile : Z }.

Definition with_tilemap (s : t) (tm : list (list Z)) : t :=
  {| width := width s; height := height s; tile_size := tile_size s;
     room_count := room_count s; room_min_size := room_min_size s;
     room_max_size := room_max_size s; tilemap := tm; rooms := rooms s;
     tile_selector := tile_selector s;
     floor_tileset := floor_tileset s; floor_tile := floor_tile s;
     wall_tileset := wall_tileset s; wall_tile := wall_tile s |}.

Definition with_rooms (s : t) (rs : list Rect) : t :=
  {| width := width s; height := height s; tile_size := tile_size s;
     room_count := room_count s; room_min_size := room_min_size s;
     room_max_size := room_max_size s; tilemap := tilemap s; rooms := rs;
     tile_selector := tile_selector s;
     floor_tileset := floor_tileset s; floor_tile := floor_tile s;
     wall_tileset := wall_tileset s; wall_tile := wall_tile s |}.

(** *** [__init__] *)

Definition possible_paths : list (list string) :=
  [ ["assets/tileset1.png"; "assets/tileset2.png"];
    ["Assets/tileset1.png"; "Assets/tileset2.png"];
    ["tileset1.png"; "tileset2.png"] ]%string.

(** The search loop: the first group whose first path exists, filtered to
    its existing paths. *)
Fixpoint find_tileset_paths (fs : FileSystem) (groups : list (list string))
  : res (option (list string)) :=
  match groups with
  | [] => Ok None
  | paths :: groups' =>
      match py_get paths 0 with
      | Ok p0 =>
          if TileSelector.path_exists fs p0
          then Ok (Some (List.filter (TileSelector.path_exists fs) paths))
          else find_tileset_paths fs groups'
      | Raise e => Raise e
      | OutOfFuel => OutOfFuel
      end
  end.

(** The constructor; its state is the console. *)
Definition init (fs : FileSystem) (width height tile_size : Z)
           (floor_tileset floor_tile wall_tileset wall_tile : Z)
  : M (list Msg) t :=
  let tilemap :=
    map (fun _ => map (fun _ => 0) (range 0 height)) (range 0 width) in
  found <- Py.lift (find_tileset_paths fs possible_paths) ;;
  match found with
  | None | Some [] => Py.raise FileNotFoundError
  | Some tileset_paths =>
      selector <- TileSelector.init fs tileset_paths tile_size ;;
      Py.ret {| width := width; height := height; tile_size := tile_size;
                room_count := 5; room_min_size := 6; room_max_size := 15;
                tilemap := tilemap; rooms := [];
                tile_selector := selector;
                floor_tileset := floor_tileset; floor_tile := floor_tile;
                wall_tileset := wall_tileset; wall_tile := wall_tile |}
  end.

Definition set_tiles (floor_tileset floor_tile wall_tileset wall_tile : Z)
  : M t unit :=
  Py.modify (fun s =>
    {| width := width s; height := height s; tile_size := tile_size s;
       room_count := room_count s; room_min_size := room_min_size s;
       room_max_size := room_max_size s; tilemap := tilemap s;
       rooms := rooms s; tile_selector := tile_selector s;
       floor_tileset := floor_tileset; floor_tile := floor_tile;
       wall_tileset := wall_tileset; wall_tile := wall_tile |}).

(** *** Reading and writing the grid *)

(** [self.tilemap[x][y]] *)
Definition load (s : t) (x y : Z) : res Z :=
  match py_get (tilemap s) x with
  | Ok column => py_get column y
  | Raise e => Raise e
  | OutOfFuel => OutOfFuel
  end.

(** [self.tilemap[x][y] = v]: the column object is updated in place; the
    columns are distinct objects, so no other column changes. *)
Definition store (x y v : Z) : M t unit :=
  fun s =>
    match py_index (length (tilemap s)) x with
    | Some n =>
        match tilemap s !! n with
        | Some column =>
            match py_set column y v with
            | Ok column' => (Ok tt, with_tilemap s (<[n := column']> (tilemap s)))
            | Raise e => (Raise e, s)
            | OutOfFuel => (OutOfFuel, s)
            end
        | None => (Raise IndexError, s)
        end
    | None => (Raise IndexError, s)
    end.

(** [0 <= x < self.width and 0 <= y < self.height] *)
Definition in_bounds (s : t) (x y : Z) : bool :=
  (0 <=? x) && (x <? width s) && ((0 <=? y) && (y <? height s)).

(** The guarded write shared by the carving loops. *)
Definition carve_cell (x y : Z) : M t unit :=
  self <- Py.get ;;
  if in_bounds self x y then store x y 1 else Py.ret tt.

(** *** [create_room] and [create_corridor] *)

Definition create_room (room : Rect) : M t unit :=
  forM_ (range (left room) (right room)) (fun x =>
    forM_ (range (top room) (bottom room)) (fun y =>
      carve_cell x y)).

(** Fuel of a [while v != target] loop that starts at [from] and steps
    toward [target]. *)
Definition steps (from target : Z) : nat := Z.abs_nat (target - from).

Definition create_corridor (start end_ : Z * Z) : M t unit :=
  let '(x1, y1) := start in
  let '(x2, y2) := end_ in
  let step_x := if x1 <? x2 then 1 else -1 in
  while_ne (steps x1 x2) x1 x2 step_x (fun x => carve_cell x y1) ;;;
  let step_y := if y1 <? y2 then 1 else -1 in
  while_ne (steps y1 y2) y1 y2 step_y (fun y => carve_cell x2 y).

(** *** [generate] *)

Record World : Type := { gen : t; random : Random }.

Definition on_gen {A} (m : M t A) : M World A :=
  Py.zoom gen (fun g w => {| gen := g; random := random w |}) m.

Definition on_random {A} (m : M Random A) : M World A :=
  Py.zoom random (fun r w => {| gen := gen w; random := r |}) m.

Definition rooms_clear : M t unit := Py.modify (fun s => with_rooms s []).

Definition rooms_append (room : Rect) : M t unit :=
  Py.modify (fun s => with_rooms s (rooms s ++ [room])).

Definition rooms_get (i : Z) : M t Rect :=
  fun s => (py_get (rooms s) i, s).

(** The body of the room loop. *)
Definition generate_room (i : Z) : M World unit :=
  self <- Py.gets gen ;;
  w <- on_random (randint (room_min_size self) (room_max_size self)) ;;
  h <- on_random (randint (room_min_size self) (room_max_size self)) ;;
  x <- on_random (randint 1 (width self - w - 1)) ;;
  y <- on_random (randint 1 (height self - h - 1)) ;;
  let room := {| rect_x := x; rect_y := y; rect_w := w; rect_h := h |} in
  on_gen (rooms_append room) ;;;
  on_gen (create_room room) ;;;
  if 0 <? i then
    prev <- on_gen (rooms_get (i - 1)) ;;
    on_gen (create_corridor (center prev) (center room))
  else Py.ret tt.

Definition reset_grid : M t unit :=
  self <- Py.get ;;
  forM_ (range 0 (width self)) (fun x =>
    forM_ (range 0 (height self)) (fun y =>
      store x y 0)).

Definition generate : M World unit :=
  on_gen rooms_clear ;;;
  on_gen reset_grid ;;;
  self <- Py.gets gen ;;
  forM_ (range 0 (room_count self)) generate_room.

(** *** Queries *)

Definition get_tile_at (s : t) (x y : Z) : res Z :=
  if in_bounds s x y then load s x y else Ok 0.

Definition is_walkable (s : t) (x y : Z) : res bool :=
  match get_tile_at s x y with
  | Ok v => Ok (v =? 1)
  | Raise e => Raise e
  | OutOfFuel => OutOfFuel
  end.

(** *** [draw] *)

Definition floor_fallback : Z * Z * Z := (200, 200, 200).
Definition wall_fallback : Z * Z * Z := (80, 60, 40).

(** Draw one tile at a screen position: the image when there is one, else a
    filled square. *)
Definition put_tile (image : option Tile) (fallback : Z * Z * Z)
           (size screen_x screen_y : Z) : M Surface unit :=
  match image with
  | Some img => record_call (Blit img (screen_x, screen_y))
  | None => record_call (FillRect fallback (screen_x, screen_y, size, size))
  end.

Definition draw (s : t) (camera_x camera_y : Z) : M Surface unit :=
  surface <- Py.get ;;
  let screen_w := surf_w surface in
  let screen_h := surf_h surface in
  cx0 <- Py.lift (floordiv camera_x (tile_size s)) ;;
  let start_x := Z.max 0 cx0 in
  cx1 <- Py.lift (floordiv (camera_x + screen_w) (tile_size s)) ;;
  let end_x := Z.min (width s) (cx1 + 1) in
  cy0 <- Py.lift (floordiv camera_y (tile_size s)) ;;
  let start_y := Z.max 0 cy0 in
  cy1 <- Py.lift (floordiv (camera_y + screen_h) (tile_size s)) ;;
  let end_y := Z.min (height s) (cy1 + 1) in
  floor_img <- Py.lift (TileSelector.get_tile (tile_selector s)
                          (floor_tileset s) (floor_tile s)) ;;
  wall_img <- Py.lift (TileSelector.get_tile (tile_selector s)
                         (wall_tileset s) (wall_tile s)) ;;
  forM_ (range start_x end_x) (fun x =>
    forM_ (range start_y end_y) (fun y =>
      c <- Py.lift (load s x y) ;;
      if c =? 1 then
        let screen_x := x * tile_size s - camera_x in
        let screen_y := y * tile_size s - camera_y in
        put_tile floor_img floor_fallback (tile_size s) screen_x screen_y
      else Py.ret tt)) ;;;
  forM_ (range start_x end_x) (fun x =>
    forM_ (range start_y end_y) (fun y =>
      c <- Py.lift (load s x y) ;;
      if c =? 0 then
        if y <? height s - 1 then
          below <- Py.lift (load s x (y + 1)) ;;
          if below =? 1 then
            let screen_x := x * tile_size s - camera_x in
            let screen_y := y * tile_size s - camera_y in
            put_tile wall_img wall_fallback (tile_size s) screen_x screen_y
          else Py.ret tt
        else Py.ret tt
      else Py.ret tt)).

(** *** Notions used to state the properties *)

(** The representation invariant of the grid: [width] columns of [height]
    cells, every cell 0 (wall) or 1 (floor). *)
Definition dims_ok (s : t) : Prop :=
  Z.of_nat (length (tilemap s)) = width s
  /\ Forall (fun column => Z.of_nat (length column) = height s) (tilemap s).

Definition cells_ok (s : t) : Prop :=
  Forall (Forall (fun v => v = 0 \/ v = 1)) (tilemap s).

Definition grid_inv (s : t) : Prop := dims_ok s /\ cells_ok s.

(** The value stored at a cell of non-negative coordinates, 0 where the grid
    has no such cell. *)
Definition peek (s : t) (x y : Z) : Z :=
  match tilemap s !! Z.to_nat x with
  | Some column =>
      match column !! Z.to_nat y with
      | Some v => v
      | None => 0
      end
  | None => 0
  end.

(** The grid with one cell overwritten. *)
Definition put (s : t) (x y v : Z) : t :=
  with_tilemap s (alter (<[Z.to_nat y := v]>) (Z.to_nat x) (tilemap s)).

(** Write [v] to the cells of a list, in order, skipping those out of
    bounds. *)
Definition fill_cell (v : Z) (s : t) (c : Z * Z) : t :=
  if in_bounds s (fst c) (snd c) then put s (fst c) (snd c) v else s.

Definition fill (v : Z) (cells : list (Z * Z)) (s : t) : t :=
  fold_left (fill_cell v) cells s.

Definition carve (cells : list (Z * Z)) (s : t) : t := fill 1 cells s.

(** The cells of a rectangle, column by column. *)
Definition rect_cells (r : Rect) : list (Z * Z) :=
  flat_map (fun x => map (fun y => (x, y)) (range (top r) (bottom r)))
           (range (left r) (right r)).

(** The values a walk from [a] toward [b] takes, one step at a time,
    [b] excluded. *)
Definition toward (a b : Z) : list Z :=
  if a <? b then range a b else map (fun k => a - k) (range 0 (a - b)).

(** The cells of the L-shaped walk: along the row of [start] to the column
    of [end_], then along that column to the row of [end_]. *)
Definition l_walk (start end_ : Z * Z) : list (Z * Z) :=
  map (fun x => (x, snd start)) (toward (fst start) (fst end_))
  ++ map (fun y => (fst end_, y)) (toward (snd start) (snd end_)).

(** A room keeps a border of one cell to the edges of the grid. *)
Definition in_border (s : t) (r : Rect) : Prop :=
  1 <= rect_x r /\ 1 <= rect_y r
  /\ rect_x r + rect_w r <= width s - 1
  /\ rect_y r + rect_h r <= height s - 1.

(** Every two consecutive rooms are joined: the cells of the L-walk between
    their centers are cells of the grid and hold floor. *)
Definition corridors_floor (s : t) : Prop :=
  forall (i : nat) (a b : Rect),
    rooms s !! i = Some a -> rooms s !! Datatypes.S i = Some b ->
    forall x y, (x, y) ∈ l_walk (center a) (center b) ->
                in_bounds s x y = true /\ peek s x y = 1.

(** The invariant of the room loop: rooms keep the border and have
    non-negative sizes, and consecutive rooms are joined. *)
Definition tidy (s : t) : Prop :=
  dims_ok s
  /\ Forall (fun r => in_border s r /\ 0 <= rect_w r /\ 0 <= rect_h r)
            (rooms s)
  /\ corridors_floor s.

(** The [k]-th next draw of the generator, taken in the range [a..b]. *)
Definition pick (a b : Z) (g : Random) (k : nat) : Z :=
  a + tape g (k + drawn g)%nat mod (b - a + 1).

Definition skip (n : nat) (g : Random) : Random :=
  {| tape := tape g; drawn := (n + drawn g)%nat |}.

(** The room the next four draws describe, and whether all four ranges are
    non-empty. *)
Definition drawn_room (s : t) (g : Random) : Rect :=
  let w := pick (room_min_size s) (room_max_size s) g 0 in
  let h := pick (room_min_size s) (room_max_size s) g 1 in
  {| rect_x := pick 1 (width s - w - 1) g 2;
     rect_y := pick 1 (height s - h - 1) g 3;
     rect_w := w; rect_h := h |}.

Definition placeable (s : t) (g : Random) : bool :=
  let w := pick (room_min_size s) (room_max_size s) g 0 in
  let h := pick (room_min_size s) (room_max_size s) g 1 in
  (room_min_size s <=? room_max_size s)
  && (1 <=? width s - w - 1) && (1 <=? height s - h - 1).

(** The rooms of the first [n] iterations, in the order they are drawn,
    up to the first one that cannot be placed. *)
Fixpoint drawn_rooms (n : nat) (s : t) (g : Random) : list Rect :=
  match n with
  | O => []
  | Datatypes.S n' =>
      if placeable s g
      then drawn_room s g :: drawn_rooms n' s (skip 4 g)
      else []
  end.

(** The map after one more room: the room is appended and carved, then
    joined to the room before it. *)
Definition add_room (s : t) (room : Rect) : t :=
  let s1 := carve (rect_cells room) (with_rooms s (rooms s ++ [room])) in
  match last (rooms s) with
  | Some prev => carve (l_walk (center prev) (center room)) s1
  | None => s1
  end.

(** The map after the first [n] iterations, and whether they all placed
    their room. *)
Fixpoint build (n : nat) (s : t) (g : Random) : bool * t :=
  match n with
  | O => (true, s)
  | Datatypes.S n' =>
      if placeable s g
      then build n' (add_room s (drawn_room s g)) (skip 4 g)
      else (false, s)
  end.

(** The map right after the reset at the start of [generate]. *)
Definition blank (s : t) : t :=
  fill 0 (rect_cells {| rect_x := 0; rect_y := 0;
                        rect_w := width s; rect_h := height s |})
       (with_rooms s []).

(** *** Notions used to state the drawing rule *)

(** The cells of the visible window, in the order the loops visit them. *)
Definition window (s : t) (surface : Surface) (camera_x camera_y : Z)
  : list (Z * Z) :=
  let start_x := Z.max 0 (camera_x / tile_size s) in
  let end_x :=
    Z.min (width s) ((camera_x + surf_w surface) / tile_size s + 1) in
  let start_y := Z.max 0 (camera_y / tile_size s) in
  let end_y :=
    Z.min (height s) ((camera_y + surf_h surface) / tile_size s + 1) in
  flat_map (fun x => map (fun y => (x, y)) (range start_y end_y))
           (range start_x end_x).

(** The image the selector gives for a tile reference, if any. *)
Definition tile_image (s : t) (sheet index : Z) : option Tile :=
  match TileSelector.get_tile (tile_selector s) sheet index with
  | Ok r => r
  | _ => None
  end.

(** The draw call for a cell: the image at the screen position of the
    cell, or a square of the fallback color. *)
Definition tile_call (s : t) (image : option Tile) (fallback : Z * Z * Z)
           (camera_x camera_y : Z) (c : Z * Z) : DrawOp :=
  let screen_x := fst c * tile_size s - camera_x in
  let screen_y := snd c * tile_size s - camera_y in
  match image with
  | Some img => Blit img (screen_x, screen_y)
  | None =>
      FillRect fallback (screen_x, screen_y, tile_size s, tile_size s)
  end.

Definition is_floor (s : t) (c : Z * Z) : bool :=
  peek s (fst c) (snd c) =? 1.

(** A wall cell whose cell below is in the grid and is floor. *)
Definition is_front_wall (s : t) (c : Z * Z) : bool :=
  (peek s (fst c) (snd c) =? 0)
  && ((snd c + 1 <? height s) && (peek s (fst c) (snd c + 1) =? 1)).

Definition floor_calls (s : t) (surface : Surface) (camera_x camera_y : Z)
  : list DrawOp :=
  map (tile_call s (tile_image s (floor_tileset s) (floor_tile s))
                 floor_fallback camera_x camera_y)
      (List.filter (is_floor s) (window s surface camera_x camera_y)).

Definition wall_calls (s : t) (surface : Surface) (camera_x camera_y : Z)
  : list DrawOp :=
  map (tile_call s (tile_image s (wall_tileset s) (wall_tile s))
                 wall_fallback camera_x camera_y)
      (List.filter (is_front_wall s) (window s surface camera_x camera_y)).

(** *** The operations of a map, as steps on the world *)

Inductive Op : Type :=
| OpGenerate
| OpCreateRoom (room : Rect)
| OpCreateCorridor (start end_ : Z * Z)
| OpSetTiles (floor_tileset floor_tile wall_tileset wall_tile : Z)
| OpGetTileAt (x y : Z)
| OpIsWalkable (x y : Z)
| OpDraw (surface : Surface) (camera_x camera_y : Z).

(** The world an operation leaves, whether it returns or raises.  The
    queries and [draw] only read the map. *)
Definition run_op (op : Op) (w : World) : World :=
  match op with
  | OpGenerate => snd (generate w)
  | OpCreateRoom room => snd (on_gen (create_room room) w)
  | OpCreateCorridor start end_ =>
      snd (on_gen (create_corridor start end_) w)
  | OpSetTiles a b c d => snd (on_gen (set_tiles a b c d) w)
  | OpGetTileAt _ _ | OpIsWalkable _ _ | OpDraw _ _ _ => w
  end.

End MapGenerator.

(** ** Concrete inputs used to exercise the theorems *)

Module Fixtures.

(** A disk that holds one 480 x 48 tile sheet. *)
Definition one_sheet : FileSystem :=
  fun p =>
    if String.eqb p "assets/tileset1.png" then Picture 480 48 else Missing.

(** A disk whose second tile sheet is damaged. *)
Definition damaged_sheet : FileSystem :=
  fun p =>
    if String.eqb p "assets/tileset1.png" then Picture 480 48
    else if String.eqb p "assets/tileset2.png" then Undecodable
    else Missing.

(** The selector built from that disk with the default tile size. *)
Definition selector : TileSelector.t :=
  {| TileSelector.tile_size := 48;
     TileSelector.tileset_images :=
       [TileSelector.sliced 48 {| img_path := "assets/tileset1.png";
                                  img_w := 480; img_h := 48 |}];
     TileSelector.tileset_names := ["tileset1.png"%string] |}.

(** A freshly constructed map of the given size, with the default tiles. *)
Definition new_map (width height : Z) : MapGenerator.t :=
  {| MapGenerator.width := width; MapGenerator.height := height;
     MapGenerator.tile_size := 48;
     MapGenerator.room_count := 5;
     MapGenerator.room_min_size := 6;
     MapGenerator.room_max_size := 15;
     MapGenerator.tilemap :=
       map (fun _ => map (fun _ => 0) (range 0 height)) (range 0 width);
     MapGenerator.rooms := [];
     MapGenerator.tile_selector := selector;
     MapGenerator.floor_tileset := 0; MapGenerator.floor_tile := 0;
     MapGenerator.wall_tileset := 0; MapGenerator.wall_tile := 1 |}.

(** A 20 x 20 map and a generator whose draws vary. *)
Definition roomy_world : MapGenerator.World :=
  {| MapGenerator.gen := new_map 20 20;
     MapGenerator.random :=
       {| tape := fun n => 7 * Z.of_nat n + 3; drawn := 0 |} |}.

(** An 8 x 8 map: a 6 x 6 room fits, a 7 x 7 room does not.  The first
    twenty draws give 6 x 6 rooms, the later ones 7 x 7 rooms. *)
Definition tight_world : MapGenerator.World :=
  {| MapGenerator.gen := new_map 8 8;
     MapGenerator.random :=
       {| tape := fun n => if (n <? 20)%nat then 0 else 1; drawn := 0 |} |}.

(** The tight world after one call of [generate]. *)
Definition tight_world_generated : MapGenerator.World :=
  snd (MapGenerator.generate tight_world).

(** A 100 x 100 pixel surface with no draw call yet. *)
Definition screen : Surface := {| surf_w := 100; surf_h := 100; calls := [] |}.

End Fixtures.

(** ** The layout of a generated map *)

Module Layout.

Import MapGenerator.

(** The cell lies in one of the rooms. *)
Definition in_some_room (rs : list Rect) (x y : Z) : Prop :=
  exists r, r ∈ rs /\ (x, y) ∈ rect_cells r.

(** The cell lies on the L-walk between two consecutive rooms. *)
Definition on_some_corridor (rs : list Rect) (x y : Z) : Prop :=
  exists (i : nat) (a b : Rect),
    rs !! i = Some a /\ rs !! Datatypes.S i = Some b
    /\ (x, y) ∈ l_walk (center a) (center b).

Definition carved_by (rs : list Rect) (x y : Z) : Prop :=
  in_some_room rs x y \/ on_some_corridor rs x y.

(** The floor cells of the grid are exactly the carved cells. *)
Definition floor_exact (s : t) : Prop :=
  forall x y,
    in_bounds s x y = true ->
    (peek s x y = 1 <-> carved_by (rooms s) x y).

(** Every cell of the grid reads wall or floor. *)
Definition binary (s : t) : Prop :=
  forall x y, in_bounds s x y = true -> peek s x y = 0 \/ peek s x y = 1.

(** The cell is on the outer ring of the grid. *)
Definition on_edge (s : t) (x y : Z) : Prop :=
  x = 0 \/ y = 0 \/ x = width s - 1 \/ y = height s - 1.

(** Two maps that differ at most in the contents of the grid and in the
    rooms. *)
Definition same_setup (s1 s2 : t) : Prop :=
  with_rooms (with_tilemap s1 []) [] = with_rooms (with_tilemap s2 []) [].

(** Two maps with the same size, tile size, selector and room
    configuration. *)
Definition same_shape (s1 s2 : t) : Prop :=
  width s1 = width s2 /\ height s1 = height s2
  /\ tile_size s1 = tile_size s2
  /\ tile_selector s1 = tile_selector s2
  /\ room_count s1 = room_count s2
  /\ room_min_size s1 = room_min_size s2
  /\ room_max_size s1 = room_max_size s2.

(** The three places where the first tile sheet is looked for. *)
Definition first_sheet_paths : list string :=
  ["assets/tileset1.png"; "Assets/tileset1.png"; "tileset1.png"]%string.

(** Two cells that share a side. *)
Definition adjacent (c d : Z * Z) : Prop :=
  Z.abs (fst c - fst d) + Z.abs (snd c - snd d) = 1.

(** Consecutive numbers of the list differ by one. *)
Fixpoint steps_of_one (l : list Z) : Prop :=
  match l with
  | u :: ((v :: _) as tl) => Z.abs (u - v) = 1 /\ steps_of_one tl
  | _ => True
  end.

(** Consecutive cells of the list share a side. *)
Fixpoint chain (l : list (Z * Z)) : Prop :=
  match l with
  | c :: ((d :: _) as tl) => adjacent c d /\ chain tl
  | _ => True
  end.

(** The corridor between two cells, with its end: the cells the carving
    visits, then the end cell. *)
Definition corridor_path (p q : Z * Z) : list (Z * Z) :=
  l_walk p q ++ [q].

(** A sequence of operations, applied in order. *)
Definition run_ops (ops : list Op) (w : World) : World :=
  fold_left (fun w' op => run_op op w') ops w.

End Layout.

(** ** The program: [main.py] *)

Module Main.

Import MapGenerator.

(** The choice of the floor and wall tiles: the wall tile comes from the
    second sheet, or from the first one when only one sheet is loaded. *)
Definition select_tiles : M t unit :=
  map_gen <- Py.get ;;
  let FLOOR_TILESET_IDX := 0 in
  let FLOOR_TILE_IDX := 0 in
  let '(WALL_TILESET_IDX, WALL_TILE_IDX) :=
    if TileSelector.get_tileset_count (tile_selector map_gen) <=? 1
    then (0, 1) else (1, 1) in
  set_tiles FLOOR_TILESET_IDX FLOOR_TILE_IDX WALL_TILESET_IDX WALL_TILE_IDX.

(** The handler of the space key, which is also how the player is first
    placed: a new map, and the center of its first room as the tile of the
    player. *)
Definition respawn : M World (Z * Z) :=
  generate ;;;
  room_x <- on_gen (rooms_get 0) ;;
  room_y <- on_gen (rooms_get 0) ;;
  Py.ret (fst (center room_x), snd (center room_y)).

End Main.

(** ** Further concrete inputs *)

Module MoreFixtures.

(** A disk whose only tile sheet is smaller than one 48 x 48 tile. *)
Definition tiny_sheet : FileSystem :=
  fun p =>
    if String.eqb p "assets/tileset1.png" then Picture 30 30 else Missing.

(** A disk with no tile sheet at all. *)
Definition empty_disk : FileSystem := fun _ => Missing.

(** A disk with the two tile sheets in the working directory only. *)
Definition flat_disk : FileSystem :=
  fun p =>
    if String.eqb p "tileset1.png" then Picture 480 48
    else if String.eqb p "tileset2.png" then Picture 96 96
    else Missing.

(** Three paths, the second of which does not exist on the flat disk, and
    the selector and console lines their loading gives. *)
Definition flat_paths : list string :=
  ["tileset1.png"; "missing.png"; "tileset2.png"]%string.

Definition flat_selector : TileSelector.t :=
  {| TileSelector.tile_size := 48;
     TileSelector.tileset_images :=
       [TileSelector.sliced 48 {| img_path := "tileset1.png";
                                  img_w := 480; img_h := 48 |};
        TileSelector.sliced 48 {| img_path := "tileset2.png";
                                  img_w := 96; img_h := 96 |}];
     TileSelector.tileset_names := ["tileset1.png"; "tileset2.png"]%string |}.

Definition flat_console : list Msg :=
  [LoadSuccess 0 "tileset1.png" 10; MissingFileWarning "missing.png";
   LoadSuccess 2 "tileset2.png" 4].

(** The map constructed from the flat disk, 8 x 8 cells, the wall tile
    taken from the second sheet. *)
Definition flat_map : MapGenerator.t :=
  {| MapGenerator.width := 8; MapGenerator.height := 8;
     MapGenerator.tile_size := 48;
     MapGenerator.room_count := 5;
     MapGenerator.room_min_size := 6;
     MapGenerator.room_max_size := 15;
     MapGenerator.tilemap := MapGenerator.tilemap (Fixtures.new_map 8 8);
     MapGenerator.rooms := [];
     MapGenerator.tile_selector := flat_selector;
     MapGenerator.floor_tileset := 0; MapGenerator.floor_tile := 0;
     MapGenerator.wall_tileset := 1; MapGenerator.wall_tile := 1 |}.

End MoreFixtures.

(** * Proofs *)

(** ** Loops and Python lists *)

Lemma range_length (a b : Z) : length (range a b) = Z.to_nat (b - a).
Proof. unfold range. apply length_seqZ. Qed.

Lemma range_lookup (a b : Z) (i : nat) :
  Z.of_nat i < b - a -> range a b !! i = Some (a + Z.of_nat i).
Proof. unfold range. apply lookup_seqZ_lt. Qed.

Lemma range_elem (a b x : Z) : x ∈ range a b <-> a <= x < b.
Proof. unfold range. rewrite elem_of_seqZ. lia. Qed.

Lemma range_empty (a b : Z) : b <= a -> range a b = [].
Proof.
  intros H. unfold range, seqZ.
  replace (Z.to_nat (b - a)) with O by lia. reflexivity.
Qed.

Lemma range_cons (a b : Z) : a < b -> range a b = a :: range (a + 1) b.
Proof.
  intros H. unfold range.
  replace (b - a) with (Z.succ (b - (a + 1))) by lia.
  rewrite seqZ_cons by lia.
  f_equal. f_equal; lia.
Qed.

Lemma py_index_nonneg (len : nat) (i : Z) :
  0 <= i < Z.of_nat len -> py_index len i = Some (Z.to_nat i).
Proof.
  intros [H0 H1]. unfold py_index.
  destruct (Z.leb_spec 0 i); [|lia].
  destruct (Z.ltb_spec i (Z.of_nat len)); [reflexivity|lia].
Qed.

Lemma py_get_nonneg {A} (l : list A) (i : Z) (a : A) :
  0 <= i -> l !! Z.to_nat i = Some a -> py_get l i = Ok a.
Proof.
  intros H0 Hl. unfold py_get.
  rewrite py_index_nonneg.
  - rewrite Hl. reflexivity.
  - apply lookup_lt_Some in Hl. lia.
Qed.

Lemma py_get_total {A} (l : list A) (i : Z) :
  0 <= i < Z.of_nat (length l) ->
  exists a, l !! Z.to_nat i = Some a /\ py_get l i = Ok a.
Proof.
  intros H.
  destruct (lookup_lt_is_Some_2 l (Z.to_nat i)) as [a Ha]; [lia|].
  exists a. split; [exact Ha|]. apply py_get_nonneg; [lia|exact Ha].
Qed.

(** A [for] loop whose body always returns: it runs the body on each
    element in turn, keeping an invariant. *)
Lemma forM_fold {S A} (Inv : S -> Prop) (step : S -> A -> S)
      (xs : list A) (body : A -> M S unit) :
  (forall x s, x ∈ xs -> Inv s ->
               body x s = (Ok tt, step s x) /\ Inv (step s x)) ->
  forall s, Inv s ->
            forM_ xs body s = (Ok tt, fold_left step xs s)
            /\ Inv (fold_left step xs s).
Proof.
  induction xs as [|x xs IH]; intros Hbody s Hs.
  - split; [reflexivity|exact Hs].
  - destruct (Hbody x s) as [Hx Hi]; [left|exact Hs|].
    simpl. unfold Py.bind. rewrite Hx.
    apply IH; [|exact Hi].
    intros y s' Hy. apply Hbody. right. exact Hy.
Qed.

(** ** The tile selector *)

Section Accumulate.
Context {A B : Type}.

Lemma fold_left_snoc (f : A -> B) (xs : list A) (acc : list B) :
  fold_left (fun s x => s ++ [f x]) xs acc = acc ++ map f xs.
Proof.
  revert acc. induction xs as [|x xs IH]; intros acc; simpl.
  - symmetry. apply app_nil_r.
  - rewrite IH, <- app_assoc. reflexivity.
Qed.

Lemma fold_left_extend (g : A -> list B) (xs : list A) (acc : list B) :
  fold_left (fun s x => s ++ g x) xs acc = acc ++ flat_map g xs.
Proof.
  revert acc. induction xs as [|x xs IH]; intros acc; simpl.
  - symmetry. apply app_nil_r.
  - rewrite IH, <- app_assoc. reflexivity.
Qed.

Lemma flat_map_length_const (g : A -> list B) (c : nat) (xs : list A) :
  (forall x, length (g x) = c) ->
  length (flat_map g xs) = (length xs * c)%nat.
Proof.
  intros Hg. induction xs as [|x xs IH]; simpl; [reflexivity|].
  rewrite length_app, Hg, IH. reflexivity.
Qed.

Lemma flat_map_lookup_const (g : A -> list B) (c : nat) (xs : list A)
      (k j : nat) (x : A) (v : B) :
  (forall y, length (g y) = c) ->
  xs !! k = Some x -> g x !! j = Some v ->
  flat_map g xs !! (k * c + j)%nat = Some v.
Proof.
  intros Hg. revert k. induction xs as [|y xs IH]; intros k Hk Hj.
  - discriminate.
  - destruct k as [|k]; simpl in *.
    + injection Hk as ->. apply lookup_app_l_Some. exact Hj.
    + rewrite lookup_app_r by (rewrite Hg; lia).
      rewrite Hg. replace (c + k * c + j - c)%nat with (k * c + j)%nat by lia.
      apply IH; assumption.
Qed.

End Accumulate.

Lemma map_lookup {A B} (f : A -> B) (l : list A) (i : nat) :
  map f l !! i = f <$> l !! i.
Proof.
  revert i. induction l as [|a l IH]; intros [|i]; simpl; auto.
Qed.

Lemma slice_loops_run (img : Image) (T cols rows : Z) (acc : list Tile) :
  0 <= T ->
  TileSelector.slice_loops img T cols rows acc
  = (Ok tt, acc ++ TileSelector.sheet_tiles img T cols rows).
Proof.
  intros HT. unfold TileSelector.slice_loops, TileSelector.sheet_tiles.
  rewrite <- fold_left_extend.
  apply (forM_fold (fun _ => True)); [|exact I].
  intros row s _ _. split; [|exact I].
  rewrite <- fold_left_snoc.
  apply (forM_fold (fun _ => True)); [|exact I].
  intros col s' _ _. split; [|exact I].
  unfold Py.bind, TileSelector.cut_tile.
  destruct (Z.ltb_spec T 0); [lia|]. reflexivity.
Qed.

Lemma sheet_tiles_length (img : Image) (T cols rows : Z) :
  0 <= cols -> 0 <= rows ->
  Z.of_nat (length (TileSelector.sheet_tiles img T cols rows)) = cols * rows.
Proof.
  intros Hc Hr. unfold TileSelector.sheet_tiles.
  rewrite (flat_map_length_const _ (Z.to_nat cols)).
  - rewrite range_length. lia.
  - intros row. rewrite length_map, range_length. f_equal. lia.
Qed.

Lemma sheet_tiles_lookup (img : Image) (T cols rows row col : Z) :
  0 <= row < rows -> 0 <= col < cols ->
  py_get (TileSelector.sheet_tiles img T cols rows) (row * cols + col)
  = Ok (TileSelector.tile_at img T col row).
Proof.
  intros Hr Hc. apply py_get_nonneg; [nia|].
  replace (Z.to_nat (row * cols + col))
    with (Z.to_nat row * Z.to_nat cols + Z.to_nat col)%nat by nia.
  unfold TileSelector.sheet_tiles.
  apply (flat_map_lookup_const _ (Z.to_nat cols) _ _ _ row).
  - intros y. rewrite length_map, range_length. f_equal. lia.
  - rewrite range_lookup by lia. f_equal. lia.
  - rewrite map_lookup, range_lookup by lia. simpl. do 2 f_equal. lia.
Qed.

Lemma sheet_tiles_row_major (img : Image) (T : Z) :
  0 < T ->
  TileSelector.row_major T img
    (TileSelector.sheet_tiles img T (Z.of_N (img_w img) / T)
                              (Z.of_N (img_h img) / T)).
Proof.
  intros HT.
  assert (0 <= Z.of_N (img_w img) / T) by (apply Z.div_pos; lia).
  assert (0 <= Z.of_N (img_h img) / T) by (apply Z.div_pos; lia).
  split.
  - apply sheet_tiles_length; assumption.
  - intros row col Hr Hc. apply sheet_tiles_lookup; assumption.
Qed.

(** What one iteration of the loading loop does, by the kind of path. *)

Lemma load_one_missing fs T idx p l :
  fs p = Missing ->
  TileSelector.load_one fs T idx p l
  = (Ok tt, {| TileSelector.self := TileSelector.self l;
               TileSelector.stdout :=
                 TileSelector.stdout l ++ [MissingFileWarning p] |}).
Proof.
  intros Hp. unfold TileSelector.load_one, Py.except_pygame,
    TileSelector.path_exists. rewrite Hp. reflexivity.
Qed.

Lemma load_one_undecodable fs T idx p l :
  fs p = Undecodable ->
  TileSelector.load_one fs T idx p l = (Raise (RuntimeError p), l).
Proof.
  intros Hp. unfold TileSelector.load_one, Py.except_pygame,
    TileSelector.path_exists, TileSelector.image_load, Py.bind.
  rewrite Hp. reflexivity.
Qed.

Lemma load_one_picture fs T idx p w h l :
  0 < T -> fs p = Picture w h ->
  let img := {| img_path := p; img_w := w; img_h := h |} in
  let tiles :=
    TileSelector.sheet_tiles img T (Z.of_N w / T) (Z.of_N h / T) in
  TileSelector.load_one fs T idx p l
  = (Ok tt,
     {| TileSelector.self :=
          {| TileSelector.tile_size :=
               TileSelector.tile_size (TileSelector.self l);
             TileSelector.tileset_images :=
               TileSelector.tileset_images (TileSelector.self l) ++ [tiles];
             TileSelector.tileset_names :=
               TileSelector.tileset_names (TileSelector.self l)
               ++ [basename p] |};
        TileSelector.stdout :=
          TileSelector.stdout l
          ++ [LoadSuccess idx p (Z.of_nat (length tiles))] |}).
Proof.
  intros HT Hp img tiles.
  unfold TileSelector.load_one, Py.except_pygame,
    TileSelector.path_exists, TileSelector.image_load, Py.bind.
  rewrite Hp. simpl.
  unfold Py.lift, floordiv. destruct (Z.eqb_spec T 0); [lia|].
  unfold TileSelector.slice. rewrite slice_loops_run by lia. reflexivity.
Qed.

Lemma warnings_snoc (out : list Msg) (m : Msg) :
  TileSelector.warnings (out ++ [m])
  = TileSelector.warnings out
    ++ match m with MissingFileWarning p => [p] | _ => [] end.
Proof.
  unfold TileSelector.warnings. rewrite flat_map_app. simpl.
  rewrite app_nil_r. reflexivity.
Qed.

Ltac use_loop_IH IH idxs Hlen Hall pat :=
  match goal with
  | |- context [forM_ _ _ ?l0] =>
      destruct (IH idxs l0 Hlen Hall) as pat
  end.

(** The loading loop on paths none of which is undecodable. *)
Lemma load_loop_decodable fs T :
  0 < T ->
  forall paths idxs l,
    length idxs = length paths ->
    Forall (fun p => fs p <> Undecodable) paths ->
    exists l',
      forM_ (combine idxs paths)
            (fun '(i, p) => TileSelector.load_one fs T i p) l = (Ok tt, l')
      /\ TileSelector.tile_size (TileSelector.self l')
         = TileSelector.tile_size (TileSelector.self l)
      /\ TileSelector.tileset_images (TileSelector.self l')
         = TileSelector.tileset_images (TileSelector.self l)
           ++ map (TileSelector.sliced T) (TileSelector.located_images fs paths)
      /\ TileSelector.tileset_names (TileSelector.self l')
         = TileSelector.tileset_names (TileSelector.self l)
           ++ map basename (List.filter (TileSelector.path_exists fs) paths)
      /\ TileSelector.warnings (TileSelector.stdout l')
         = TileSelector.warnings (TileSelector.stdout l)
           ++ List.filter (fun p => negb (TileSelector.path_exists fs p)) paths.
Proof.
  intros HT. induction paths as [|p paths IH]; intros idxs l Hlen Hall.
  - exists l. destruct idxs; simpl; rewrite !app_nil_r; auto.
  - destruct idxs as [|i idxs]; [discriminate|].
    apply Forall_cons in Hall as [Hp Hall].
    injection Hlen as Hlen.
    simpl. unfold Py.bind, TileSelector.path_exists.
    destruct (fs p) as [| |w h] eqn:Ep; [|congruence|].
    + rewrite load_one_missing by exact Ep.
      use_loop_IH IH idxs Hlen Hall ipattern:((l' & Hrun & Hts & Himg & Hnm & Hw)).
      exists l'. rewrite Hrun. simpl in *.
      rewrite warnings_snoc, <- app_assoc in Hw. auto.
    + rewrite (load_one_picture fs T i p w h) by assumption.
      use_loop_IH IH idxs Hlen Hall ipattern:((l' & Hrun & Hts & Himg & Hnm & Hw)).
      exists l'. rewrite Hrun. simpl in *.
      rewrite warnings_snoc, app_nil_r in Hw.
      rewrite <- app_assoc in Himg, Hnm. auto.
Qed.

(** The loading loop stops at the first undecodable path. *)
Lemma load_loop_undecodable fs T p post :
  0 < T -> fs p = Undecodable ->
  forall pre idxs l,
    length idxs = length (pre ++ p :: post) ->
    Forall (fun q => fs q <> Undecodable) pre ->
    exists l',
      forM_ (combine idxs (pre ++ p :: post))
            (fun '(i, q) => TileSelector.load_one fs T i q) l
      = (Raise (RuntimeError p), l')
      /\ TileSelector.warnings (TileSelector.stdout l')
         = TileSelector.warnings (TileSelector.stdout l)
           ++ List.filter (fun q => negb (TileSelector.path_exists fs q)) pre.
Proof.
  intros HT Hp. induction pre as [|q pre IH]; intros idxs l Hlen Hall.
  - destruct idxs as [|i idxs]; [discriminate|].
    exists l. simpl. unfold Py.bind.
    rewrite load_one_undecodable by exact Hp.
    rewrite app_nil_r. auto.
  - destruct idxs as [|i idxs]; [discriminate|].
    apply Forall_cons in Hall as [Hq Hall].
    injection Hlen as Hlen.
    simpl. unfold Py.bind, TileSelector.path_exists.
    destruct (fs q) as [| |w h] eqn:Eq; [|congruence|].
    + rewrite load_one_missing by exact Eq.
      use_loop_IH IH idxs Hlen Hall ipattern:((l' & Hrun & Hw)).
      exists l'. rewrite Hrun. simpl in *.
      rewrite warnings_snoc, <- app_assoc in Hw. auto.
    + rewrite (load_one_picture fs T i q w h) by assumption.
      use_loop_IH IH idxs Hlen Hall ipattern:((l' & Hrun & Hw)).
      exists l'. rewrite Hrun. simpl in *.
      rewrite warnings_snoc, app_nil_r in Hw. auto.
Qed.

Lemma enumerate_lengths {A} (l : list A) :
  length (range 0 (Z.of_nat (length l))) = length l.
Proof. rewrite range_length. lia. Qed.

Lemma located_images_length fs paths :
  Forall (fun p => fs p <> Undecodable) paths ->
  length (TileSelector.located_images fs paths)
  = length (List.filter (TileSelector.path_exists fs) paths).
Proof.
  induction 1 as [|p paths Hp _ IH]; [reflexivity|].
  simpl. unfold TileSelector.path_exists at 1.
  destruct (fs p); simpl; [exact IH|congruence|f_equal; exact IH].
Qed.

(** Construction succeeds when no located path is undecodable, and slices
    the located images in order. *)
Lemma init_decodable fs paths T out :
  0 < T ->
  Forall (fun p => fs p <> Undecodable) paths ->
  exists sel out',
    TileSelector.init fs paths T out = (Ok sel, out')
    /\ TileSelector.tile_size sel = T
    /\ TileSelector.tileset_images sel
       = map (TileSelector.sliced T) (TileSelector.located_images fs paths)
    /\ TileSelector.tileset_names sel
       = map basename (List.filter (TileSelector.path_exists fs) paths)
    /\ TileSelector.warnings out'
       = TileSelector.warnings out
         ++ List.filter (fun p => negb (TileSelector.path_exists fs p)) paths.
Proof.
  intros HT Hall. unfold TileSelector.init, TileSelector.init_loop,
    TileSelector.enumerate.
  edestruct (load_loop_decodable fs T HT paths) as (l' & Hrun & H1 & H2 & H3 & H4);
    [apply enumerate_lengths|exact Hall|].
  rewrite Hrun. exists (TileSelector.self l'), (TileSelector.stdout l').
  simpl in *. auto.
Qed.

(** C7: [get_tile] never raises; it answers [None] exactly when the sheet
    index is outside [0, sheetCount) or the tile index is outside
    [0, tileCount(sheet)), and the stored tile image for every pair in
    range. *)
Theorem get_tile_none_iff_out_of_range
        (sel : TileSelector.t) (sheet index : Z) :
  exists (r : option Tile) (n : Z),
    TileSelector.get_tile sel sheet index = Ok r
    /\ TileSelector.get_tile_count sel sheet = Ok n
    /\ (r = None <->
        ~ (0 <= sheet < TileSelector.get_tileset_count sel)
        \/ ~ (0 <= index < n))
    /\ (0 <= sheet < TileSelector.get_tileset_count sel ->
        0 <= index < n ->
        exists tiles tile,
          TileSelector.tileset_images sel !! Z.to_nat sheet = Some tiles
          /\ tiles !! Z.to_nat index = Some tile
          /\ r = Some tile).
Proof.
  unfold TileSelector.get_tile, TileSelector.get_tile_count,
    TileSelector.get_tileset_count.
  destruct (Z.leb_spec 0 sheet) as [Hs0|Hs0]; simpl.
  2:{ exists None, 0. repeat split; auto; try lia. }
  destruct (Z.ltb_spec sheet
              (Z.of_nat (length (TileSelector.tileset_images sel))))
    as [Hs1|Hs1]; simpl.
  2:{ exists None, 0. repeat split; auto; try lia. }
  destruct (py_get_total (TileSelector.tileset_images sel) sheet)
    as (tiles & Htl & Hget); [lia|].
  rewrite Hget.
  destruct (Z.leb_spec 0 index) as [Hi0|Hi0]; simpl.
  2:{ exists None, (Z.of_nat (length tiles)).
      repeat split; auto; try lia; try (right; lia). }
  destruct (Z.ltb_spec index (Z.of_nat (length tiles))) as [Hi1|Hi1]; simpl.
  2:{ exists None, (Z.of_nat (length tiles)).
      repeat split; auto; try lia; try (right; lia). }
  destruct (py_get_total tiles index) as (tile & Hti & Hgt); [lia|].
  rewrite Hgt. exists (Some tile), (Z.of_nat (length tiles)).
  repeat split; auto.
  - discriminate.
  - intros [H|H]; exfalso; apply H; lia.
  - intros _ _. exists tiles, tile. auto.
Qed.

(** C8: for a tile size T > 0, construction slices every located image of
    W x H pixels into (W/T)*(H/T) tiles in row-major order
    (index = row * sheetCols + col); one 480 x 48 image with T = 48 gives
    one sheet of ten tiles. *)
Theorem tiles_sliced_row_major
        (fs : FileSystem) (paths : list string) (T : Z) (out : list Msg) :
  0 < T ->
  Forall (fun p => fs p <> Undecodable) paths ->
  exists sel out',
    TileSelector.init fs paths T out = (Ok sel, out')
    /\ Forall2 (TileSelector.row_major T)
               (TileSelector.located_images fs paths)
               (TileSelector.tileset_images sel)
    /\ (forall p, paths = [p] -> fs p = Picture 480 48 -> T = 48 ->
        TileSelector.get_tileset_count sel = 1
        /\ TileSelector.get_tile_count sel 0 = Ok 10).
Proof.
  intros HT Hall.
  destruct (init_decodable fs paths T out HT Hall)
    as (sel & out' & Hrun & _ & Himg & _ & _).
  exists sel, out'. split; [exact Hrun|]. split.
  - rewrite Himg. clear -HT.
    induction (TileSelector.located_images fs paths) as [|img imgs IH];
      simpl; constructor; auto.
    apply sheet_tiles_row_major. exact HT.
  - intros p -> Hp ->. unfold TileSelector.get_tileset_count,
      TileSelector.get_tile_count.
    rewrite Himg. simpl. rewrite Hp. simpl. split; reflexivity.
Qed.

Lemma get_tile_none_iff_out_of_range_witness :
  exists (r : option Tile) (n : Z),
    TileSelector.get_tile Fixtures.selector 0 10 = Ok r
    /\ TileSelector.get_tile_count Fixtures.selector 0 = Ok n
    /\ (r = None <->
        ~ (0 <= 0 < TileSelector.get_tileset_count Fixtures.selector)
        \/ ~ (0 <= 10 < n))
    /\ (0 <= 0 < TileSelector.get_tileset_count Fixtures.selector ->
        0 <= 10 < n ->
        exists tiles tile,
          TileSelector.tileset_images Fixtures.selector !! Z.to_nat 0
          = Some tiles
          /\ tiles !! Z.to_nat 10 = Some tile
          /\ r = Some tile).
Proof. exact (get_tile_none_iff_out_of_range Fixtures.selector 0 10). Defined.

Lemma tiles_sliced_row_major_witness :
  0 < 48
  /\ Forall (fun p => Fixtures.one_sheet p <> Undecodable)
            ["assets/tileset1.png"%string]
  /\ exists sel out',
      TileSelector.init Fixtures.one_sheet ["assets/tileset1.png"%string]
                        48 [] = (Ok sel, out')
      /\ Forall2 (TileSelector.row_major 48)
                 (TileSelector.located_images Fixtures.one_sheet
                    ["assets/tileset1.png"%string])
                 (TileSelector.tileset_images sel)
      /\ (forall p, ["assets/tileset1.png"%string] = [p] ->
                    Fixtures.one_sheet p = Picture 480 48 -> 48 = 48 ->
          TileSelector.get_tileset_count sel = 1
          /\ TileSelector.get_tile_count sel 0 = Ok 10).
Proof.
  assert (H0 : 0 < 48) by lia.
  assert (H1 : Forall (fun p => Fixtures.one_sheet p <> Undecodable)
                      ["assets/tileset1.png"%string])
    by (repeat constructor; vm_compute; discriminate).
  split; [exact H0|]. split; [exact H1|].
  exact (tiles_sliced_row_major Fixtures.one_sheet
           ["assets/tileset1.png"%string] 48 [] H0 H1).
Defined.

(** C9: with a tile size T > 0, a path that cannot be located is skipped
    with one warning and loading goes on (the construction succeeds with one
    sheet per located path, possibly none), whereas the first located path
    that cannot be decoded aborts the construction with a [RuntimeError]
    naming it, which reaches the caller. *)
Theorem missing_skipped_undecodable_fatal
        (fs : FileSystem) (paths : list string) (T : Z) (out : list Msg) :
  0 < T ->
  (Forall (fun p => fs p <> Undecodable) paths ->
   exists sel out',
     TileSelector.init fs paths T out = (Ok sel, out')
     /\ length (TileSelector.tileset_images sel)
        = length (List.filter (TileSelector.path_exists fs) paths)
     /\ TileSelector.tileset_names sel
        = map basename (List.filter (TileSelector.path_exists fs) paths)
     /\ TileSelector.warnings out'
        = TileSelector.warnings out
          ++ List.filter (fun p => negb (TileSelector.path_exists fs p)) paths)
  /\ (forall pre p post,
        paths = pre ++ p :: post ->
        Forall (fun q => fs q <> Undecodable) pre ->
        fs p = Undecodable ->
        exists out',
          TileSelector.init fs paths T out = (Raise (RuntimeError p), out')
          /\ TileSelector.warnings out'
             = TileSelector.warnings out
               ++ List.filter
                    (fun q => negb (TileSelector.path_exists fs q)) pre).
Proof.
  intros HT. split.
  - intros Hall.
    destruct (init_decodable fs paths T out HT Hall)
      as (sel & out' & Hrun & _ & Himg & Hnm & Hw).
    exists sel, out'. repeat split; auto.
    rewrite Himg, length_map. apply located_images_length. exact Hall.
  - intros pre p post -> Hpre Hp.
    unfold TileSelector.init, TileSelector.init_loop, TileSelector.enumerate.
    match goal with
    | |- context [forM_ (combine ?idxs _) _ ?l0] =>
        destruct (load_loop_undecodable fs T p post HT Hp pre idxs l0)
          as (l' & Hrun & Hw)
    end; [apply enumerate_lengths|exact Hpre|].
    rewrite Hrun. exists (TileSelector.stdout l'). split; [reflexivity|].
    exact Hw.
Qed.

Lemma missing_skipped_undecodable_fatal_witness :
  0 < 48
  /\ (exists sel out',
        TileSelector.init Fixtures.one_sheet
          ["assets/tileset1.png"; "assets/tileset2.png"]%string 48 []
        = (Ok sel, out')
        /\ length (TileSelector.tileset_images sel) = 1%nat
        /\ TileSelector.warnings out' = ["assets/tileset2.png"%string])
  /\ (exists out',
        TileSelector.init Fixtures.damaged_sheet
          ["assets/tileset1.png"; "assets/tileset2.png"]%string 48 []
        = (Raise (RuntimeError "assets/tileset2.png"), out')).
Proof.
  assert (H0 : 0 < 48) by lia.
  split; [exact H0|]. split.
  - destruct (proj1 (missing_skipped_undecodable_fatal Fixtures.one_sheet
                 ["assets/tileset1.png"; "assets/tileset2.png"]%string
                 48 [] H0))
      as (sel & out' & Hrun & Hlen & _ & Hw).
    + repeat constructor; vm_compute; discriminate.
    + exists sel, out'. split; [exact Hrun|]. split; [exact Hlen|exact Hw].
  - destruct (proj2 (missing_skipped_undecodable_fatal Fixtures.damaged_sheet
                 ["assets/tileset1.png"; "assets/tileset2.png"]%string
                 48 [] H0)
                ["assets/tileset1.png"%string] "assets/tileset2.png"%string []
                eq_refl)
      as (out' & Hrun & _).
    + repeat constructor; vm_compute; discriminate.
    + reflexivity.
    + exists out'. exact Hrun.
Defined.

(** ** Loops as traversals of lists *)

Section Loops.
Context {S A : Type}.

Lemma forM_ext (xs : list A) (body1 body2 : A -> M S unit) (s : S) :
  (forall x s', body1 x s' = body2 x s') ->
  forM_ xs body1 s = forM_ xs body2 s.
Proof.
  intros Hb. revert s. induction xs as [|x xs IH]; intros s; simpl.
  - reflexivity.
  - unfold Py.bind. rewrite Hb.
    destruct (body2 x s) as [[[]|e|] s']; auto.
Qed.

Lemma forM_app (xs ys : list A) (body : A -> M S unit) (s : S) :
  forM_ (xs ++ ys) body s = (forM_ xs body ;;; forM_ ys body) s.
Proof.
  revert s. induction xs as [|x xs IH]; intros s; simpl.
  - reflexivity.
  - unfold Py.bind in *.
    destruct (body x s) as [[[]|e|] s']; auto.
Qed.

Lemma forM_map {B} (f : B -> A) (xs : list B) (body : A -> M S unit) (s : S) :
  forM_ (map f xs) body s = forM_ xs (fun x => body (f x)) s.
Proof.
  revert s. induction xs as [|x xs IH]; intros s; simpl.
  - reflexivity.
  - unfold Py.bind.
    destruct (body (f x) s) as [[[]|e|] s']; auto.
Qed.

Lemma forM_flat_map {B} (g : B -> list A) (xs : list B)
      (body : A -> M S unit) (s : S) :
  forM_ (flat_map g xs) body s = forM_ xs (fun x => forM_ (g x) body) s.
Proof.
  revert s. induction xs as [|x xs IH]; intros s; simpl.
  - reflexivity.
  - rewrite forM_app. unfold Py.bind.
    destruct (forM_ (g x) body s) as [[[]|e|] s']; auto.
Qed.

End Loops.

Lemma descending_cons (a b : Z) :
  b < a ->
  map (fun k => a - k) (range 0 (a - b))
  = a :: map (fun k => a - 1 - k) (range 0 (a - 1 - b)).
Proof.
  intros H. rewrite (range_cons 0) by lia. simpl. f_equal; [lia|].
  apply list_eq. intros i. rewrite !map_lookup.
  destruct (decide (Z.of_nat i < a - 1 - b)) as [Hi|Hi].
  - rewrite !range_lookup by lia. simpl. f_equal. lia.
  - unfold range. rewrite !lookup_seqZ_ge by lia. reflexivity.
Qed.

(** The [while] loops of the corridor always leave through their test: with
    at least [steps a b] units of fuel the loop visits the values from [a]
    toward [b] and stops. *)
Lemma while_ne_up {S} (body : Z -> M S unit) (b : Z) :
  forall (fuel : nat) (a : Z) (s : S),
    a <= b -> (Z.to_nat (b - a) <= fuel)%nat ->
    while_ne fuel a b 1 body s = forM_ (range a b) body s.
Proof.
  induction fuel as [|fuel IH]; intros a s Hab Hf.
  - assert (a = b) as -> by lia. simpl.
    rewrite Z.eqb_refl, range_empty by lia. reflexivity.
  - simpl. destruct (Z.eqb_spec a b) as [->|Hne].
    + rewrite range_empty by lia. reflexivity.
    + rewrite range_cons by lia. simpl. unfold Py.bind.
      destruct (body a s) as [[[]|e|] s']; auto.
      apply IH; lia.
Qed.

Lemma while_ne_down {S} (body : Z -> M S unit) (b : Z) :
  forall (fuel : nat) (a : Z) (s : S),
    b <= a -> (Z.to_nat (a - b) <= fuel)%nat ->
    while_ne fuel a b (-1) body s
    = forM_ (map (fun k => a - k) (range 0 (a - b))) body s.
Proof.
  induction fuel as [|fuel IH]; intros a s Hab Hf.
  - assert (a = b) as -> by lia. simpl.
    rewrite Z.eqb_refl, range_empty by lia. reflexivity.
  - simpl. destruct (Z.eqb_spec a b) as [->|Hne].
    + rewrite range_empty by lia. reflexivity.
    + rewrite descending_cons by lia. simpl. unfold Py.bind.
      destruct (body a s) as [[[]|e|] s']; auto.
      replace (a + -1) with (a - 1) by lia.
      apply IH; lia.
Qed.

Lemma while_ne_toward {S} (body : Z -> M S unit) (fuel : nat) (a b : Z) (s : S) :
  (MapGenerator.steps a b <= fuel)%nat ->
  while_ne fuel a b (if a <? b then 1 else -1) body s
  = forM_ (MapGenerator.toward a b) body s.
Proof.
  unfold MapGenerator.steps, MapGenerator.toward. intros Hf.
  destruct (Z.ltb_spec a b).
  - apply while_ne_up; lia.
  - apply while_ne_down; lia.
Qed.

Lemma toward_elem (a b x : Z) :
  x ∈ MapGenerator.toward a b <-> (a <= x < b \/ b < x <= a).
Proof.
  unfold MapGenerator.toward. destruct (Z.ltb_spec a b).
  - rewrite range_elem. lia.
  - rewrite list_elem_of_In, in_map_iff. split.
    + intros (k & <- & Hk). rewrite <- list_elem_of_In, range_elem in Hk. lia.
    + intros Hx. exists (a - x). split; [lia|].
      rewrite <- list_elem_of_In, range_elem. lia.
Qed.

(** ** Cells of the grid *)

Import MapGenerator.

Lemma in_bounds_spec (s : t) (x y : Z) :
  in_bounds s x y = true <-> (0 <= x < width s /\ 0 <= y < height s).
Proof.
  unfold in_bounds. rewrite !andb_true_iff, !Z.leb_le, !Z.ltb_lt. lia.
Qed.

Lemma in_bounds_false (s : t) (x y : Z) :
  in_bounds s x y = false <-> ~ (0 <= x < width s /\ 0 <= y < height s).
Proof.
  rewrite <- in_bounds_spec. destruct (in_bounds s x y); split; congruence.
Qed.

Lemma alter_as_insert {A} (f : A -> A) (l : list A) (i : nat) (a : A) :
  l !! i = Some a -> <[i := f a]> l = alter f i l.
Proof.
  revert i. induction l as [|b l IH]; intros [|i] H; simpl in *;
    try discriminate.
  - injection H as ->. reflexivity.
  - f_equal. apply IH. exact H.
Qed.

Lemma dims_column (s : t) (x : Z) :
  dims_ok s -> 0 <= x < width s ->
  exists column, tilemap s !! Z.to_nat x = Some column
                 /\ Z.of_nat (length column) = height s.
Proof.
  intros [Hw Hh] Hx.
  destruct (lookup_lt_is_Some_2 (tilemap s) (Z.to_nat x)) as [c Hc]; [lia|].
  exists c. split; [exact Hc|].
  exact (Forall_lookup_1 _ _ _ _ Hh Hc).
Qed.

Lemma store_in_bounds (s : t) (x y v : Z) :
  dims_ok s -> in_bounds s x y = true ->
  store x y v s = (Ok tt, put s x y v).
Proof.
  intros Hd Hb. apply in_bounds_spec in Hb as [Hx Hy].
  destruct (dims_column s x Hd Hx) as (c & Hc & Hlen).
  unfold store, put. rewrite py_index_nonneg by (destruct Hd; lia).
  rewrite Hc. unfold py_set. rewrite py_index_nonneg by lia.
  rewrite (alter_as_insert _ _ _ c) by exact Hc. reflexivity.
Qed.

Lemma load_in_bounds (s : t) (x y : Z) :
  dims_ok s -> in_bounds s x y = true -> load s x y = Ok (peek s x y).
Proof.
  intros Hd Hb. apply in_bounds_spec in Hb as [Hx Hy].
  destruct (dims_column s x Hd Hx) as (c & Hc & Hlen).
  destruct (lookup_lt_is_Some_2 c (Z.to_nat y)) as [v Hv]; [lia|].
  unfold load, peek. rewrite (py_get_nonneg _ _ c) by (lia || exact Hc).
  rewrite Hc, Hv. apply py_get_nonneg; [lia|exact Hv].
Qed.

Lemma dims_ok_put (s : t) (x y v : Z) : dims_ok s -> dims_ok (put s x y v).
Proof.
  intros [Hw Hh]. split; simpl.
  - rewrite length_alter. exact Hw.
  - apply Forall_alter; [exact Hh|].
    intros c _ Hc. rewrite length_insert. exact Hc.
Qed.

Lemma cells_ok_put (s : t) (x y v : Z) :
  v = 0 \/ v = 1 -> cells_ok s -> cells_ok (put s x y v).
Proof.
  intros Hv Hc. unfold cells_ok, put. simpl.
  apply Forall_alter; [exact Hc|].
  intros c _ Hcc. apply Forall_insert; assumption.
Qed.

Lemma peek_put (s : t) (x y v x' y' : Z) :
  dims_ok s -> in_bounds s x y = true -> 0 <= x' -> 0 <= y' ->
  peek (put s x y v) x' y'
  = if (x =? x') && (y =? y') then v else peek s x' y'.
Proof.
  intros Hd Hb Hx' Hy'. apply in_bounds_spec in Hb as [Hx Hy].
  destruct (dims_column s x Hd Hx) as (c & Hc & Hlen).
  unfold peek, put. simpl.
  destruct (Z.eqb_spec x x') as [<-|Hne]; simpl.
  - rewrite list_lookup_alter_eq, Hc. simpl.
    destruct (Z.eqb_spec y y') as [<-|Hney].
    + rewrite list_lookup_insert_eq by lia. reflexivity.
    + rewrite list_lookup_insert_ne by lia. reflexivity.
  - rewrite list_lookup_alter_ne by lia. reflexivity.
Qed.

(** *** Filling a list of cells *)

Lemma fill_cons (v : Z) (c : Z * Z) (cells : list (Z * Z)) (s : t) :
  fill v (c :: cells) s = fill v cells (fill_cell v s c).
Proof. reflexivity. Qed.

Lemma fill_app (v : Z) (cs1 cs2 : list (Z * Z)) (s : t) :
  fill v (cs1 ++ cs2) s = fill v cs2 (fill v cs1 s).
Proof. unfold fill. apply fold_left_app. Qed.

Lemma frame_fill_cell (v : Z) (s : t) (c : Z * Z) :
  with_tilemap (fill_cell v s c) [] = with_tilemap s [].
Proof. unfold fill_cell. destruct (in_bounds s c.1 c.2); reflexivity. Qed.

Lemma frame_fill (v : Z) (cells : list (Z * Z)) (s : t) :
  with_tilemap (fill v cells s) [] = with_tilemap s [].
Proof.
  revert s. induction cells as [|c cells IH]; intros s; [reflexivity|].
  rewrite fill_cons, IH. apply frame_fill_cell.
Qed.

(** Two maps with the same frame agree on every field but the grid. *)
Lemma frame_fields (s s' : t) :
  with_tilemap s' [] = with_tilemap s [] ->
  width s' = width s /\ height s' = height s /\ rooms s' = rooms s
  /\ room_count s' = room_count s
  /\ room_min_size s' = room_min_size s
  /\ room_max_size s' = room_max_size s.
Proof.
  intros H.
  repeat split.
  - exact (f_equal width H).
  - exact (f_equal height H).
  - exact (f_equal rooms H).
  - exact (f_equal room_count H).
  - exact (f_equal room_min_size H).
  - exact (f_equal room_max_size H).
Qed.

Lemma in_bounds_frame (s s' : t) (x y : Z) :
  with_tilemap s' [] = with_tilemap s [] ->
  in_bounds s' x y = in_bounds s x y.
Proof.
  intros H. destruct (frame_fields s s' H) as (Hw & Hh & _).
  unfold in_bounds. rewrite Hw, Hh. reflexivity.
Qed.

Lemma dims_ok_fill_cell (v : Z) (s : t) (c : Z * Z) :
  dims_ok s -> dims_ok (fill_cell v s c).
Proof.
  unfold fill_cell. destruct (in_bounds s c.1 c.2); [|auto].
  apply dims_ok_put.
Qed.

Lemma dims_ok_fill (v : Z) (cells : list (Z * Z)) (s : t) :
  dims_ok s -> dims_ok (fill v cells s).
Proof.
  revert s. induction cells as [|c cells IH]; intros s Hd; [exact Hd|].
  rewrite fill_cons. apply IH, dims_ok_fill_cell, Hd.
Qed.

Lemma cells_ok_fill (v : Z) (cells : list (Z * Z)) (s : t) :
  v = 0 \/ v = 1 -> cells_ok s -> cells_ok (fill v cells s).
Proof.
  intros Hv. revert s. induction cells as [|c cells IH]; intros s Hc;
    [exact Hc|].
  rewrite fill_cons. apply IH. unfold fill_cell.
  destruct (in_bounds s c.1 c.2); [|exact Hc].
  apply cells_ok_put; assumption.
Qed.

Lemma peek_fill_cell (v : Z) (s : t) (c : Z * Z) (x y : Z) :
  dims_ok s -> 0 <= x -> 0 <= y ->
  peek (fill_cell v s c) x y
  = if bool_decide (c = (x, y)) && in_bounds s x y then v else peek s x y.
Proof.
  intros Hd Hx Hy. destruct c as [cx cy]. unfold fill_cell. simpl.
  destruct (in_bounds s cx cy) eqn:Hb.
  - rewrite peek_put by assumption.
    destruct (Z.eqb_spec cx x) as [->|Hne]; simpl.
    + destruct (Z.eqb_spec cy y) as [->|Hney].
      * rewrite bool_decide_eq_true_2 by reflexivity. rewrite Hb. reflexivity.
      * rewrite bool_decide_eq_false_2 by congruence. reflexivity.
    + rewrite bool_decide_eq_false_2 by congruence. reflexivity.
  - destruct (bool_decide_reflect ((cx, cy) = (x, y))) as [E|_];
      [|reflexivity].
    injection E as -> ->. rewrite Hb. reflexivity.
Qed.

(** The cell of non-negative coordinates after a fill: the new value when
    the cell is in the list and in bounds, else its old value. *)
Lemma peek_fill (v : Z) (cells : list (Z * Z)) (s : t) (x y : Z) :
  dims_ok s -> 0 <= x -> 0 <= y ->
  peek (fill v cells s) x y
  = if bool_decide ((x, y) ∈ cells) && in_bounds s x y
    then v else peek s x y.
Proof.
  intros Hd Hx Hy. revert s Hd.
  induction cells as [|c cells IH]; intros s Hd.
  - reflexivity.
  - rewrite fill_cons, IH by (apply dims_ok_fill_cell; exact Hd).
    rewrite (in_bounds_frame s) by apply frame_fill_cell.
    rewrite peek_fill_cell by assumption.
    destruct (in_bounds s x y); rewrite ?andb_false_r; [|reflexivity].
    rewrite !andb_true_r.
    destruct (bool_decide_reflect ((x, y) ∈ cells)) as [Hin|Hin].
    + rewrite bool_decide_eq_true_2 by (right; exact Hin). reflexivity.
    + destruct (bool_decide_reflect (c = (x, y))) as [->|Hc].
      * rewrite bool_decide_eq_true_2 by left. reflexivity.
      * rewrite bool_decide_eq_false_2; [reflexivity|].
        rewrite elem_of_cons. intros [E|E]; [congruence|contradiction].
Qed.

Lemma peek_carve_in (cells : list (Z * Z)) (s : t) (x y : Z) :
  dims_ok s -> in_bounds s x y = true -> (x, y) ∈ cells ->
  peek (carve cells s) x y = 1.
Proof.
  intros Hd Hb Hin. pose proof (proj1 (in_bounds_spec s x y) Hb).
  unfold carve. rewrite peek_fill by (assumption || lia).
  rewrite bool_decide_eq_true_2, Hb by exact Hin. reflexivity.
Qed.

Lemma peek_carve_keep (cells : list (Z * Z)) (s : t) (x y : Z) :
  dims_ok s -> 0 <= x -> 0 <= y -> peek s x y = 1 ->
  peek (carve cells s) x y = 1.
Proof.
  intros Hd Hx Hy H1. unfold carve. rewrite peek_fill by assumption.
  destruct (_ && _); [reflexivity|exact H1].
Qed.

(** ** The carving methods *)

Lemma carve_cell_run (x y : Z) (s : t) :
  dims_ok s -> carve_cell x y s = (Ok tt, fill_cell 1 s (x, y)).
Proof.
  intros Hd. unfold carve_cell, fill_cell, Py.bind, Py.get, Py.ret. simpl.
  destruct (in_bounds s x y) eqn:Hb; [|reflexivity].
  apply store_in_bounds; assumption.
Qed.

Lemma carve_cells_run (cells : list (Z * Z)) (s : t) :
  dims_ok s ->
  forM_ cells (fun c => carve_cell (fst c) (snd c)) s
  = (Ok tt, carve cells s).
Proof.
  intros Hd.
  apply (forM_fold dims_ok (fill_cell 1) cells); [|exact Hd].
  intros [x y] s' _ Hd'. split.
  - apply carve_cell_run. exact Hd'.
  - apply dims_ok_fill_cell. exact Hd'.
Qed.

(** [create_room] is the traversal of the cells of the rectangle. *)
Lemma create_room_traversal (room : Rect) (s : t) :
  create_room room s
  = forM_ (rect_cells room) (fun c => carve_cell (fst c) (snd c)) s.
Proof.
  unfold create_room, rect_cells. rewrite forM_flat_map.
  apply forM_ext. intros x s'. rewrite forM_map. reflexivity.
Qed.

(** [create_corridor] is the traversal of the cells of the L-walk: none of
    its two loops runs out of fuel. *)
Lemma create_corridor_traversal (start end_ : Z * Z) (s : t) :
  create_corridor start end_ s
  = forM_ (l_walk start end_) (fun c => carve_cell (fst c) (snd c)) s.
Proof.
  destruct start as [x1 y1], end_ as [x2 y2].
  unfold create_corridor, l_walk. simpl.
  rewrite forM_app. unfold Py.bind.
  rewrite while_ne_toward by reflexivity. rewrite forM_map. simpl.
  destruct (forM_ (toward x1 x2) _ s) as [[[]|e|] s']; auto.
  rewrite while_ne_toward by reflexivity. rewrite forM_map. reflexivity.
Qed.

Lemma create_room_run (room : Rect) (s : t) :
  dims_ok s -> create_room room s = (Ok tt, carve (rect_cells room) s).
Proof.
  intros Hd. rewrite create_room_traversal. apply carve_cells_run, Hd.
Qed.

Lemma create_corridor_run (start end_ : Z * Z) (s : t) :
  dims_ok s ->
  create_corridor start end_ s = (Ok tt, carve (l_walk start end_) s).
Proof.
  intros Hd. rewrite create_corridor_traversal. apply carve_cells_run, Hd.
Qed.

Lemma rect_cells_elem (r : Rect) (x y : Z) :
  (x, y) ∈ rect_cells r
  <-> (left r <= x < right r /\ top r <= y < bottom r).
Proof.
  unfold rect_cells. rewrite list_elem_of_In, in_flat_map. split.
  - intros (x' & Hx' & Hy'). apply in_map_iff in Hy' as (y' & E & Hy').
    injection E as -> ->.
    rewrite <- list_elem_of_In, range_elem in Hx', Hy'. lia.
  - intros [Hx Hy]. exists x. split.
    + rewrite <- list_elem_of_In, range_elem. lia.
    + apply in_map_iff. exists y. split; [reflexivity|].
      rewrite <- list_elem_of_In, range_elem. lia.
Qed.

Lemma l_walk_elem (start end_ : Z * Z) (x y : Z) :
  (x, y) ∈ l_walk start end_
  <-> (y = snd start /\ x ∈ toward (fst start) (fst end_))
      \/ (x = fst end_ /\ y ∈ toward (snd start) (snd end_)).
Proof.
  unfold l_walk. rewrite elem_of_app, !list_elem_of_In, !in_map_iff.
  split.
  - intros [(x' & E & H)|(y' & E & H)]; injection E as -> ->; auto.
  - intros [[-> H]|[-> H]]; [left; exists x|right; exists y]; auto.
Qed.

(** The reset at the start of [generate]. *)
Lemma reset_grid_run (s : t) :
  dims_ok s ->
  reset_grid s
  = (Ok tt, fill 0 (rect_cells {| rect_x := 0; rect_y := 0;
                                  rect_w := width s; rect_h := height s |}) s).
Proof.
  intros Hd. unfold reset_grid, Py.bind, Py.get, rect_cells, left, right,
    top, bottom. simpl.
  set (W := width s). set (H := height s).
  assert (HW : width s = W) by reflexivity.
  assert (HH : height s = H) by reflexivity.
  clearbody W H.
  transitivity (forM_ (flat_map (fun x => map (fun y => (x, y)) (range 0 (0 + H)))
                                (range 0 (0 + W)))
                      (fun c => store (fst c) (snd c) 0) s).
  { rewrite forM_flat_map, !Z.add_0_l. apply forM_ext. intros x s'.
    rewrite forM_map. reflexivity. }
  apply (forM_fold
           (fun s' => dims_ok s' /\ width s' = W /\ height s' = H)
           (fill_cell 0)); [|auto].
  intros [x y] s' Hin (Hd' & HW' & HH').
  apply list_elem_of_In, in_flat_map in Hin as (x' & Hx' & Hy').
  apply in_map_iff in Hy' as (y' & E & Hy'). injection E as -> ->.
  rewrite <- list_elem_of_In, range_elem in Hx', Hy'.
  assert (Hb : in_bounds s' x y = true) by (apply in_bounds_spec; simpl; lia).
  unfold fill_cell. simpl. rewrite Hb.
  split; [apply store_in_bounds; assumption|].
  split; [apply dims_ok_put; assumption|auto].
Qed.

(** ** Generation *)

Lemma frame_add_room (s : t) (room : Rect) :
  with_tilemap (add_room s room) []
  = with_tilemap (with_rooms s (rooms s ++ [room])) [].
Proof.
  unfold add_room, carve. destruct (last (rooms s)).
  - rewrite !frame_fill. reflexivity.
  - rewrite frame_fill. reflexivity.
Qed.

Lemma add_room_fields (s : t) (room : Rect) :
  width (add_room s room) = width s
  /\ height (add_room s room) = height s
  /\ rooms (add_room s room) = rooms s ++ [room]
  /\ room_count (add_room s room) = room_count s
  /\ room_min_size (add_room s room) = room_min_size s
  /\ room_max_size (add_room s room) = room_max_size s.
Proof. exact (frame_fields _ _ (frame_add_room s room)). Qed.

Lemma dims_ok_with_rooms (s : t) (rs : list Rect) :
  dims_ok s -> dims_ok (with_rooms s rs).
Proof. intros H. exact H. Qed.

Lemma dims_ok_add_room (s : t) (room : Rect) :
  dims_ok s -> dims_ok (add_room s room).
Proof.
  intros Hd. unfold add_room, carve.
  destruct (last (rooms s)); repeat apply dims_ok_fill; exact Hd.
Qed.

Lemma cells_ok_add_room (s : t) (room : Rect) :
  cells_ok s -> cells_ok (add_room s room).
Proof.
  intros Hc. unfold add_room, carve.
  destruct (last (rooms s)); repeat apply cells_ok_fill; auto.
Qed.

Lemma placeable_spec (s : t) (g : Random) :
  placeable s g = true <->
  room_min_size s <= room_max_size s
  /\ 1 <= width s - rect_w (drawn_room s g) - 1
  /\ 1 <= height s - rect_h (drawn_room s g) - 1.
Proof.
  unfold placeable, drawn_room. simpl.
  rewrite !andb_true_iff, !Z.leb_le. tauto.
Qed.

Lemma bind_ok {S A B} (m : M S A) (k : A -> M S B) (s s' : S) (a : A) :
  m s = (Ok a, s') -> Py.bind m k s = k a s'.
Proof. intros H. unfold Py.bind. rewrite H. reflexivity. Qed.

Lemma bind_raise {S A B} (m : M S A) (k : A -> M S B) (s s' : S) (e : exn) :
  m s = (Raise e, s') -> Py.bind m k s = (Raise e, s').
Proof. intros H. unfold Py.bind. rewrite H. reflexivity. Qed.

Lemma on_random_randint (s : t) (g g0 : Random) (k : nat) (a b : Z) :
  g0 = skip k g -> a <= b ->
  on_random (randint a b) {| gen := s; random := g0 |}
  = (Ok (pick a b g k), {| gen := s; random := skip (Datatypes.S k) g |}).
Proof.
  intros -> Hab. unfold on_random, Py.zoom, randint. simpl.
  destruct (Z.ltb_spec b a); [lia|]. reflexivity.
Qed.

Lemma on_random_randint_empty (s : t) (g0 : Random) (a b : Z) :
  b < a ->
  on_random (randint a b) {| gen := s; random := g0 |}
  = (Raise ValueError, {| gen := s; random := g0 |}).
Proof.
  intros Hab. unfold on_random, Py.zoom, randint. simpl.
  destruct (Z.ltb_spec b a); [|lia]. reflexivity.
Qed.

Lemma on_gen_run {A} (m : M t A) (s s' : t) (g : Random) (r : res A) :
  m s = (r, s') ->
  on_gen m {| gen := s; random := g |} = (r, {| gen := s'; random := g |}).
Proof. intros H. unfold on_gen, Py.zoom. simpl. rewrite H. reflexivity. Qed.

Lemma skip_0 (g : Random) : g = skip 0 g.
Proof. destruct g. reflexivity. Qed.

Tactic Notation "bind_step" tactic(tac) :=
  erewrite bind_ok by tac; cbv beta; cbn [gen random].

(** One iteration of the room loop when the four ranges are non-empty. *)
Lemma generate_room_placeable (i : Z) (s : t) (g : Random) :
  dims_ok s -> Z.of_nat (length (rooms s)) = i ->
  placeable s g = true ->
  generate_room i {| gen := s; random := g |}
  = (Ok tt, {| gen := add_room s (drawn_room s g); random := skip 4 g |}).
Proof.
  intros Hd Hlen Hp. apply placeable_spec in Hp as (Hmm & Hw & Hh).
  unfold drawn_room in *. simpl in Hw, Hh.
  set (w := pick (room_min_size s) (room_max_size s) g 0) in *.
  set (h := pick (room_min_size s) (room_max_size s) g 1) in *.
  set (room := {| rect_x := pick 1 (width s - w - 1) g 2;
                  rect_y := pick 1 (height s - h - 1) g 3;
                  rect_w := w; rect_h := h |}).
  unfold generate_room.
  bind_step reflexivity.
  bind_step (apply (on_random_randint s g g 0); [apply skip_0|lia]).
  bind_step (apply (on_random_randint s g _ 1); [reflexivity|lia]).
  bind_step (apply (on_random_randint s g _ 2); [reflexivity|fold w; lia]).
  bind_step (apply (on_random_randint s g _ 3); [reflexivity|fold h; lia]).
  fold w h room.
  bind_step (apply on_gen_run; reflexivity).
  bind_step (apply on_gen_run, create_room_run, dims_ok_with_rooms, Hd).
  assert (Hrooms : rooms (carve (rect_cells room)
                                (with_rooms s (rooms s ++ [room])))
                   = rooms s ++ [room]).
  { unfold carve.
    exact (f_equal rooms (frame_fill 1 (rect_cells room)
                            (with_rooms s (rooms s ++ [room])))). }
  unfold add_room.
  destruct (Z.ltb_spec 0 i) as [Hi|Hi].
  - destruct (lookup_lt_is_Some_2 (rooms s) (Z.to_nat (i - 1)))
      as [prev Hprev]; [lia|].
    assert (Hlast : last (rooms s) = Some prev).
    { rewrite last_lookup. rewrite <- Hprev. f_equal. lia. }
    rewrite Hlast.
    erewrite bind_ok; cbv beta.
    2:{ apply on_gen_run. unfold rooms_get. rewrite Hrooms.
        rewrite (py_get_nonneg _ _ prev);
          [reflexivity|lia|apply lookup_app_l_Some; exact Hprev]. }
    apply on_gen_run, create_corridor_run, dims_ok_fill, dims_ok_with_rooms, Hd.
  - assert (Hnil : rooms s = [])
      by (destruct (rooms s); simpl in *; [auto|lia]).
    rewrite Hnil. reflexivity.
Qed.

(** One iteration when some range is empty: the draw raises [ValueError]
    and the map is as it was before the iteration. *)
Lemma generate_room_unplaceable (i : Z) (s : t) (g : Random) :
  placeable s g = false ->
  exists g',
    generate_room i {| gen := s; random := g |}
    = (Raise ValueError, {| gen := s; random := g' |}).
Proof.
  intros Hp.
  assert (Hn : ~ (room_min_size s <= room_max_size s
                  /\ 1 <= width s - rect_w (drawn_room s g) - 1
                  /\ 1 <= height s - rect_h (drawn_room s g) - 1)).
  { rewrite <- placeable_spec, Hp. discriminate. }
  unfold drawn_room in Hn. simpl in Hn.
  set (w := pick (room_min_size s) (room_max_size s) g 0) in *.
  set (h := pick (room_min_size s) (room_max_size s) g 1) in *.
  unfold generate_room.
  bind_step reflexivity.
  destruct (Z.lt_ge_cases (room_max_size s) (room_min_size s)) as [Hm|Hm].
  { eexists. apply bind_raise, on_random_randint_empty, Hm. }
  bind_step (apply (on_random_randint s g g 0); [apply skip_0|lia]).
  bind_step (apply (on_random_randint s g _ 1); [reflexivity|lia]).
  fold w h.
  destruct (Z.lt_ge_cases (width s - w - 1) 1) as [Hx|Hx].
  { eexists. apply bind_raise, on_random_randint_empty, Hx. }
  bind_step (apply (on_random_randint s g _ 2); [reflexivity|lia]).
  eexists. apply bind_raise, on_random_randint_empty. lia.
Qed.

(** The room loop, from iteration [i] on, for [n] iterations. *)
Lemma rooms_loop_run (n : nat) :
  forall (i : Z) (s : t) (g : Random),
    dims_ok s -> Z.of_nat (length (rooms s)) = i ->
    exists g',
      forM_ (range i (i + Z.of_nat n)) generate_room
            {| gen := s; random := g |}
      = (if fst (build n s g) then Ok tt else Raise ValueError,
         {| gen := snd (build n s g); random := g' |}).
Proof.
  induction n as [|n IH]; intros i s g Hd Hlen.
  - exists g. rewrite range_empty by lia. reflexivity.
  - replace (i + Z.of_nat (Datatypes.S n)) with (i + 1 + Z.of_nat n) by lia.
    rewrite range_cons by lia. simpl. unfold Py.bind.
    destruct (placeable s g) eqn:Hp.
    + rewrite generate_room_placeable by assumption.
      apply IH.
      * apply dims_ok_add_room, Hd.
      * destruct (add_room_fields s (drawn_room s g)) as (_ & _ & -> & _).
        rewrite length_app. simpl. lia.
    + destruct (generate_room_unplaceable i s g Hp) as (g' & ->).
      exists g'. reflexivity.
Qed.

Lemma range_to_nat (c : Z) : range 0 c = range 0 (0 + Z.of_nat (Z.to_nat c)).
Proof.
  unfold range, seqZ. rewrite Z.sub_0_r.
  replace (Z.to_nat (0 + Z.of_nat (Z.to_nat c) - 0)) with (Z.to_nat c) by lia.
  reflexivity.
Qed.

(** [generate] clears the rooms, resets the grid and runs the room loop:
    it returns when every room of the loop could be placed and raises
    [ValueError] otherwise; either way the map is the one built so far. *)
Lemma generate_run (w : World) :
  dims_ok (gen w) ->
  let n := Z.to_nat (room_count (gen w)) in
  exists g',
    generate w
    = (if fst (build n (blank (gen w)) (random w))
       then Ok tt else Raise ValueError,
       {| gen := snd (build n (blank (gen w)) (random w)); random := g' |}).
Proof.
  intros Hd n. destruct w as [s g]. simpl in *.
  unfold generate, Py.bind, on_gen, Py.zoom, rooms_clear, Py.modify,
    Py.gets. simpl.
  rewrite reset_grid_run by exact Hd. simpl.
  fold (blank s).
  assert (Hb : with_tilemap (blank s) [] = with_tilemap (with_rooms s []) [])
    by apply frame_fill.
  destruct (frame_fields _ _ Hb) as (_ & _ & Hr & Hc & _). simpl in Hr, Hc.
  rewrite Hc, range_to_nat. fold n.
  apply rooms_loop_run.
  - apply dims_ok_fill. exact Hd.
  - rewrite Hr. reflexivity.
Qed.

(** ** The map built by the room loop *)

Lemma drawn_room_fields (s s' : t) (g : Random) :
  width s' = width s -> height s' = height s ->
  room_min_size s' = room_min_size s ->
  room_max_size s' = room_max_size s ->
  drawn_room s' g = drawn_room s g /\ placeable s' g = placeable s g.
Proof.
  intros Hw Hh Hmin Hmax. unfold drawn_room, placeable.
  rewrite Hw, Hh, Hmin, Hmax. auto.
Qed.

Lemma drawn_rooms_fields (n : nat) (s s' : t) :
  width s' = width s -> height s' = height s ->
  room_min_size s' = room_min_size s ->
  room_max_size s' = room_max_size s ->
  forall g, drawn_rooms n s' g = drawn_rooms n s g.
Proof.
  intros Hw Hh Hmin Hmax. induction n as [|n IH]; intros g; simpl.
  - reflexivity.
  - destruct (drawn_room_fields s s' g Hw Hh Hmin Hmax) as [-> ->].
    rewrite IH. reflexivity.
Qed.

Lemma build_fields (n : nat) :
  forall (s : t) (g : Random),
    width (snd (build n s g)) = width s
    /\ height (snd (build n s g)) = height s
    /\ room_count (snd (build n s g)) = room_count s
    /\ room_min_size (snd (build n s g)) = room_min_size s
    /\ room_max_size (snd (build n s g)) = room_max_size s
    /\ rooms (snd (build n s g)) = rooms s ++ drawn_rooms n s g.
Proof.
  induction n as [|n IH]; intros s g; simpl.
  - rewrite app_nil_r. repeat split.
  - destruct (placeable s g); simpl; [|rewrite app_nil_r; repeat split].
    destruct (add_room_fields s (drawn_room s g))
      as (Hw & Hh & Hr & Hc & Hmin & Hmax).
    destruct (IH (add_room s (drawn_room s g)) (skip 4 g))
      as (Hw' & Hh' & Hc' & Hmin' & Hmax' & Hr').
    rewrite Hw', Hh', Hc', Hmin', Hmax', Hr', Hw, Hh, Hc, Hmin, Hmax, Hr.
    rewrite (drawn_rooms_fields n s) by assumption.
    rewrite <- app_assoc. repeat split.
Qed.

Lemma build_dims_ok (n : nat) :
  forall (s : t) (g : Random), dims_ok s -> dims_ok (snd (build n s g)).
Proof.
  induction n as [|n IH]; intros s g Hd; simpl; [exact Hd|].
  destruct (placeable s g); [|exact Hd].
  apply IH, dims_ok_add_room, Hd.
Qed.

Lemma build_cells_ok (n : nat) :
  forall (s : t) (g : Random), cells_ok s -> cells_ok (snd (build n s g)).
Proof.
  induction n as [|n IH]; intros s g Hc; simpl; [exact Hc|].
  destruct (placeable s g); [|exact Hc].
  apply IH, cells_ok_add_room, Hc.
Qed.

(** The loop places every room, or stops short. *)
Lemma build_complete (n : nat) :
  forall (s : t) (g : Random),
    if fst (build n s g)
    then length (drawn_rooms n s g) = n
    else (length (drawn_rooms n s g) < n)%nat.
Proof.
  induction n as [|n IH]; intros s g; simpl; [reflexivity|].
  destruct (placeable s g) eqn:Hp; simpl; [|lia].
  destruct (add_room_fields s (drawn_room s g))
    as (Hw & Hh & _ & _ & Hmin & Hmax).
  specialize (IH (add_room s (drawn_room s g)) (skip 4 g)).
  rewrite (drawn_rooms_fields n s) in IH by assumption.
  destruct (fst (build n _ _)); lia.
Qed.

Lemma pick_range (a b : Z) (g : Random) (k : nat) :
  a <= b -> a <= pick a b g k <= b.
Proof.
  intros Hab. unfold pick.
  pose proof (Z.mod_pos_bound (tape g (k + drawn g)%nat) (b - a + 1)).
  lia.
Qed.

Lemma drawn_room_in_border (s : t) (g : Random) :
  placeable s g = true ->
  in_border s (drawn_room s g)
  /\ room_min_size s <= rect_w (drawn_room s g) <= room_max_size s
  /\ room_min_size s <= rect_h (drawn_room s g) <= room_max_size s.
Proof.
  intros Hp. apply placeable_spec in Hp as (Hmm & Hw & Hh).
  unfold in_border, drawn_room in *. simpl in *.
  pose proof (pick_range (room_min_size s) (room_max_size s) g 0 Hmm).
  pose proof (pick_range (room_min_size s) (room_max_size s) g 1 Hmm).
  pose proof (pick_range 1 _ g 2 Hw).
  pose proof (pick_range 1 _ g 3 Hh).
  lia.
Qed.

Lemma drawn_rooms_in_border (n : nat) (s : t) :
  forall g,
    Forall (fun r => in_border s r
                     /\ room_min_size s <= rect_w r <= room_max_size s
                     /\ room_min_size s <= rect_h r <= room_max_size s)
           (drawn_rooms n s g).
Proof.
  induction n as [|n IH]; intros g; simpl; [constructor|].
  destruct (placeable s g) eqn:Hp; constructor.
  - apply drawn_room_in_border, Hp.
  - apply IH.
Qed.

(** A grid that exceeds the largest room by the border always has room. *)
Lemma roomy_placeable (s : t) (g : Random) :
  room_min_size s <= room_max_size s ->
  1 <= width s - room_max_size s - 1 ->
  1 <= height s - room_max_size s - 1 ->
  placeable s g = true.
Proof.
  intros Hmm Hw Hh. apply placeable_spec. unfold drawn_room. simpl.
  pose proof (pick_range (room_min_size s) (room_max_size s) g 0 Hmm).
  pose proof (pick_range (room_min_size s) (room_max_size s) g 1 Hmm).
  lia.
Qed.

Lemma roomy_build (n : nat) :
  forall (s : t) (g : Random),
    room_min_size s <= room_max_size s ->
    1 <= width s - room_max_size s - 1 ->
    1 <= height s - room_max_size s - 1 ->
    fst (build n s g) = true.
Proof.
  induction n as [|n IH]; intros s g Hmm Hw Hh; simpl; [reflexivity|].
  rewrite roomy_placeable by assumption.
  destruct (add_room_fields s (drawn_room s g))
    as (Ew & Eh & _ & _ & Emin & Emax).
  apply IH; rewrite ?Ew, ?Eh, ?Emin, ?Emax; assumption.
Qed.


(** ** Rooms stay joined *)

Lemma half_bounds (w : Z) : 0 <= w -> 0 <= Z.quot w 2 <= w.
Proof.
  intros Hw. rewrite Z.quot_div_nonneg by lia.
  pose proof (Z.div_pos w 2 Hw). pose proof (Z.mul_div_le w 2). lia.
Qed.

Lemma center_in_bounds (s : t) (r : Rect) :
  in_border s r -> 0 <= rect_w r -> 0 <= rect_h r ->
  in_bounds s (fst (center r)) (snd (center r)) = true.
Proof.
  intros (Hx & Hy & Hr & Hb) Hw Hh. apply in_bounds_spec.
  unfold center. simpl.
  pose proof (half_bounds _ Hw). pose proof (half_bounds _ Hh). lia.
Qed.

(** A walk between two cells of the grid stays in the grid. *)
Lemma walk_in_bounds (s : t) (p q : Z * Z) (x y : Z) :
  in_bounds s (fst p) (snd p) = true ->
  in_bounds s (fst q) (snd q) = true ->
  (x, y) ∈ l_walk p q -> in_bounds s x y = true.
Proof.
  rewrite !in_bounds_spec, l_walk_elem, !toward_elem. lia.
Qed.

Lemma get_tile_at_peek (s : t) (x y : Z) :
  dims_ok s ->
  get_tile_at s x y = Ok (if in_bounds s x y then peek s x y else 0).
Proof.
  intros Hd. unfold get_tile_at.
  destruct (in_bounds s x y) eqn:Hb; [|reflexivity].
  apply load_in_bounds; assumption.
Qed.

Lemma peek_add_room_keep (s : t) (r : Rect) (x y : Z) :
  dims_ok s -> 0 <= x -> 0 <= y -> peek s x y = 1 ->
  peek (add_room s r) x y = 1.
Proof.
  intros Hd Hx Hy H1. unfold add_room.
  assert (H2 : peek (carve (rect_cells r) (with_rooms s (rooms s ++ [r])))
                    x y = 1)
    by (apply peek_carve_keep; assumption).
  destruct (last (rooms s)); [|exact H2].
  apply peek_carve_keep; [apply dims_ok_fill; exact Hd|lia|lia|exact H2].
Qed.

Lemma in_bounds_add_room (s : t) (r : Rect) (x y : Z) :
  in_bounds (add_room s r) x y = in_bounds s x y.
Proof.
  destruct (add_room_fields s r) as (Hw & Hh & _).
  unfold in_bounds. rewrite Hw, Hh. reflexivity.
Qed.

Lemma in_border_add_room (s : t) (r r' : Rect) :
  in_border (add_room s r) r' <-> in_border s r'.
Proof.
  destruct (add_room_fields s r) as (Hw & Hh & _).
  unfold in_border. rewrite Hw, Hh. reflexivity.
Qed.

Lemma tidy_add_room (s : t) (r : Rect) :
  tidy s -> in_border s r -> 0 <= rect_w r -> 0 <= rect_h r ->
  tidy (add_room s r).
Proof.
  intros (Hd & Hrs & Hcf) Hb Hw Hh.
  destruct (add_room_fields s r) as (_ & _ & Hrooms & _).
  split; [apply dims_ok_add_room, Hd|]. split.
  - rewrite Hrooms. apply Forall_app. split.
    + eapply Forall_impl; [exact Hrs|].
      intros r' (H1 & H2 & H3). rewrite in_border_add_room. auto.
    + constructor; [|constructor]. rewrite in_border_add_room. auto.
  - intros i a b Ha Hb' x y Hin. rewrite Hrooms in Ha, Hb'.
    rewrite in_bounds_add_room.
    destruct (decide (Datatypes.S i < length (rooms s))%nat) as [Hlt|Hge].
    + rewrite lookup_app_l in Ha, Hb' by lia.
      destruct (Hcf i a b Ha Hb' x y Hin) as [Hbd H1].
      split; [exact Hbd|].
      apply in_bounds_spec in Hbd.
      apply peek_add_room_keep; [exact Hd|lia|lia|exact H1].
    + assert (Hi : Datatypes.S i = length (rooms s)).
      { apply lookup_lt_Some in Hb'. rewrite length_app in Hb'.
        simpl in Hb'. lia. }
      rewrite lookup_app_l in Ha by lia.
      rewrite lookup_app_r in Hb' by lia.
      replace (Datatypes.S i - length (rooms s))%nat with O in Hb' by lia.
      injection Hb' as <-.
      assert (Hlast : last (rooms s) = Some a).
      { rewrite last_lookup, <- Ha. f_equal. lia. }
      assert (Ha_in : in_border s a /\ 0 <= rect_w a /\ 0 <= rect_h a)
        by exact (Forall_lookup_1 _ _ _ _ Hrs Ha).
      destruct Ha_in as (Ha1 & Ha2 & Ha3).
      assert (Hbd : in_bounds s x y = true).
      { apply (walk_in_bounds s (center a) (center r));
          [apply center_in_bounds; assumption
          |apply center_in_bounds; assumption|exact Hin]. }
      split; [exact Hbd|].
      unfold add_room. rewrite Hlast.
      apply peek_carve_in; [apply dims_ok_fill; exact Hd| |exact Hin].
      rewrite (in_bounds_frame (with_rooms s (rooms s ++ [r])))
        by apply frame_fill.
      exact Hbd.
Qed.

Lemma tidy_build (n : nat) :
  forall (s : t) (g : Random),
    0 <= room_min_size s -> tidy s -> tidy (snd (build n s g)).
Proof.
  induction n as [|n IH]; intros s g Hmin Ht; simpl; [exact Ht|].
  destruct (placeable s g) eqn:Hp; [|exact Ht].
  destruct (drawn_room_in_border s g Hp) as (Hb & Hw & Hh).
  apply IH.
  - destruct (add_room_fields s (drawn_room s g)) as (_ & _ & _ & _ & -> & _).
    exact Hmin.
  - apply tidy_add_room; [exact Ht|exact Hb|lia|lia].
Qed.

Lemma blank_fields (s : t) :
  width (blank s) = width s /\ height (blank s) = height s
  /\ rooms (blank s) = []
  /\ room_count (blank s) = room_count s
  /\ room_min_size (blank s) = room_min_size s
  /\ room_max_size (blank s) = room_max_size s.
Proof.
  exact (frame_fields (with_rooms s []) (blank s) (frame_fill _ _ _)).
Qed.

Lemma dims_ok_blank (s : t) : dims_ok s -> dims_ok (blank s).
Proof. intros Hd. apply dims_ok_fill. exact Hd. Qed.

Lemma cells_ok_blank (s : t) : cells_ok s -> cells_ok (blank s).
Proof. intros Hc. apply cells_ok_fill; auto. Qed.

Lemma tidy_blank (s : t) : dims_ok s -> tidy (blank s).
Proof.
  intros Hd. destruct (blank_fields s) as (_ & _ & Hr & _).
  split; [apply dims_ok_blank, Hd|]. split.
  - rewrite Hr. constructor.
  - intros i a b Ha. rewrite Hr in Ha. discriminate.
Qed.

(** After the reset every cell of the grid is wall. *)
Lemma blank_all_wall (s : t) (x y : Z) :
  dims_ok s -> in_bounds s x y = true -> peek (blank s) x y = 0.
Proof.
  intros Hd Hb. pose proof (proj1 (in_bounds_spec s x y) Hb) as Hxy.
  unfold blank. rewrite peek_fill by (assumption || lia).
  rewrite bool_decide_eq_true_2.
  - change (in_bounds (with_rooms s []) x y) with (in_bounds s x y).
    rewrite Hb. reflexivity.
  - apply rect_cells_elem. unfold left, right, top, bottom. simpl. lia.
Qed.

(** C1: when [generate] returns, on a map with roomCount >= 2 whose
    smallest room size is not negative, the room sequence holds the
    roomCount rooms, so every pair (i-1, i) with 1 <= i < roomCount is a
    pair of rooms of the sequence, and every cell of the L-walk
    (horizontal, then vertical) between the centers of such a pair is a
    floor cell of the final grid. *)
Theorem corridors_survive (w w' : World) :
  dims_ok (gen w) -> 0 <= room_min_size (gen w) ->
  2 <= room_count (gen w) ->
  generate w = (Ok tt, w') ->
  Z.of_nat (length (rooms (gen w'))) = room_count (gen w)
  /\ forall i : nat,
      1 <= Z.of_nat i < room_count (gen w) ->
      exists a b,
        rooms (gen w') !! (i - 1)%nat = Some a
        /\ rooms (gen w') !! i = Some b
        /\ forall x y,
            (x, y) ∈ l_walk (center a) (center b) ->
            get_tile_at (gen w') x y = Ok 1.
Proof.
  intros Hd Hmin Hcount Hrun.
  destruct (generate_run w Hd) as (g' & Hrun'). simpl in Hrun'.
  set (n := Z.to_nat (room_count (gen w))) in *.
  rewrite Hrun in Hrun'.
  destruct (fst (build n (blank (gen w)) (random w))) eqn:Hok;
    [|discriminate].
  injection Hrun' as ->. simpl.
  destruct (blank_fields (gen w)) as (Bw & Bh & Br & _ & Bmin & Bmax).
  assert (Ht : tidy (snd (build n (blank (gen w)) (random w)))).
  { apply tidy_build; [|apply tidy_blank; exact Hd].
    rewrite Bmin. exact Hmin. }
  destruct Ht as (Hd' & _ & Hcf).
  destruct (build_fields n (blank (gen w)) (random w))
    as (_ & _ & _ & _ & _ & Fr).
  rewrite Br in Fr. simpl in Fr.
  pose proof (build_complete n (blank (gen w)) (random w)) as Hlen.
  rewrite Hok, <- Fr in Hlen.
  set (s' := snd (build n (blank (gen w)) (random w))) in *.
  split; [rewrite Hlen; unfold n; lia|].
  intros i Hi.
  destruct (lookup_lt_is_Some_2 (rooms s') (i - 1)) as [a Ha]; [lia|].
  destruct (lookup_lt_is_Some_2 (rooms s') i) as [b Hb]; [lia|].
  exists a, b. split; [exact Ha|]. split; [exact Hb|].
  intros x y Hin.
  replace i with (Datatypes.S (i - 1)) in Hb by lia.
  destruct (Hcf (i - 1)%nat a b Ha Hb x y Hin) as [Hbd H1].
  rewrite get_tile_at_peek by exact Hd'. rewrite Hbd, H1. reflexivity.
Qed.

(** C3: on a grid that exceeds the largest room size by the border
    (width - roomMaxSize - 1 >= 1, likewise the height) with
    roomMinSize <= roomMaxSize and roomCount >= 0, as with the default
    5, 6, 15, [generate] returns; the rooms are then the [roomCount] rooms
    drawn, in the order they were drawn, and each keeps the border:
    x >= 1, y >= 1, x + w <= width - 1, y + h <= height - 1. *)
Theorem generate_rooms_in_border (w : World) :
  dims_ok (gen w) ->
  0 <= room_count (gen w) ->
  room_min_size (gen w) <= room_max_size (gen w) ->
  1 <= width (gen w) - room_max_size (gen w) - 1 ->
  1 <= height (gen w) - room_max_size (gen w) - 1 ->
  exists w',
    generate w = (Ok tt, w')
    /\ Z.of_nat (length (rooms (gen w'))) = room_count (gen w)
    /\ rooms (gen w')
       = drawn_rooms (Z.to_nat (room_count (gen w))) (gen w) (random w)
    /\ Forall (in_border (gen w')) (rooms (gen w')).
Proof.
  intros Hd Hc Hmm Hw Hh.
  destruct (generate_run w Hd) as (g' & Hrun). simpl in Hrun.
  set (n := Z.to_nat (room_count (gen w))) in *.
  destruct (blank_fields (gen w)) as (Bw & Bh & Br & _ & Bmin & Bmax).
  assert (Hok : fst (build n (blank (gen w)) (random w)) = true)
    by (apply roomy_build; rewrite ?Bw, ?Bh, ?Bmin, ?Bmax; assumption).
  rewrite Hok in Hrun.
  eexists. split; [exact Hrun|]. simpl.
  destruct (build_fields n (blank (gen w)) (random w))
    as (Fw & Fh & _ & _ & _ & Fr).
  rewrite Br in Fr. simpl in Fr.
  rewrite (drawn_rooms_fields n (gen w)) in Fr by assumption.
  pose proof (build_complete n (blank (gen w)) (random w)) as Hlen.
  rewrite Hok in Hlen.
  rewrite (drawn_rooms_fields n (gen w)) in Hlen by assumption.
  rewrite Fr. split; [rewrite Hlen; unfold n; lia|]. split; [reflexivity|].
  eapply Forall_impl; [apply drawn_rooms_in_border|].
  intros r (Hb & _). unfold in_border in *. rewrite Fw, Fh, Bw, Bh. exact Hb.
Qed.

(** ** Concrete maps *)

Lemma new_map_constructed :
  MapGenerator.init Fixtures.one_sheet 8 8 48 0 0 0 1 []
  = (Ok (Fixtures.new_map 8 8), [LoadSuccess 0 "assets/tileset1.png" 10]).
Proof. vm_compute. reflexivity. Qed.

Lemma dims_ok_roomy : dims_ok (gen Fixtures.roomy_world).
Proof. split; [reflexivity|]. vm_compute. repeat constructor. Defined.

Lemma dims_ok_tight_generated : dims_ok (gen Fixtures.tight_world_generated).
Proof. split; [reflexivity|]. vm_compute. repeat constructor. Defined.

Lemma corridors_survive_witness :
  dims_ok (gen Fixtures.roomy_world)
  /\ 0 <= room_min_size (gen Fixtures.roomy_world)
  /\ 2 <= room_count (gen Fixtures.roomy_world)
  /\ generate Fixtures.roomy_world
     = (Ok tt, snd (generate Fixtures.roomy_world))
  /\ length (rooms (gen (snd (generate Fixtures.roomy_world)))) = 5%nat
  /\ rooms (gen (snd (generate Fixtures.roomy_world))) !! 0%nat
     = Some {| rect_x := 8; rect_y := 12; rect_w := 9; rect_h := 6 |}
  /\ rooms (gen (snd (generate Fixtures.roomy_world))) !! 1%nat
     = Some {| rect_x := 10; rect_y := 3; rect_w := 7; rect_h := 14 |}
  /\ (13, 14) ∈ l_walk
                  (center {| rect_x := 8; rect_y := 12;
                             rect_w := 9; rect_h := 6 |})
                  (center {| rect_x := 10; rect_y := 3;
                             rect_w := 7; rect_h := 14 |})
  /\ get_tile_at (gen (snd (generate Fixtures.roomy_world))) 13 14 = Ok 1.
Proof.
  assert (H1 : 0 <= room_min_size (gen Fixtures.roomy_world))
    by (vm_compute; discriminate).
  assert (H2 : 2 <= room_count (gen Fixtures.roomy_world))
    by (vm_compute; discriminate).
  assert (H3 : generate Fixtures.roomy_world
               = (Ok tt, snd (generate Fixtures.roomy_world)))
    by (vm_compute; reflexivity).
  destruct (corridors_survive Fixtures.roomy_world
              (snd (generate Fixtures.roomy_world)) dims_ok_roomy H1 H2 H3)
    as [Hlen Hpairs].
  destruct (Hpairs 1%nat) as (a & b & Ha & Hb & Hfloor);
    [vm_compute; split; [discriminate|reflexivity]|].
  vm_compute in Ha. injection Ha as <-.
  vm_compute in Hb. injection Hb as <-.
  assert (Hin : (13, 14) ∈ l_walk
                  (center {| rect_x := 8; rect_y := 12;
                             rect_w := 9; rect_h := 6 |})
                  (center {| rect_x := 10; rect_y := 3;
                             rect_w := 7; rect_h := 14 |}))
    by (apply list_elem_of_In; vm_compute; tauto).
  split; [exact dims_ok_roomy|]. split; [exact H1|]. split; [exact H2|].
  split; [exact H3|].
  split; [vm_compute; reflexivity|].
  split; [vm_compute; reflexivity|].
  split; [vm_compute; reflexivity|].
  split; [exact Hin|].
  exact (Hfloor 13 14 Hin).
Defined.

Lemma generate_rooms_in_border_witness :
  dims_ok (gen Fixtures.roomy_world)
  /\ exists w',
      generate Fixtures.roomy_world = (Ok tt, w')
      /\ Z.of_nat (length (rooms (gen w'))) = 5
      /\ rooms (gen w')
         = drawn_rooms 5 (gen Fixtures.roomy_world)
                       (random Fixtures.roomy_world)
      /\ Forall (in_border (gen w')) (rooms (gen w')).
Proof.
  split; [exact dims_ok_roomy|].
  apply (generate_rooms_in_border Fixtures.roomy_world dims_ok_roomy);
    vm_compute; discriminate.
Defined.




(** C4: [create_corridor] issues its guarded writes along the L-walk, the
    horizontal run (from start.x toward end.x, end.x excluded, on the row
    of start) before the vertical run (from start.y toward end.y, end.y
    excluded, on the column of end); on a well-formed grid it returns, the
    cells of the walk that are in bounds hold floor afterwards, every other
    cell and every other field is unchanged. *)
Theorem create_corridor_l_shape (s : t) (start end_ : Z * Z) :
  dims_ok s ->
  create_corridor start end_ s
  = forM_ (map (fun x => (x, snd start)) (toward (fst start) (fst end_))
           ++ map (fun y => (fst end_, y)) (toward (snd start) (snd end_)))
          (fun c => carve_cell (fst c) (snd c)) s
  /\ (forall a b v, v ∈ toward a b <-> (a <= v < b \/ b < v <= a))
  /\ exists s',
      create_corridor start end_ s = (Ok tt, s')
      /\ with_tilemap s' [] = with_tilemap s []
      /\ dims_ok s'
      /\ forall x y,
          get_tile_at s' x y
          = if in_bounds s x y
               && bool_decide ((x, y) ∈ l_walk start end_)
            then Ok 1 else get_tile_at s x y.
Proof.
  intros Hd. split; [apply create_corridor_traversal|].
  split; [apply toward_elem|].
  exists (carve (l_walk start end_) s).
  split; [apply create_corridor_run; exact Hd|].
  split; [apply frame_fill|].
  split; [apply dims_ok_fill; exact Hd|].
  intros x y.
  rewrite !get_tile_at_peek by (exact Hd || apply dims_ok_fill; exact Hd).
  rewrite (in_bounds_frame s) by apply frame_fill.
  destruct (in_bounds s x y) eqn:Hb; [|reflexivity].
  pose proof (proj1 (in_bounds_spec s x y) Hb).
  unfold carve. rewrite peek_fill by (exact Hd || lia).
  rewrite Hb, andb_true_r. simpl.
  destruct (bool_decide _); reflexivity.
Qed.

Lemma create_corridor_l_shape_witness :
  dims_ok (Fixtures.new_map 8 8)
  /\ exists s',
      create_corridor (5, 5) (2, 7) (Fixtures.new_map 8 8) = (Ok tt, s')
      /\ get_tile_at s' 3 5 = Ok 1
      /\ get_tile_at s' 2 6 = Ok 1
      /\ get_tile_at s' 2 7 = Ok 0.
Proof.
  assert (Hd : dims_ok (Fixtures.new_map 8 8))
    by (split; [reflexivity|vm_compute; repeat constructor]).
  split; [exact Hd|].
  destruct (create_corridor_l_shape (Fixtures.new_map 8 8) (5, 5) (2, 7) Hd)
    as (_ & _ & s' & Hrun & _ & _ & Hget).
  exists s'. split; [exact Hrun|].
  rewrite !Hget. vm_compute. repeat split.
Defined.

(** C6: outside [0,width) x [0,height), [get_tile_at] returns wall and
    [is_walkable] returns false, whatever the grid holds; on a well-formed
    grid both return at every coordinate, and [is_walkable] answers true
    exactly when [get_tile_at] answers floor. *)
Theorem queries_closed_world (s : t) (x y : Z) :
  (~ (0 <= x < width s /\ 0 <= y < height s) ->
   get_tile_at s x y = Ok 0 /\ is_walkable s x y = Ok false)
  /\ (dims_ok s ->
      exists v b,
        get_tile_at s x y = Ok v /\ is_walkable s x y = Ok b
        /\ (b = true <-> v = 1)).
Proof.
  split.
  - intros Hout. apply in_bounds_false in Hout.
    unfold is_walkable, get_tile_at. rewrite Hout. auto.
  - intros Hd. unfold is_walkable.
    rewrite get_tile_at_peek by exact Hd.
    eexists. eexists. split; [reflexivity|]. split; [reflexivity|].
    apply Z.eqb_eq.
Qed.

Lemma queries_closed_world_witness :
  (get_tile_at (Fixtures.new_map 8 8) (-1) 3 = Ok 0
   /\ is_walkable (Fixtures.new_map 8 8) (-1) 3 = Ok false)
  /\ (get_tile_at (Fixtures.new_map 8 8) 3 8 = Ok 0
      /\ is_walkable (Fixtures.new_map 8 8) 3 8 = Ok false)
  /\ exists v b,
      get_tile_at (gen Fixtures.tight_world_generated) 3 3 = Ok v
      /\ is_walkable (gen Fixtures.tight_world_generated) 3 3 = Ok b
      /\ (b = true <-> v = 1).
Proof.
  split; [|split].
  - apply (proj1 (queries_closed_world (Fixtures.new_map 8 8) (-1) 3)).
    vm_compute. intros [[H _] _]. apply H. reflexivity.
  - apply (proj1 (queries_closed_world (Fixtures.new_map 8 8) 3 8)).
    vm_compute. intros [_ [_ H]]. discriminate H.
  - apply (proj2 (queries_closed_world
                    (gen Fixtures.tight_world_generated) 3 3)).
    exact dims_ok_tight_generated.
Defined.

(** ** Drawing *)

Lemma get_tile_total (sel : TileSelector.t) (sheet index : Z) :
  exists r, TileSelector.get_tile sel sheet index = Ok r.
Proof.
  unfold TileSelector.get_tile.
  destruct (Z.leb_spec 0 sheet); simpl; [|eauto].
  destruct (Z.ltb_spec sheet
              (Z.of_nat (length (TileSelector.tileset_images sel))));
    simpl; [|eauto].
  destruct (py_get_total (TileSelector.tileset_images sel) sheet)
    as (tiles & _ & ->); [lia|].
  destruct (Z.leb_spec 0 index); simpl; [|eauto].
  destruct (Z.ltb_spec index (Z.of_nat (length tiles))); simpl; [|eauto].
  destruct (py_get_total tiles index) as (tile & _ & ->); [lia|]. eauto.
Qed.

Lemma get_tile_image (s : t) (sheet index : Z) :
  TileSelector.get_tile (tile_selector s) sheet index
  = Ok (tile_image s sheet index).
Proof.
  unfold tile_image.
  destruct (get_tile_total (tile_selector s) sheet index) as [r ->].
  reflexivity.
Qed.

Lemma drawn_on_nil (sf : Surface) : drawn_on sf [] = sf.
Proof. destruct sf. unfold drawn_on. simpl. rewrite app_nil_r. reflexivity. Qed.

Lemma drawn_on_app (sf : Surface) (ops1 ops2 : list DrawOp) :
  drawn_on (drawn_on sf ops1) ops2 = drawn_on sf (ops1 ++ ops2).
Proof. unfold drawn_on. simpl. rewrite app_assoc. reflexivity. Qed.

(** A pass over a list of cells that draws the cells satisfying a test. *)
Lemma pass_run (cells : list (Z * Z)) (test : Z * Z -> bool)
      (call : Z * Z -> DrawOp) (body : Z * Z -> M Surface unit) :
  (forall c sf, c ∈ cells ->
                body c sf
                = (Ok tt, if test c then drawn_on sf [call c] else sf)) ->
  forall sf,
    forM_ cells body sf
    = (Ok tt, drawn_on sf (map call (List.filter test cells))).
Proof.
  induction cells as [|c cells IH]; intros Hbody sf.
  - simpl. rewrite drawn_on_nil. reflexivity.
  - simpl. unfold Py.bind. rewrite Hbody by left.
    rewrite IH by (intros c' sf' Hc'; apply Hbody; right; exact Hc').
    destruct (test c); [|reflexivity].
    rewrite drawn_on_app. reflexivity.
Qed.

Lemma put_tile_run (s : t) (image : option Tile) (fallback : Z * Z * Z)
      (camera_x camera_y : Z) (c : Z * Z) (sf : Surface) :
  put_tile image fallback (tile_size s)
           (fst c * tile_size s - camera_x) (snd c * tile_size s - camera_y) sf
  = (Ok tt, drawn_on sf [tile_call s image fallback camera_x camera_y c]).
Proof. unfold put_tile, tile_call. destruct image; reflexivity. Qed.

Lemma window_in_bounds (s : t) (sf : Surface) (cx cy : Z) (c : Z * Z) :
  c ∈ window s sf cx cy -> in_bounds s (fst c) (snd c) = true.
Proof.
  destruct c as [x y]. unfold window.
  rewrite list_elem_of_In, in_flat_map.
  intros (x' & Hx & Hy). apply in_map_iff in Hy as (y' & E & Hy).
  injection E as -> ->.
  rewrite <- list_elem_of_In, range_elem in Hx, Hy.
  apply in_bounds_spec. simpl. lia.
Qed.

Lemma floor_body_run (s : t) (image : option Tile) (cx cy : Z)
      (c : Z * Z) (sf : Surface) :
  dims_ok s -> in_bounds s (fst c) (snd c) = true ->
  (v <- Py.lift (load s (fst c) (snd c)) ;;
   if v =? 1 then
     put_tile image floor_fallback (tile_size s)
              (fst c * tile_size s - cx) (snd c * tile_size s - cy)
   else Py.ret tt) sf
  = (Ok tt, if is_floor s c
            then drawn_on sf [tile_call s image floor_fallback cx cy c]
            else sf).
Proof.
  intros Hd Hb. unfold Py.bind, Py.lift, is_floor.
  rewrite load_in_bounds by assumption.
  destruct (peek s c.1 c.2 =? 1); [apply put_tile_run|reflexivity].
Qed.

Lemma wall_body_run (s : t) (image : option Tile) (cx cy : Z)
      (c : Z * Z) (sf : Surface) :
  dims_ok s -> in_bounds s (fst c) (snd c) = true ->
  (v <- Py.lift (load s (fst c) (snd c)) ;;
   if v =? 0 then
     if snd c <? height s - 1 then
       below <- Py.lift (load s (fst c) (snd c + 1)) ;;
       if below =? 1 then
         put_tile image wall_fallback (tile_size s)
                  (fst c * tile_size s - cx) (snd c * tile_size s - cy)
       else Py.ret tt
     else Py.ret tt
   else Py.ret tt) sf
  = (Ok tt, if is_front_wall s c
            then drawn_on sf [tile_call s image wall_fallback cx cy c]
            else sf).
Proof.
  intros Hd Hb. unfold Py.bind, Py.lift, is_front_wall.
  rewrite load_in_bounds by assumption.
  destruct (peek s c.1 c.2 =? 0); [|reflexivity]. simpl.
  apply in_bounds_spec in Hb.
  destruct (Z.ltb_spec (snd c) (height s - 1));
    destruct (Z.ltb_spec (snd c + 1) (height s)); try lia; [|reflexivity].
  rewrite load_in_bounds by (exact Hd || apply in_bounds_spec; lia).
  simpl. destruct (peek s c.1 (c.2 + 1) =? 1);
    [apply put_tile_run|reflexivity].
Qed.

Lemma nested_ranges {S} (a b c d : Z) (body : Z -> Z -> M S unit) (s : S) :
  forM_ (range a b) (fun x => forM_ (range c d) (fun y => body x y)) s
  = forM_ (flat_map (fun x => map (fun y => (x, y)) (range c d)) (range a b))
          (fun p => body (fst p) (snd p)) s.
Proof.
  rewrite forM_flat_map. apply forM_ext. intros x s'.
  rewrite forM_map. reflexivity.
Qed.

Lemma floor_pass_run (s : t) (image : option Tile) (cx cy : Z)
      (cells : list (Z * Z)) (sf : Surface) :
  dims_ok s ->
  (forall c, c ∈ cells -> in_bounds s (fst c) (snd c) = true) ->
  forM_ cells
        (fun c =>
           v <- Py.lift (load s (fst c) (snd c)) ;;
           if v =? 1 then
             put_tile image floor_fallback (tile_size s)
                      (fst c * tile_size s - cx) (snd c * tile_size s - cy)
           else Py.ret tt) sf
  = (Ok tt,
     drawn_on sf (map (tile_call s image floor_fallback cx cy)
                      (List.filter (is_floor s) cells))).
Proof.
  intros Hd Hin. apply pass_run.
  intros c sf' Hc. apply floor_body_run; auto.
Qed.

Lemma wall_pass_run (s : t) (image : option Tile) (cx cy : Z)
      (cells : list (Z * Z)) (sf : Surface) :
  dims_ok s ->
  (forall c, c ∈ cells -> in_bounds s (fst c) (snd c) = true) ->
  forM_ cells
        (fun c =>
           v <- Py.lift (load s (fst c) (snd c)) ;;
           if v =? 0 then
             if snd c <? height s - 1 then
               below <- Py.lift (load s (fst c) (snd c + 1)) ;;
               if below =? 1 then
                 put_tile image wall_fallback (tile_size s)
                          (fst c * tile_size s - cx)
                          (snd c * tile_size s - cy)
               else Py.ret tt
             else Py.ret tt
           else Py.ret tt) sf
  = (Ok tt,
     drawn_on sf (map (tile_call s image wall_fallback cx cy)
                      (List.filter (is_front_wall s) cells))).
Proof.
  intros Hd Hin. apply pass_run.
  intros c sf' Hc. apply wall_body_run; auto.
Qed.

(** C5: on a well-formed grid with a non-zero tile size, [draw] returns
    after adding to the surface, in this order, the floor calls then the
    wall calls: one floor call per floor cell of the window (the floor
    image when the selector has one, else a light gray square), then one
    wall call per window cell that is wall and whose cell below is in the
    grid and is floor (wall image or brown square); no other wall cell is
    drawn. *)
Theorem draw_two_passes (s : t) (sf : Surface) (cx cy : Z) :
  dims_ok s -> tile_size s <> 0 ->
  draw s cx cy sf
  = (Ok tt, drawn_on sf (floor_calls s sf cx cy ++ wall_calls s sf cx cy))
  /\ (forall op,
        In op (floor_calls s sf cx cy) <->
        exists c, In c (window s sf cx cy)
                  /\ peek s (fst c) (snd c) = 1
                  /\ op = tile_call s
                            (tile_image s (floor_tileset s) (floor_tile s))
                            floor_fallback cx cy c)
  /\ (forall op,
        In op (wall_calls s sf cx cy) <->
        exists c, In c (window s sf cx cy)
                  /\ peek s (fst c) (snd c) = 0
                  /\ snd c + 1 < height s
                  /\ peek s (fst c) (snd c + 1) = 1
                  /\ op = tile_call s
                            (tile_image s (wall_tileset s) (wall_tile s))
                            wall_fallback cx cy c).
Proof.
  intros Hd Hts. split; [|split].
  - unfold draw.
    erewrite bind_ok by reflexivity. cbv beta zeta.
    assert (Hdiv : forall a (sf' : Surface),
               Py.lift (floordiv a (tile_size s)) sf'
               = (Ok (a / tile_size s), sf')).
    { intros a sf'. unfold Py.lift, floordiv.
      destruct (Z.eqb_spec (tile_size s) 0); [contradiction|reflexivity]. }
    do 4 (erewrite bind_ok by apply Hdiv; cbv beta zeta).
    do 2 (erewrite bind_ok
            by (unfold Py.lift; rewrite get_tile_image; reflexivity);
          cbv beta zeta).
    rewrite <- drawn_on_app.
    assert (Hin : forall c, c ∈ window s sf cx cy ->
                            in_bounds s (fst c) (snd c) = true)
      by (intros c; apply window_in_bounds).
    unfold floor_calls, wall_calls.
    unfold window in *.
    unfold Py.bind at 1. rewrite nested_ranges. cbv beta.
    rewrite floor_pass_run by assumption.
    rewrite nested_ranges. cbv beta.
    apply wall_pass_run; assumption.
  - intros op. unfold floor_calls. rewrite in_map_iff. split.
    + intros (c & <- & Hc). apply filter_In in Hc as [Hc Hf].
      exists c. unfold is_floor in Hf. apply Z.eqb_eq in Hf. auto.
    + intros (c & Hc & Hf & ->). exists c. split; [reflexivity|].
      apply filter_In. split; [exact Hc|]. apply Z.eqb_eq. exact Hf.
  - intros op. unfold wall_calls. rewrite in_map_iff. split.
    + intros (c & <- & Hc). apply filter_In in Hc as [Hc Hf].
      exists c. unfold is_front_wall in Hf.
      rewrite !andb_true_iff, !Z.eqb_eq, Z.ltb_lt in Hf. tauto.
    + intros (c & Hc & H0 & Hh & H1 & ->). exists c. split; [reflexivity|].
      apply filter_In. split; [exact Hc|]. unfold is_front_wall.
      rewrite !andb_true_iff, !Z.eqb_eq, Z.ltb_lt. tauto.
Qed.

Lemma draw_two_passes_witness :
  dims_ok (gen Fixtures.tight_world_generated)
  /\ tile_size (gen Fixtures.tight_world_generated) <> 0
  /\ draw (gen Fixtures.tight_world_generated) 0 0 Fixtures.screen
     = (Ok tt,
        drawn_on Fixtures.screen
          (floor_calls (gen Fixtures.tight_world_generated)
                       Fixtures.screen 0 0
           ++ wall_calls (gen Fixtures.tight_world_generated)
                         Fixtures.screen 0 0)).
Proof.
  assert (H : tile_size (gen Fixtures.tight_world_generated) <> 0)
    by (vm_compute; discriminate).
  split; [exact dims_ok_tight_generated|]. split; [exact H|].
  exact (proj1 (draw_two_passes (gen Fixtures.tight_world_generated)
                  Fixtures.screen 0 0 dims_ok_tight_generated H)).
Defined.

(** ** The representation invariant of the grid *)

Lemma init_grid fs W H ts a b c d out s out' :
  init fs W H ts a b c d out = (Ok s, out') ->
  width s = W /\ height s = H
  /\ tilemap s = map (fun _ => map (fun _ => 0) (range 0 H)) (range 0 W).
Proof.
  unfold init, Py.bind, Py.lift, Py.raise, Py.ret.
  destruct (find_tileset_paths fs possible_paths) as [[[|p ps]|]|e|];
    try discriminate.
  destruct (TileSelector.init fs (p :: ps) ts out) as [[sel|e|] out2];
    try discriminate.
  intros E. injection E as <- _. simpl. auto.
Qed.

Lemma fresh_grid_inv (s : t) :
  0 <= width s -> 0 <= height s ->
  tilemap s
  = map (fun _ => map (fun _ => 0) (range 0 (height s))) (range 0 (width s)) ->
  grid_inv s.
Proof.
  intros HW HH Htm. unfold grid_inv, dims_ok, cells_ok. rewrite Htm.
  split; [split|].
  - rewrite length_map, range_length. lia.
  - apply Forall_forall. intros col Hcol.
    apply list_elem_of_In, in_map_iff in Hcol as (x & <- & _).
    rewrite length_map, range_length. lia.
  - apply Forall_forall. intros col Hcol.
    apply list_elem_of_In, in_map_iff in Hcol as (x & <- & _).
    apply Forall_forall. intros v Hv.
    apply list_elem_of_In, in_map_iff in Hv as (y & <- & _). auto.
Qed.

Lemma grid_inv_generate (w : World) :
  grid_inv (gen w) ->
  grid_inv (gen (snd (generate w)))
  /\ width (gen (snd (generate w))) = width (gen w)
  /\ height (gen (snd (generate w))) = height (gen w).
Proof.
  intros [Hd Hc]. destruct (generate_run w Hd) as (g' & ->). simpl.
  destruct (blank_fields (gen w)) as (Bw & Bh & _).
  destruct (build_fields (Z.to_nat (room_count (gen w)))
                         (blank (gen w)) (random w)) as (Fw & Fh & _).
  split; [split|].
  - apply build_dims_ok, dims_ok_blank, Hd.
  - apply build_cells_ok, cells_ok_blank, Hc.
  - rewrite Fw, Fh. auto.
Qed.

Lemma grid_inv_carve (cells : list (Z * Z)) (s : t) :
  grid_inv s ->
  grid_inv (carve cells s)
  /\ width (carve cells s) = width s /\ height (carve cells s) = height s.
Proof.
  intros [Hd Hc].
  destruct (frame_fields s (carve cells s) (frame_fill 1 cells s))
    as (Hw & Hh & _).
  split; [split|auto].
  - apply dims_ok_fill, Hd.
  - apply cells_ok_fill; auto.
Qed.

(** C10: a map constructed with non-negative dimensions has a grid of
    [width] columns of [height] cells, each 0 or 1; every operation
    (generate, create_room, create_corridor, set_tiles, the two queries and
    draw), whether it returns or raises, leaves the dimensions and that
    shape as they are and every cell 0 or 1. *)
Theorem grid_invariant_preserved :
  (forall fs W H ts a b c d out s out',
      0 <= W -> 0 <= H ->
      init fs W H ts a b c d out = (Ok s, out') ->
      grid_inv s /\ width s = W /\ height s = H)
  /\ (forall op w,
        grid_inv (gen w) ->
        grid_inv (gen (run_op op w))
        /\ width (gen (run_op op w)) = width (gen w)
        /\ height (gen (run_op op w)) = height (gen w)).
Proof.
  split.
  - intros fs W H ts a b c d out s out' HW HH Hinit.
    destruct (init_grid _ _ _ _ _ _ _ _ _ _ _ Hinit) as (Ew & Eh & Etm).
    split; [|auto].
    apply fresh_grid_inv; rewrite ?Ew, ?Eh; assumption.
  - intros op [s g] Hinv. destruct op; simpl.
    + apply grid_inv_generate. exact Hinv.
    + rewrite (on_gen_run _ s _ g _ (create_room_run room s (proj1 Hinv))).
      simpl. apply grid_inv_carve. exact Hinv.
    + rewrite (on_gen_run _ s _ g _
                 (create_corridor_run start end_ s (proj1 Hinv))).
      simpl. apply grid_inv_carve. exact Hinv.
    + split; [exact Hinv|auto].
    + auto.
    + auto.
    + auto.
Qed.

Lemma grid_invariant_preserved_witness :
  (0 <= 8
   /\ MapGenerator.init Fixtures.one_sheet 8 8 48 0 0 0 1 []
      = (Ok (Fixtures.new_map 8 8), [LoadSuccess 0 "assets/tileset1.png" 10])
   /\ grid_inv (Fixtures.new_map 8 8))
  /\ grid_inv (gen (run_op OpGenerate Fixtures.tight_world))
  /\ grid_inv (gen (run_op (OpCreateRoom {| rect_x := 6; rect_y := 6;
                                            rect_w := 5; rect_h := 5 |})
                           Fixtures.tight_world)).
Proof.
  assert (H8 : 0 <= 8) by lia.
  assert (Hi : MapGenerator.init Fixtures.one_sheet 8 8 48 0 0 0 1 []
               = (Ok (Fixtures.new_map 8 8),
                  [LoadSuccess 0 "assets/tileset1.png" 10]))
    by (vm_compute; reflexivity).
  assert (H0 : grid_inv (Fixtures.new_map 8 8))
    by exact (proj1 (proj1 grid_invariant_preserved _ _ _ _ _ _ _ _ _ _ _
                       H8 H8 Hi)).
  split; [split; [exact H8|split; [exact Hi|exact H0]]|]. split.
  - exact (proj1 (proj2 grid_invariant_preserved OpGenerate
                    Fixtures.tight_world H0)).
  - exact (proj1 (proj2 grid_invariant_preserved
                    (OpCreateRoom {| rect_x := 6; rect_y := 6;
                                     rect_w := 5; rect_h := 5 |})
                    Fixtures.tight_world H0)).
Defined.

(** ** The layout of a generated map *)

Import Layout.

Lemma with_tilemap_eta (s1 s2 : t) :
  with_tilemap s1 [] = with_tilemap s2 [] -> tilemap s1 = tilemap s2 ->
  s1 = s2.
Proof.
  destruct s1, s2. unfold with_tilemap. simpl.
  intros H ->. injection H as -> -> -> -> -> -> -> -> -> -> -> ->.
  reflexivity.
Qed.

Lemma peek_with_rooms (s : t) (rs : list Rect) (x y : Z) :
  peek (with_rooms s rs) x y = peek s x y.
Proof. reflexivity. Qed.

(** A cell holds floor after a carving exactly when it held floor before
    or is one of the carved cells. *)
Lemma peek_carve_iff (cells : list (Z * Z)) (s : t) (x y : Z) :
  dims_ok s -> in_bounds s x y = true ->
  (peek (carve cells s) x y = 1 <-> peek s x y = 1 \/ (x, y) ∈ cells).
Proof.
  intros Hd Hb. pose proof (proj1 (in_bounds_spec s x y) Hb).
  unfold carve. rewrite peek_fill by (exact Hd || lia).
  rewrite Hb, andb_true_r.
  destruct (bool_decide_reflect ((x, y) ∈ cells)); tauto.
Qed.

Lemma in_some_room_snoc (rs : list Rect) (r : Rect) (x y : Z) :
  in_some_room (rs ++ [r]) x y
  <-> in_some_room rs x y \/ (x, y) ∈ rect_cells r.
Proof.
  unfold in_some_room. split.
  - intros (r' & Hr' & Hin). apply elem_of_app in Hr' as [Hr'|Hr'].
    + left. eauto.
    + apply list_elem_of_singleton in Hr'. subst. auto.
  - intros [(r' & Hr' & Hin)|Hin].
    + exists r'. split; [apply elem_of_app; auto|exact Hin].
    + exists r. split; [apply elem_of_app; right; constructor|exact Hin].
Qed.

Lemma on_some_corridor_snoc (rs : list Rect) (r : Rect) (x y : Z) :
  on_some_corridor (rs ++ [r]) x y
  <-> on_some_corridor rs x y
      \/ exists prev, last rs = Some prev
                      /\ (x, y) ∈ l_walk (center prev) (center r).
Proof.
  unfold on_some_corridor. split.
  - intros (i & a & b & Ha & Hb & Hin).
    destruct (decide (Datatypes.S i < length rs)%nat) as [Hlt|Hge].
    + rewrite lookup_app_l in Ha, Hb by lia. left. eauto 6.
    + assert (Hi : Datatypes.S i = length rs).
      { apply lookup_lt_Some in Hb. rewrite length_app in Hb.
        simpl in Hb. lia. }
      rewrite lookup_app_l in Ha by lia.
      rewrite lookup_app_r in Hb by lia.
      replace (Datatypes.S i - length rs)%nat with O in Hb by lia.
      injection Hb as <-. right. exists a. split; [|exact Hin].
      rewrite last_lookup, <- Ha. f_equal. lia.
  - intros [(i & a & b & Ha & Hb & Hin)|(prev & Hlast & Hin)].
    + exists i, a, b. split; [apply lookup_app_l_Some; exact Ha|].
      split; [apply lookup_app_l_Some; exact Hb|exact Hin].
    + rewrite last_lookup in Hlast.
      assert (Hlen : (0 < length rs)%nat).
      { apply lookup_lt_Some in Hlast. destruct rs; simpl in *; lia. }
      exists (Nat.pred (length rs)), prev, r.
      split; [apply lookup_app_l_Some; exact Hlast|].
      split; [|exact Hin].
      rewrite lookup_app_r by lia.
      replace (Datatypes.S (Nat.pred (length rs)) - length rs)%nat
        with O by lia.
      reflexivity.
Qed.

Lemma floor_exact_add_room (s : t) (r : Rect) :
  dims_ok s -> floor_exact s -> floor_exact (add_room s r).
Proof.
  intros Hd Hex x y Hb. rewrite in_bounds_add_room in Hb.
  destruct (add_room_fields s r) as (_ & _ & -> & _).
  unfold carved_by. rewrite in_some_room_snoc, on_some_corridor_snoc.
  specialize (Hex x y Hb). unfold carved_by in Hex.
  assert (H1 : peek (carve (rect_cells r) (with_rooms s (rooms s ++ [r])))
                    x y = 1
               <-> peek s x y = 1 \/ (x, y) ∈ rect_cells r).
  { rewrite peek_carve_iff by assumption. rewrite peek_with_rooms. tauto. }
  unfold add_room. destruct (last (rooms s)) as [prev|].
  - rewrite peek_carve_iff; [|apply dims_ok_fill; exact Hd|].
    2:{ rewrite (in_bounds_frame (with_rooms s (rooms s ++ [r])))
          by apply frame_fill. exact Hb. }
    rewrite H1, Hex. split.
    + intros [[[H|H]|H]|H]; auto.
      right. right. exists prev. auto.
    + intros [[H|H]|[H|(p & E & H)]]; auto.
      injection E as <-. auto.
  - rewrite H1, Hex. split.
    + intros [[H|H]|H]; auto.
    + intros [[H|H]|[H|(p & E & H)]]; auto. discriminate.
Qed.

Lemma floor_exact_build (n : nat) :
  forall (s : t) (g : Random),
    dims_ok s -> floor_exact s -> floor_exact (snd (build n s g)).
Proof.
  induction n as [|n IH]; intros s g Hd Hex; simpl; [exact Hex|].
  destruct (placeable s g); [|exact Hex].
  apply IH; [apply dims_ok_add_room, Hd|].
  apply floor_exact_add_room; assumption.
Qed.

Lemma floor_exact_blank (s : t) : dims_ok s -> floor_exact (blank s).
Proof.
  intros Hd x y Hb.
  destruct (blank_fields s) as (Bw & Bh & Br & _).
  assert (Hb' : in_bounds s x y = true)
    by (unfold in_bounds in *; rewrite <- Bw, <- Bh; exact Hb).
  rewrite blank_all_wall by assumption. rewrite Br. split; [discriminate|].
  intros [(r & Hr & _)|(i & a & b & Ha & _)].
  - apply elem_of_nil in Hr. contradiction.
  - discriminate.
Qed.

(** The map [generate] leaves, whether it returned or raised. *)
Lemma generated_map (w : World) :
  dims_ok (gen w) ->
  gen (snd (generate w))
  = snd (build (Z.to_nat (room_count (gen w))) (blank (gen w)) (random w))
  /\ fst (generate w)
     = if fst (build (Z.to_nat (room_count (gen w))) (blank (gen w))
                     (random w))
       then Ok tt else Raise ValueError.
Proof.
  intros Hd. destruct (generate_run w Hd) as (g' & ->). auto.
Qed.

(** After [generate], a cell reads floor exactly when it is a cell of the
    grid that lies in one of the rooms or on the L-walk between two
    consecutive rooms. *)
Theorem generate_floor_exact (w : World) (x y : Z) :
  dims_ok (gen w) ->
  get_tile_at (gen (snd (generate w))) x y = Ok 1
  <-> in_bounds (gen (snd (generate w))) x y = true
      /\ carved_by (rooms (gen (snd (generate w)))) x y.
Proof.
  intros Hd. destruct (generated_map w Hd) as [-> _].
  set (s' := snd (build _ _ _)).
  assert (Hd' : dims_ok s') by (apply build_dims_ok, dims_ok_blank, Hd).
  assert (Hex : floor_exact s').
  { apply floor_exact_build; [apply dims_ok_blank, Hd|].
    apply floor_exact_blank, Hd. }
  rewrite get_tile_at_peek by exact Hd'.
  destruct (in_bounds s' x y) eqn:Hb.
  - rewrite <- (Hex x y Hb). split.
    + intros E. injection E as E. auto.
    + intros [_ E]. rewrite E. reflexivity.
  - split; [discriminate|]. intros [E _]. discriminate.
Qed.

Lemma generate_floor_exact_witness :
  dims_ok (gen Fixtures.roomy_world)
  /\ (get_tile_at (gen (snd (generate Fixtures.roomy_world))) 5 5 = Ok 1
      <-> in_bounds (gen (snd (generate Fixtures.roomy_world))) 5 5 = true
          /\ carved_by (rooms (gen (snd (generate Fixtures.roomy_world))))
                       5 5).
Proof.
  split; [exact dims_ok_roomy|].
  exact (generate_floor_exact Fixtures.roomy_world 5 5 dims_ok_roomy).
Defined.

Lemma generated_floor_exact (w : World) :
  dims_ok (gen w) ->
  dims_ok (gen (snd (generate w))) /\ floor_exact (gen (snd (generate w))).
Proof.
  intros Hd. destruct (generated_map w Hd) as [-> _]. split.
  - apply build_dims_ok, dims_ok_blank, Hd.
  - apply floor_exact_build; [apply dims_ok_blank, Hd|].
    apply floor_exact_blank, Hd.
Qed.

(** The rooms [generate] leaves keep the border and have sizes within the
    configured bounds. *)
Lemma generated_rooms (w : World) :
  dims_ok (gen w) ->
  width (gen (snd (generate w))) = width (gen w)
  /\ height (gen (snd (generate w))) = height (gen w)
  /\ rooms (gen (snd (generate w)))
     = drawn_rooms (Z.to_nat (room_count (gen w))) (gen w) (random w)
  /\ Forall (fun r =>
               in_border (gen w) r
               /\ room_min_size (gen w) <= rect_w r <= room_max_size (gen w)
               /\ room_min_size (gen w) <= rect_h r <= room_max_size (gen w))
            (rooms (gen (snd (generate w)))).
Proof.
  intros Hd. destruct (generated_map w Hd) as [-> _].
  set (n := Z.to_nat (room_count (gen w))).
  destruct (blank_fields (gen w)) as (Bw & Bh & Br & _ & Bmin & Bmax).
  destruct (build_fields n (blank (gen w)) (random w))
    as (Fw & Fh & _ & _ & _ & Fr).
  rewrite Br in Fr. simpl in Fr.
  rewrite (drawn_rooms_fields n (gen w)) in Fr by assumption.
  rewrite Fw, Fh, Fr, Bw, Bh. repeat split.
  apply drawn_rooms_in_border.
Qed.

Lemma center_inside (s : t) (r : Rect) :
  in_border s r -> 1 <= rect_w r -> 1 <= rect_h r ->
  (1 <= fst (center r) <= width s - 2
   /\ 1 <= snd (center r) <= height s - 2)
  /\ (center r) ∈ rect_cells r.
Proof.
  intros (Hx & Hy & Hr & Hb) Hw Hh.
  assert (Hq : forall v, 1 <= v -> 0 <= Z.quot v 2 <= v - 1).
  { intros v Hv. rewrite Z.quot_div_nonneg by lia.
    pose proof (Z.div_pos v 2). pose proof (Z.mul_div_le v 2). lia. }
  pose proof (Hq _ Hw). pose proof (Hq _ Hh).
  unfold center. simpl. split; [lia|].
  apply rect_cells_elem. unfold left, right, top, bottom. lia.
Qed.

Lemma binary_carve (cells : list (Z * Z)) (s : t) :
  dims_ok s -> binary s -> binary (carve cells s).
Proof.
  intros Hd Hbin x y Hb.
  rewrite (in_bounds_frame s) in Hb by apply frame_fill.
  pose proof (proj1 (in_bounds_spec s x y) Hb).
  unfold carve. rewrite peek_fill by (exact Hd || lia).
  destruct (_ && _); [auto|apply Hbin; exact Hb].
Qed.

Lemma binary_add_room (s : t) (r : Rect) :
  dims_ok s -> binary s -> binary (add_room s r).
Proof.
  intros Hd Hbin. unfold add_room.
  assert (H1 : binary (carve (rect_cells r)
                             (with_rooms s (rooms s ++ [r]))))
    by (apply binary_carve; [exact Hd|exact Hbin]).
  destruct (last (rooms s)); [|exact H1].
  apply binary_carve; [apply dims_ok_fill; exact Hd|exact H1].
Qed.

Lemma binary_build (n : nat) :
  forall (s : t) (g : Random),
    dims_ok s -> binary s -> binary (snd (build n s g)).
Proof.
  induction n as [|n IH]; intros s g Hd Hbin; simpl; [exact Hbin|].
  destruct (placeable s g); [|exact Hbin].
  apply IH; [apply dims_ok_add_room, Hd|].
  apply binary_add_room; assumption.
Qed.

Lemma generated_binary (w : World) :
  dims_ok (gen w) -> binary (gen (snd (generate w))).
Proof.
  intros Hd. destruct (generated_map w Hd) as [-> _].
  apply binary_build; [apply dims_ok_blank, Hd|].
  intros x y Hb. left. apply blank_all_wall; [exact Hd|].
  destruct (blank_fields (gen w)) as (Bw & Bh & _).
  unfold in_bounds in *. rewrite <- Bw, <- Bh. exact Hb.
Qed.

(** After [generate] on a map whose smallest room size is at least 1, the
    outer ring of the grid is wall: no room and no corridor touches it. *)
Theorem generate_edge_is_wall (w : World) (x y : Z) :
  dims_ok (gen w) -> 1 <= room_min_size (gen w) ->
  on_edge (gen (snd (generate w))) x y ->
  get_tile_at (gen (snd (generate w))) x y = Ok 0.
Proof.
  intros Hd Hmin Hedge.
  destruct (generated_floor_exact w Hd) as [Hd' Hex].
  destruct (generated_rooms w Hd) as (Ew & Eh & _ & Hrooms).
  set (s' := gen (snd (generate w))) in *.
  rewrite get_tile_at_peek by exact Hd'.
  destruct (in_bounds s' x y) eqn:Hb; [|reflexivity].
  assert (Hnot : ~ carved_by (rooms s') x y).
  { unfold on_edge in Hedge. rewrite Ew, Eh in Hedge.
    assert (Hin : forall r, r ∈ rooms s' ->
                  in_border (gen w) r /\ 1 <= rect_w r /\ 1 <= rect_h r).
    { intros r Hr. rewrite Forall_forall in Hrooms.
      destruct (Hrooms r Hr) as (H1 & H2 & H3). split; [exact H1|lia]. }
    intros [(r & Hr & Hc)|(i & a & b & Ha & Hb' & Hc)].
    - destruct (Hin r Hr) as ((H1 & H2 & H3 & H4) & _).
      apply rect_cells_elem in Hc. unfold left, right, top, bottom in Hc.
      lia.
    - destruct (Hin a) as (Ba & Wa & Ha'); [eapply list_elem_of_lookup_2, Ha|].
      destruct (Hin b) as (Bb & Wb & Hb''); [eapply list_elem_of_lookup_2, Hb'|].
      destruct (center_inside (gen w) a Ba Wa Ha') as [Ca _].
      destruct (center_inside (gen w) b Bb Wb Hb'') as [Cb _].
      apply l_walk_elem in Hc. rewrite !toward_elem in Hc. lia. }
  assert (Hbin : peek s' x y = 0 \/ peek s' x y = 1)
    by (apply (generated_binary w Hd); exact Hb).
  destruct Hbin as [->| H1]; [reflexivity|].
  exfalso. apply Hnot. apply (Hex x y Hb). exact H1.
Qed.

Lemma generate_edge_is_wall_witness :
  dims_ok (gen Fixtures.roomy_world)
  /\ 1 <= room_min_size (gen Fixtures.roomy_world)
  /\ on_edge (gen (snd (generate Fixtures.roomy_world))) 0 7
  /\ get_tile_at (gen (snd (generate Fixtures.roomy_world))) 0 7 = Ok 0.
Proof.
  assert (H1 : 1 <= room_min_size (gen Fixtures.roomy_world))
    by (vm_compute; discriminate).
  assert (H2 : on_edge (gen (snd (generate Fixtures.roomy_world))) 0 7)
    by (left; reflexivity).
  split; [exact dims_ok_roomy|]. split; [exact H1|]. split; [exact H2|].
  exact (generate_edge_is_wall Fixtures.roomy_world 0 7 dims_ok_roomy H1 H2).
Defined.

(** After [generate], every cell of every room in the room sequence reads
    floor: later rooms and corridors never turn a cell back to wall. *)
Theorem generate_rooms_are_floor (w : World) (r : Rect) (x y : Z) :
  dims_ok (gen w) ->
  r ∈ rooms (gen (snd (generate w))) ->
  (x, y) ∈ rect_cells r ->
  get_tile_at (gen (snd (generate w))) x y = Ok 1
  /\ is_walkable (gen (snd (generate w))) x y = Ok true.
Proof.
  intros Hd Hr Hc.
  destruct (generated_floor_exact w Hd) as [Hd' Hex].
  destruct (generated_rooms w Hd) as (Ew & Eh & _ & Hrooms).
  set (s' := gen (snd (generate w))) in *.
  rewrite Forall_forall in Hrooms.
  destruct (Hrooms r Hr) as ((H1 & H2 & H3 & H4) & _).
  assert (Hb : in_bounds s' x y = true).
  { apply in_bounds_spec. rewrite Ew, Eh.
    apply rect_cells_elem in Hc. unfold left, right, top, bottom in Hc. lia. }
  assert (Hp : peek s' x y = 1).
  { apply (Hex x y Hb). left. exists r. auto. }
  unfold is_walkable. rewrite get_tile_at_peek by exact Hd'.
  rewrite Hb, Hp. auto.
Qed.

Lemma generate_rooms_are_floor_witness :
  dims_ok (gen Fixtures.tight_world)
  /\ {| rect_x := 1; rect_y := 1; rect_w := 6; rect_h := 6 |}
     ∈ rooms (gen (snd (generate Fixtures.tight_world)))
  /\ (6, 6) ∈ rect_cells {| rect_x := 1; rect_y := 1;
                             rect_w := 6; rect_h := 6 |}
  /\ get_tile_at (gen (snd (generate Fixtures.tight_world))) 6 6 = Ok 1
  /\ is_walkable (gen (snd (generate Fixtures.tight_world))) 6 6 = Ok true.
Proof.
  assert (Hd : dims_ok (gen Fixtures.tight_world))
    by (split; [reflexivity|vm_compute; repeat constructor]).
  assert (Hr : {| rect_x := 1; rect_y := 1; rect_w := 6; rect_h := 6 |}
               ∈ rooms (gen (snd (generate Fixtures.tight_world))))
    by (vm_compute; left).
  assert (Hc : (6, 6) ∈ rect_cells {| rect_x := 1; rect_y := 1;
                                       rect_w := 6; rect_h := 6 |})
    by (apply rect_cells_elem; vm_compute; repeat split; discriminate).
  split; [exact Hd|]. split; [exact Hr|]. split; [exact Hc|].
  exact (generate_rooms_are_floor Fixtures.tight_world _ 6 6 Hd Hr Hc).
Defined.

(** ** Regeneration *)

Lemma blank_tilemap (s : t) :
  dims_ok s ->
  tilemap (blank s)
  = replicate (Z.to_nat (width s)) (replicate (Z.to_nat (height s)) 0).
Proof.
  intros Hd. destruct (dims_ok_blank s Hd) as [Hw Hh].
  destruct (blank_fields s) as (Bw & Bh & _).
  apply (list_eq_same_length _ _ (Z.to_nat (width s)));
    [apply length_replicate|lia|].
  intros i col col' Hi Hcol Hcol'.
  rewrite lookup_replicate_2 in Hcol' by exact Hi. injection Hcol' as <-.
  assert (Hlen : Z.of_nat (length col) = height (blank s))
    by exact (Forall_lookup_1 _ _ _ _ Hh Hcol).
  apply (list_eq_same_length _ _ (Z.to_nat (height s)));
    [apply length_replicate|lia|].
  intros j v v' Hj Hv Hv'.
  rewrite lookup_replicate_2 in Hv' by exact Hj. injection Hv' as <-.
  assert (Hp : peek (blank s) (Z.of_nat i) (Z.of_nat j) = 0).
  { apply blank_all_wall; [exact Hd|]. apply in_bounds_spec. lia. }
  unfold peek in Hp. rewrite !Nat2Z.id, Hcol, Hv in Hp. exact Hp.
Qed.

Lemma blank_same_setup (s1 s2 : t) :
  dims_ok s1 -> dims_ok s2 -> same_setup s1 s2 -> blank s1 = blank s2.
Proof.
  intros H1 H2 Hs. unfold same_setup in Hs.
  apply with_tilemap_eta.
  - unfold blank. rewrite !frame_fill. exact Hs.
  - rewrite !blank_tilemap by assumption.
    rewrite (f_equal width Hs : width s1 = width s2).
    rewrite (f_equal height Hs : height s1 = height s2).
    reflexivity.
Qed.

(** [generate] forgets the map it starts from: two well-formed maps of the
    same size and configuration, whatever their grids and rooms hold, are
    turned into the same map by the same random draws, with the same
    outcome. *)
Theorem generate_forgets (w1 w2 : World) :
  dims_ok (gen w1) -> dims_ok (gen w2) ->
  same_setup (gen w1) (gen w2) -> random w1 = random w2 ->
  fst (generate w1) = fst (generate w2)
  /\ gen (snd (generate w1)) = gen (snd (generate w2)).
Proof.
  intros H1 H2 Hs Hr.
  destruct (generated_map w1 H1) as [-> ->].
  destruct (generated_map w2 H2) as [-> ->].
  rewrite (blank_same_setup _ _ H1 H2 Hs), Hr.
  rewrite (f_equal room_count Hs : room_count (gen w1) = room_count (gen w2)).
  auto.
Qed.

(** The map [generate] leaves on a roomy grid: it returns. *)
Lemma generate_roomy (w : World) :
  dims_ok (gen w) ->
  room_min_size (gen w) <= room_max_size (gen w) ->
  1 <= width (gen w) - room_max_size (gen w) - 1 ->
  1 <= height (gen w) - room_max_size (gen w) - 1 ->
  generate w = (Ok tt, snd (generate w))
  /\ length (rooms (gen (snd (generate w))))
     = Z.to_nat (room_count (gen w)).
Proof.
  intros Hd Hmm Hw Hh.
  destruct (generated_map w Hd) as [_ Hf].
  destruct (generated_rooms w Hd) as (_ & _ & Hr & _).
  destruct (blank_fields (gen w)) as (Bw & Bh & _ & _ & Bmin & Bmax).
  set (n := Z.to_nat (room_count (gen w))) in *.
  assert (Hok : fst (build n (blank (gen w)) (random w)) = true)
    by (apply roomy_build; rewrite ?Bw, ?Bh, ?Bmin, ?Bmax; assumption).
  rewrite Hok in Hf. split.
  - destruct (generate w). simpl in *. subst. reflexivity.
  - rewrite Hr. pose proof (build_complete n (blank (gen w)) (random w)) as Hl.
    rewrite Hok in Hl.
    rewrite (drawn_rooms_fields n (gen w)) in Hl by assumption. exact Hl.
Qed.

(** [respawn] on a roomy map with at least one room of size at least 1. *)
Lemma respawn_walkable (w : World) :
  dims_ok (gen w) ->
  1 <= room_count (gen w) ->
  1 <= room_min_size (gen w) ->
  room_min_size (gen w) <= room_max_size (gen w) ->
  1 <= width (gen w) - room_max_size (gen w) - 1 ->
  1 <= height (gen w) - room_max_size (gen w) - 1 ->
  exists x y w',
    Main.respawn w = (Ok (x, y), w')
    /\ gen w' = gen (snd (generate w))
    /\ is_walkable (gen w') x y = Ok true.
Proof.
  intros Hd Hc Hmin Hmm Hw Hh.
  destruct (generate_roomy w Hd Hmm Hw Hh) as [Hrun Hlen].
  destruct (generated_floor_exact w Hd) as [Hd' Hex].
  destruct (generated_rooms w Hd) as (Ew & Eh & _ & Hrooms).
  set (w1 := snd (generate w)) in *.
  destruct (lookup_lt_is_Some_2 (rooms (gen w1)) 0) as [r0 Hr0]; [lia|].
  pose proof (Forall_lookup_1 _ _ _ _ Hrooms Hr0) as (Hb0 & Hw0 & Hh0).
  destruct (center_inside (gen w) r0 Hb0) as [Hin Hcell]; [lia|lia|].
  exists (fst (center r0)), (snd (center r0)), w1.
  assert (Hget : on_gen (rooms_get 0) w1 = (Ok r0, w1)).
  { destruct w1 as [s1 g1]. apply on_gen_run. unfold rooms_get.
    simpl in *. rewrite (py_get_nonneg _ _ r0); [reflexivity|lia|exact Hr0]. }
  split; [|split; [reflexivity|]].
  - unfold Main.respawn.
    erewrite bind_ok by exact Hrun. cbv beta.
    erewrite bind_ok by exact Hget. cbv beta.
    erewrite bind_ok by exact Hget. reflexivity.
  - assert (Hb : in_bounds (gen w1) (fst (center r0)) (snd (center r0)) = true)
      by (apply in_bounds_spec; rewrite Ew, Eh; lia).
    unfold is_walkable. rewrite get_tile_at_peek by exact Hd'.
    rewrite Hb.
    assert (Hp : peek (gen w1) (fst (center r0)) (snd (center r0)) = 1).
    { apply (Hex _ _ Hb). left. exists r0.
      split; [eapply list_elem_of_lookup_2, Hr0|].
      destruct (center r0). exact Hcell. }
    rewrite Hp. reflexivity.
Qed.

(** The space key of the program, on a roomy map with at least one room of
    size at least 1: a new map with all its rooms is generated and the
    player is put on the center of its first room, which is a walkable cell
    of the new map. *)
Theorem respawn_on_floor (w : World) :
  dims_ok (gen w) ->
  1 <= room_count (gen w) ->
  1 <= room_min_size (gen w) ->
  room_min_size (gen w) <= room_max_size (gen w) ->
  1 <= width (gen w) - room_max_size (gen w) - 1 ->
  1 <= height (gen w) - room_max_size (gen w) - 1 ->
  exists x y w',
    Main.respawn w = (Ok (x, y), w')
    /\ Z.of_nat (length (rooms (gen w'))) = room_count (gen w)
    /\ (exists r, rooms (gen w') !! 0%nat = Some r /\ center r = (x, y))
    /\ is_walkable (gen w') x y = Ok true.
Proof.
  intros Hd Hc Hmin Hmm Hw Hh.
  destruct (respawn_walkable w Hd Hc Hmin Hmm Hw Hh)
    as (x & y & w' & Hrun & Hgen & Hwalk).
  destruct (generate_roomy w Hd Hmm Hw Hh) as [Hg Hlen].
  exists x, y, w'. split; [exact Hrun|]. rewrite Hgen.
  split; [rewrite Hlen; lia|]. split; [|rewrite <- Hgen; exact Hwalk].
  destruct (lookup_lt_is_Some_2 (rooms (gen (snd (generate w)))) 0)
    as [r0 Hr0]; [lia|].
  exists r0. split; [exact Hr0|].
  unfold Main.respawn in Hrun.
  erewrite bind_ok in Hrun by exact Hg. cbv beta in Hrun.
  assert (Hget : on_gen (rooms_get 0) (snd (generate w))
                 = (Ok r0, snd (generate w))).
  { destruct (snd (generate w)) as [s1 g1]. apply on_gen_run.
    unfold rooms_get. simpl in *.
    rewrite (py_get_nonneg _ _ r0); [reflexivity|lia|exact Hr0]. }
  erewrite bind_ok in Hrun by exact Hget. cbv beta in Hrun.
  erewrite bind_ok in Hrun by exact Hget. cbv beta in Hrun.
  injection Hrun as <- <- _. reflexivity.
Qed.

Lemma respawn_on_floor_witness :
  dims_ok (gen Fixtures.roomy_world)
  /\ exists x y w',
      Main.respawn Fixtures.roomy_world = (Ok (x, y), w')
      /\ Z.of_nat (length (rooms (gen w'))) = 5
      /\ (exists r, rooms (gen w') !! 0%nat = Some r /\ center r = (x, y))
      /\ is_walkable (gen w') x y = Ok true.
Proof.
  split; [exact dims_ok_roomy|].
  apply (respawn_on_floor Fixtures.roomy_world dims_ok_roomy);
    vm_compute; discriminate.
Defined.

Lemma generate_forgets_witness :
  dims_ok (gen Fixtures.tight_world)
  /\ dims_ok (gen Fixtures.tight_world_generated)
  /\ same_setup (gen Fixtures.tight_world)
                (gen Fixtures.tight_world_generated)
  /\ fst (generate Fixtures.tight_world)
     = fst (generate
              {| gen := gen Fixtures.tight_world_generated;
                 random := random Fixtures.tight_world |})
  /\ gen (snd (generate Fixtures.tight_world))
     = gen (snd (generate
                   {| gen := gen Fixtures.tight_world_generated;
                      random := random Fixtures.tight_world |})).
Proof.
  assert (H1 : dims_ok (gen Fixtures.tight_world))
    by (split; [reflexivity|vm_compute; repeat constructor]).
  assert (Hs : same_setup (gen Fixtures.tight_world)
                          (gen Fixtures.tight_world_generated))
    by (vm_compute; reflexivity).
  split; [exact H1|]. split; [exact dims_ok_tight_generated|].
  split; [exact Hs|].
  exact (generate_forgets Fixtures.tight_world
           {| gen := gen Fixtures.tight_world_generated;
              random := random Fixtures.tight_world |}
           H1 dims_ok_tight_generated Hs eq_refl).
Defined.

(** ** Rooms and corridors as paths *)

(** [create_room] returns on a well-formed grid; it turns the cells of the
    rectangle that lie in the grid into floor, leaves every other cell and
    the room sequence as they are, and clips silently what sticks out. *)
Theorem create_room_clips (s : t) (room : Rect) :
  dims_ok s ->
  exists s',
    create_room room s = (Ok tt, s')
    /\ with_tilemap s' [] = with_tilemap s []
    /\ dims_ok s'
    /\ (forall x y,
          left room <= x < right room -> top room <= y < bottom room ->
          get_tile_at s' x y
          = if in_bounds s x y then Ok 1 else Ok 0)
    /\ (forall x y,
          ~ (left room <= x < right room /\ top room <= y < bottom room) ->
          get_tile_at s' x y = get_tile_at s x y).
Proof.
  intros Hd. exists (carve (rect_cells room) s).
  split; [apply create_room_run; exact Hd|].
  split; [apply frame_fill|].
  split; [apply dims_ok_fill; exact Hd|].
  assert (Hget : forall x y,
             get_tile_at (carve (rect_cells room) s) x y
             = if in_bounds s x y
               then Ok (if bool_decide ((x, y) ∈ rect_cells room)
                        then 1 else peek s x y)
               else Ok 0).
  { intros x y. rewrite get_tile_at_peek by (apply dims_ok_fill; exact Hd).
    rewrite (in_bounds_frame s) by apply frame_fill.
    destruct (in_bounds s x y) eqn:Hb; [|reflexivity].
    pose proof (proj1 (in_bounds_spec s x y) Hb).
    unfold carve. rewrite peek_fill by (exact Hd || lia).
    rewrite Hb, andb_true_r. reflexivity. }
  split.
  - intros x y Hx Hy. rewrite Hget.
    rewrite bool_decide_eq_true_2 by (apply rect_cells_elem; auto).
    reflexivity.
  - intros x y Hout. rewrite Hget, get_tile_at_peek by exact Hd.
    rewrite bool_decide_eq_false_2
      by (rewrite rect_cells_elem; exact Hout).
    destruct (in_bounds s x y); reflexivity.
Qed.

Lemma create_room_clips_witness :
  dims_ok (Fixtures.new_map 8 8)
  /\ exists s',
      create_room {| rect_x := 6; rect_y := -1; rect_w := 5; rect_h := 3 |}
                  (Fixtures.new_map 8 8) = (Ok tt, s')
      /\ get_tile_at s' 7 1 = Ok 1
      /\ get_tile_at s' 8 1 = Ok 0
      /\ get_tile_at s' 5 1 = Ok 0.
Proof.
  assert (Hd : dims_ok (Fixtures.new_map 8 8))
    by (split; [reflexivity|vm_compute; repeat constructor]).
  split; [exact Hd|].
  destruct (create_room_clips (Fixtures.new_map 8 8)
              {| rect_x := 6; rect_y := -1; rect_w := 5; rect_h := 3 |} Hd)
    as (s' & Hrun & _ & _ & Hin & Hout).
  exists s'. split; [exact Hrun|].
  split; [|split].
  - rewrite Hin by (unfold left, right, top, bottom; simpl; lia).
    reflexivity.
  - rewrite Hin by (unfold left, right, top, bottom; simpl; lia).
    reflexivity.
  - rewrite Hout; [reflexivity|].
    unfold left, right, top, bottom. simpl. lia.
Defined.

Lemma steps_of_one_up (n : nat) :
  forall a, steps_of_one (range a (a + Z.of_nat n) ++ [a + Z.of_nat n]).
Proof.
  induction n as [|n IH]; intros a.
  - rewrite range_empty by lia. exact I.
  - rewrite range_cons by lia.
    replace (a + Z.of_nat (Datatypes.S n)) with (a + 1 + Z.of_nat n) by lia.
    specialize (IH (a + 1)).
    destruct n as [|n].
    + rewrite range_empty in * by lia. simpl. split; [lia|exact I].
    + rewrite (range_cons (a + 1)) in * by lia. simpl. split; [lia|exact IH].
Qed.

Lemma steps_of_one_down (n : nat) :
  forall a,
    steps_of_one (map (fun k => a - k) (range 0 (a - (a - Z.of_nat n)))
                  ++ [a - Z.of_nat n]).
Proof.
  induction n as [|n IH]; intros a.
  - rewrite range_empty by lia. exact I.
  - rewrite descending_cons by lia.
    specialize (IH (a - 1)).
    replace (a - 1 - Z.of_nat n) with (a - Z.of_nat (Datatypes.S n)) in IH
      by lia.
    replace (a - 1 - (a - Z.of_nat (Datatypes.S n)))
      with (a - 1 - (a - 1 - Z.of_nat n)) by lia.
    replace (a - Z.of_nat (Datatypes.S n)) with (a - 1 - Z.of_nat n) in * by lia.
    destruct n as [|n].
    + rewrite range_empty in * by lia. simpl. split; [lia|exact I].
    + rewrite descending_cons in * by lia. simpl. split; [lia|exact IH].
Qed.

Lemma steps_of_one_toward (a b : Z) : steps_of_one (toward a b ++ [b]).
Proof.
  unfold toward. destruct (Z.ltb_spec a b).
  - replace b with (a + Z.of_nat (Z.to_nat (b - a))) by lia.
    apply steps_of_one_up.
  - replace b with (a - Z.of_nat (Z.to_nat (a - b))) at 1 2 by lia.
    apply steps_of_one_down.
Qed.

Lemma toward_head (a b : Z) : head (toward a b ++ [b]) = Some a.
Proof.
  unfold toward. destruct (Z.ltb_spec a b).
  - rewrite range_cons by lia. reflexivity.
  - destruct (Z.eq_dec a b) as [->|Hne].
    + rewrite range_empty by lia. reflexivity.
    + rewrite descending_cons by lia. reflexivity.
Qed.

Lemma chain_row (y : Z) (l : list Z) :
  steps_of_one l -> chain (map (fun x => (x, y)) l).
Proof.
  induction l as [|u [|v l] IH]; simpl; auto.
  intros [H1 H2]. split; [|apply IH; exact H2].
  unfold adjacent. simpl. lia.
Qed.

Lemma chain_column (x : Z) (l : list Z) :
  steps_of_one l -> chain (map (fun y => (x, y)) l).
Proof.
  induction l as [|u [|v l] IH]; simpl; auto.
  intros [H1 H2]. split; [|apply IH; exact H2].
  unfold adjacent. simpl. lia.
Qed.

(** Two chains that overlap in one cell make a chain. *)
Lemma chain_join (l1 l2 : list (Z * Z)) (h : Z * Z) :
  chain (l1 ++ [h]) -> chain (h :: l2) -> chain (l1 ++ h :: l2).
Proof.
  intros H1 H2. induction l1 as [|c [|d l1] IH]; simpl in *.
  - exact H2.
  - destruct H1 as [Ha _]. auto.
  - destruct H1 as [Ha H1]. split; [exact Ha|]. apply IH. exact H1.
Qed.

Lemma corridor_path_split (p q : Z * Z) :
  corridor_path p q
  = map (fun x => (x, snd p)) (toward (fst p) (fst q))
    ++ map (fun y => (fst q, y)) (toward (snd p) (snd q) ++ [snd q]).
Proof.
  unfold corridor_path, l_walk. rewrite map_app, <- app_assoc. simpl.
  destruct q. reflexivity.
Qed.

Lemma corridor_path_chain (p q : Z * Z) :
  chain (corridor_path p q)
  /\ head (corridor_path p q) = Some p
  /\ last (corridor_path p q) = Some q.
Proof.
  split; [|split].
  - rewrite corridor_path_split.
    pose proof (toward_head (snd p) (snd q)) as Hh.
    destruct (toward (snd p) (snd q) ++ [snd q]) as [|y0 ys] eqn:E;
      [discriminate|].
    injection Hh as ->. simpl. apply chain_join.
    + change (map (fun x => (x, snd p)) (toward (fst p) (fst q))
              ++ [(fst q, snd p)])
        with (map (fun x => (x, snd p)) (toward (fst p) (fst q))
              ++ map (fun x => (x, snd p)) [fst q]).
      rewrite <- map_app. apply chain_row, steps_of_one_toward.
    + change ((fst q, snd p) :: map (fun y => (fst q, y)) ys)
        with (map (fun y => (fst q, y)) (snd p :: ys)).
      rewrite <- E. apply chain_column, steps_of_one_toward.
  - rewrite corridor_path_split.
    pose proof (toward_head (fst p) (fst q)) as Hx.
    pose proof (toward_head (snd p) (snd q)) as Hy.
    destruct p as [x1 y1], q as [x2 y2]. simpl in *.
    destruct (toward x1 x2) as [|x0 xs] eqn:Ex.
    + simpl in Hx. injection Hx as <-. simpl.
      destruct (toward y1 y2 ++ [y2]); [discriminate|].
      simpl in *. injection Hy as ->. reflexivity.
    + simpl in Hx. injection Hx as ->. reflexivity.
  - unfold corridor_path. apply last_snoc.
Qed.

(** The cells [create_corridor] writes, followed by the end cell, form a
    path from the start to the end in which consecutive cells share a
    side. *)
Theorem corridor_is_a_path (s : t) (p q : Z * Z) :
  create_corridor p q s
  = forM_ (l_walk p q) (fun c => carve_cell (fst c) (snd c)) s
  /\ corridor_path p q = l_walk p q ++ [q]
  /\ chain (corridor_path p q)
  /\ head (corridor_path p q) = Some p
  /\ last (corridor_path p q) = Some q.
Proof.
  split; [apply create_corridor_traversal|]. split; [reflexivity|].
  apply corridor_path_chain.
Qed.

Lemma generated_tidy (w : World) :
  dims_ok (gen w) -> 0 <= room_min_size (gen w) ->
  tidy (gen (snd (generate w))).
Proof.
  intros Hd Hmin. destruct (generated_map w Hd) as [-> _].
  apply tidy_build; [|apply tidy_blank; exact Hd].
  destruct (blank_fields (gen w)) as (_ & _ & _ & _ & -> & _). exact Hmin.
Qed.

(** After [generate] on a map whose smallest room size is at least 1, the
    centers of two consecutive rooms are joined by a path of walkable cells
    in which consecutive cells share a side: the corridor carved between
    them, ending on the center of the second room. *)
Theorem rooms_joined_by_floor (w : World) (i : nat) (a b : Rect) :
  dims_ok (gen w) -> 1 <= room_min_size (gen w) ->
  rooms (gen (snd (generate w))) !! i = Some a ->
  rooms (gen (snd (generate w))) !! Datatypes.S i = Some b ->
  chain (corridor_path (center a) (center b))
  /\ head (corridor_path (center a) (center b)) = Some (center a)
  /\ last (corridor_path (center a) (center b)) = Some (center b)
  /\ Forall (fun c =>
               is_walkable (gen (snd (generate w))) (fst c) (snd c) = Ok true)
            (corridor_path (center a) (center b)).
Proof.
  intros Hd Hmin Ha Hb.
  destruct (corridor_path_chain (center a) (center b)) as (Hc & Hh & Hl).
  split; [exact Hc|]. split; [exact Hh|]. split; [exact Hl|].
  destruct (generated_tidy w Hd) as (Hd' & _ & Hcf); [lia|].
  destruct (generated_floor_exact w Hd) as [_ Hex].
  destruct (generated_rooms w Hd) as (Ew & Eh & _ & Hrooms).
  set (s' := gen (snd (generate w))) in *.
  assert (Hwalk : forall x y, in_bounds s' x y = true -> peek s' x y = 1 ->
                              is_walkable s' x y = Ok true).
  { intros x y Hbd Hp. unfold is_walkable.
    rewrite get_tile_at_peek by exact Hd'. rewrite Hbd, Hp. reflexivity. }
  unfold corridor_path. apply Forall_app. split.
  - apply Forall_forall. intros [x y] Hin.
    destruct (Hcf i a b Ha Hb x y Hin) as [Hbd Hp]. apply Hwalk; assumption.
  - constructor; [|constructor].
    pose proof (Forall_lookup_1 _ _ _ _ Hrooms Hb) as (Hb0 & Hw0 & Hh0).
    destruct (center_inside (gen w) b Hb0) as [Hin Hcell]; [lia|lia|].
    assert (Hbd : in_bounds s' (fst (center b)) (snd (center b)) = true)
      by (apply in_bounds_spec; rewrite Ew, Eh; lia).
    apply Hwalk; [exact Hbd|].
    apply (Hex _ _ Hbd). left. exists b.
    split; [eapply list_elem_of_lookup_2, Hb|].
    destruct (center b). exact Hcell.
Qed.

Lemma rooms_joined_by_floor_witness :
  dims_ok (gen Fixtures.roomy_world)
  /\ 1 <= room_min_size (gen Fixtures.roomy_world)
  /\ exists a b,
      rooms (gen (snd (generate Fixtures.roomy_world))) !! 0%nat = Some a
      /\ rooms (gen (snd (generate Fixtures.roomy_world))) !! 1%nat = Some b
      /\ chain (corridor_path (center a) (center b))
      /\ Forall (fun c =>
                   is_walkable (gen (snd (generate Fixtures.roomy_world)))
                               (fst c) (snd c) = Ok true)
                (corridor_path (center a) (center b)).
Proof.
  assert (H1 : 1 <= room_min_size (gen Fixtures.roomy_world))
    by (vm_compute; discriminate).
  split; [exact dims_ok_roomy|]. split; [exact H1|].
  destruct (rooms (gen (snd (generate Fixtures.roomy_world))) !! 0%nat)
    as [a|] eqn:Ha; [|vm_compute in Ha; discriminate Ha].
  destruct (rooms (gen (snd (generate Fixtures.roomy_world))) !! 1%nat)
    as [b|] eqn:Hb; [|vm_compute in Hb; discriminate Hb].
  exists a, b. split; [reflexivity|]. split; [reflexivity|].
  destruct (rooms_joined_by_floor Fixtures.roomy_world 0 a b
              dims_ok_roomy H1 Ha Hb) as (Hc & _ & _ & Hf).
  split; [exact Hc|exact Hf].
Defined.

(** ** Loading, for any tile size *)

Lemma div_by_negative (a b : Z) : 0 <= a -> b < 0 -> a / b <= 0.
Proof.
  intros Ha Hb. rewrite <- Z.div_opp_opp by lia.
  apply Z.div_le_upper_bound; lia.
Qed.

Lemma sheet_tiles_no_rows (img : Image) (T cols rows : Z) :
  rows <= 0 \/ cols <= 0 -> TileSelector.sheet_tiles img T cols rows = [].
Proof.
  intros H. unfold TileSelector.sheet_tiles. destruct H as [H|H].
  - rewrite (range_empty 0 rows) by lia. reflexivity.
  - rewrite (range_empty 0 cols) by lia. simpl.
    induction (range 0 rows); simpl; auto.
Qed.

(** An image cut with a negative tile size, or smaller than one tile in
    width or height, gives no tile. *)
Lemma sliced_undersized (T : Z) (img : Image) :
  T <> 0 ->
  T < 0 \/ Z.of_N (img_w img) < T \/ Z.of_N (img_h img) < T ->
  TileSelector.sliced T img = [].
Proof.
  intros HT H. unfold TileSelector.sliced. apply sheet_tiles_no_rows.
  destruct (Z.lt_ge_cases T 0) as [Hneg|Hpos].
  - left. apply div_by_negative; lia.
  - destruct H as [H|[H|H]]; [lia| |].
    + right. rewrite Z.div_small by lia. lia.
    + left. rewrite Z.div_small by lia. lia.
Qed.

Lemma slice_loops_run_any (img : Image) (T : Z) :
  T <> 0 ->
  TileSelector.slice_loops img T (Z.of_N (img_w img) / T)
                           (Z.of_N (img_h img) / T) []
  = (Ok tt, TileSelector.sliced T img).
Proof.
  intros HT. destruct (Z.lt_ge_cases T 0) as [Hneg|Hpos].
  - rewrite sliced_undersized by auto.
    unfold TileSelector.slice_loops.
    rewrite (range_empty 0 (Z.of_N (img_h img) / T))
      by (apply div_by_negative; lia).
    reflexivity.
  - apply (slice_loops_run img T _ _ []). exact Hpos.
Qed.

Lemma load_one_picture_any fs T idx p w h l :
  T <> 0 -> fs p = Picture w h ->
  let img := {| img_path := p; img_w := w; img_h := h |} in
  TileSelector.load_one fs T idx p l
  = (Ok tt,
     {| TileSelector.self :=
          {| TileSelector.tile_size :=
               TileSelector.tile_size (TileSelector.self l);
             TileSelector.tileset_images :=
               TileSelector.tileset_images (TileSelector.self l)
               ++ [TileSelector.sliced T img];
             TileSelector.tileset_names :=
               TileSelector.tileset_names (TileSelector.self l)
               ++ [basename p] |};
        TileSelector.stdout :=
          TileSelector.stdout l
          ++ [LoadSuccess idx p
                (Z.of_nat (length (TileSelector.sliced T img)))] |}).
Proof.
  intros HT Hp img.
  unfold TileSelector.load_one, Py.except_pygame,
    TileSelector.path_exists, TileSelector.image_load, Py.bind.
  rewrite Hp. simpl.
  unfold Py.lift, floordiv. destruct (Z.eqb_spec T 0); [contradiction|].
  unfold TileSelector.slice.
  rewrite (slice_loops_run_any {| img_path := p; img_w := w; img_h := h |})
    by exact HT.
  reflexivity.
Qed.

Lemma load_one_picture_zero fs idx p w h l :
  fs p = Picture w h ->
  TileSelector.load_one fs 0 idx p l = (Raise ZeroDivisionError, l).
Proof.
  intros Hp.
  unfold TileSelector.load_one, Py.except_pygame,
    TileSelector.path_exists, TileSelector.image_load, Py.bind.
  rewrite Hp. reflexivity.
Qed.

(** What a loading loop that returned has done. *)
Lemma load_loop_returned fs T :
  forall paths idxs l l',
    length idxs = length paths ->
    forM_ (combine idxs paths)
          (fun '(i, p) => TileSelector.load_one fs T i p) l = (Ok tt, l') ->
    Forall (fun p => fs p <> Undecodable) paths
    /\ (T = 0 -> List.filter (TileSelector.path_exists fs) paths = [])
    /\ TileSelector.tile_size (TileSelector.self l')
       = TileSelector.tile_size (TileSelector.self l)
    /\ TileSelector.tileset_images (TileSelector.self l')
       = TileSelector.tileset_images (TileSelector.self l)
         ++ map (TileSelector.sliced T) (TileSelector.located_images fs paths)
    /\ TileSelector.tileset_names (TileSelector.self l')
       = TileSelector.tileset_names (TileSelector.self l)
         ++ map basename (List.filter (TileSelector.path_exists fs) paths)
    /\ TileSelector.warnings (TileSelector.stdout l')
       = TileSelector.warnings (TileSelector.stdout l)
         ++ List.filter (fun p => negb (TileSelector.path_exists fs p)) paths.
Proof.
  induction paths as [|p paths IH]; intros idxs l l' Hlen Hrun.
  - destruct idxs; simpl in Hrun; injection Hrun as <-.
    all: rewrite !app_nil_r; repeat split; auto.
  - destruct idxs as [|i idxs]; [discriminate|].
    injection Hlen as Hlen.
    simpl in Hrun. unfold Py.bind in Hrun.
    destruct (fs p) as [| |w h] eqn:Ep.
    + assert (Hex : TileSelector.path_exists fs p = false)
        by (unfold TileSelector.path_exists; rewrite Ep; reflexivity).
      rewrite load_one_missing in Hrun by exact Ep.
      destruct (IH _ _ _ Hlen Hrun) as (H1 & H2 & H3 & H4 & H5 & H6).
      simpl in *. rewrite warnings_snoc, <- app_assoc in H6.
      rewrite Hex, Ep. simpl.
      repeat split; auto. constructor; [congruence|exact H1].
    + rewrite load_one_undecodable in Hrun by exact Ep. discriminate.
    + assert (Hex : TileSelector.path_exists fs p = true)
        by (unfold TileSelector.path_exists; rewrite Ep; reflexivity).
      destruct (Z.eq_dec T 0) as [->|HT].
      * rewrite (load_one_picture_zero fs i p w h) in Hrun by exact Ep.
        discriminate.
      * rewrite (load_one_picture_any fs T i p w h) in Hrun by assumption.
        destruct (IH _ _ _ Hlen Hrun) as (H1 & H2 & H3 & H4 & H5 & H6).
        simpl in *. rewrite warnings_snoc, app_nil_r in H6.
        rewrite <- app_assoc in H4, H5.
        rewrite Hex, Ep. simpl.
        repeat split; auto; try contradiction.
        constructor; [congruence|exact H1].
Qed.

(** What a construction of a selector that returned has built. *)
Lemma init_returned fs paths T out sel out' :
  TileSelector.init fs paths T out = (Ok sel, out') ->
  Forall (fun p => fs p <> Undecodable) paths
  /\ (T = 0 -> List.filter (TileSelector.path_exists fs) paths = [])
  /\ TileSelector.tile_size sel = T
  /\ TileSelector.tileset_images sel
     = map (TileSelector.sliced T) (TileSelector.located_images fs paths)
  /\ TileSelector.tileset_names sel
     = map basename (List.filter (TileSelector.path_exists fs) paths)
  /\ TileSelector.warnings out'
     = TileSelector.warnings out
       ++ List.filter (fun p => negb (TileSelector.path_exists fs p)) paths.
Proof.
  unfold TileSelector.init, TileSelector.init_loop, TileSelector.enumerate.
  intros Hrun.
  match type of Hrun with
  | context [forM_ ?c ?b ?l0] => destruct (forM_ c b l0) as [[[]|e|] l'] eqn:E
  end; try discriminate.
  injection Hrun as <- <-.
  destruct (load_loop_returned fs T _ _ _ _ (enumerate_lengths paths) E)
    as (H1 & H2 & H3 & H4 & H5 & H6).
  simpl in *. auto 10.
Qed.

(** ** The selector after loading *)

Lemma selector_sheet (sel : TileSelector.t) (k : nat) (tiles : list Tile) :
  TileSelector.tileset_images sel !! k = Some tiles ->
  TileSelector.get_tile_count sel (Z.of_nat k) = Ok (Z.of_nat (length tiles))
  /\ forall i,
      TileSelector.get_tile sel (Z.of_nat k) i
      = Ok (if (0 <=? i) && (i <? Z.of_nat (length tiles))
            then tiles !! Z.to_nat i else None).
Proof.
  intros Hk. pose proof (lookup_lt_Some _ _ _ Hk) as Hlt.
  assert (Hget : py_get (TileSelector.tileset_images sel) (Z.of_nat k)
                 = Ok tiles)
    by (apply py_get_nonneg; [lia|rewrite Nat2Z.id; exact Hk]).
  unfold TileSelector.get_tile_count, TileSelector.get_tile.
  destruct (Z.leb_spec 0 (Z.of_nat k)); [|lia].
  destruct (Z.ltb_spec (Z.of_nat k)
              (Z.of_nat (length (TileSelector.tileset_images sel)))); [|lia].
  simpl. rewrite Hget. split; [reflexivity|].
  intros i.
  destruct ((0 <=? i) && (i <? Z.of_nat (length tiles))) eqn:Hi;
    [|reflexivity].
  apply andb_true_iff in Hi as [Hi0 Hi1].
  apply Z.leb_le in Hi0. apply Z.ltb_lt in Hi1.
  destruct (py_get_total tiles i) as (tile & Ht & ->); [lia|].
  rewrite Ht. reflexivity.
Qed.

(** A selector that was constructed has one sheet and one name per path
    that exists, in the order of the paths: the name of sheet [k] is the
    base name of the [k]-th existing path, and there is no name outside
    the sheets.  A construction that returned met no undecodable file. *)
Theorem loaded_names_aligned
        (fs : FileSystem) (paths : list string) (T : Z)
        (out out' : list Msg) (sel : TileSelector.t) :
  TileSelector.init fs paths T out = (Ok sel, out') ->
  Forall (fun p => fs p <> Undecodable) paths
  /\ TileSelector.get_tileset_count sel
     = Z.of_nat (length (List.filter (TileSelector.path_exists fs) paths))
  /\ (forall (k : nat) (p : string),
        List.filter (TileSelector.path_exists fs) paths !! k = Some p ->
        TileSelector.get_tileset_name sel (Z.of_nat k)
        = Ok (Some (basename p)))
  /\ (forall k : Z,
        ~ (0 <= k < TileSelector.get_tileset_count sel) ->
        TileSelector.get_tileset_name sel k = Ok None).
Proof.
  intros Hrun.
  destruct (init_returned _ _ _ _ _ _ Hrun) as (Hall & _ & _ & Himg & Hnm & _).
  assert (Hcount : TileSelector.get_tileset_count sel
                   = Z.of_nat (length (List.filter
                                         (TileSelector.path_exists fs) paths))).
  { unfold TileSelector.get_tileset_count.
    rewrite Himg, length_map, located_images_length by exact Hall.
    reflexivity. }
  assert (Hlen : length (TileSelector.tileset_names sel)
                 = length (List.filter (TileSelector.path_exists fs) paths))
    by (rewrite Hnm, length_map; reflexivity).
  split; [exact Hall|]. split; [exact Hcount|]. split.
  - intros k p Hk. pose proof (lookup_lt_Some _ _ _ Hk) as Hlt.
    unfold TileSelector.get_tileset_name. rewrite Hlen.
    destruct (Z.leb_spec 0 (Z.of_nat k)); [|lia].
    destruct (Z.ltb_spec (Z.of_nat k)
                (Z.of_nat (length (List.filter
                                     (TileSelector.path_exists fs) paths))));
      [|lia].
    simpl. rewrite (py_get_nonneg _ _ (basename p)); [reflexivity|lia|].
    rewrite Nat2Z.id, Hnm, map_lookup, Hk. reflexivity.
  - intros k Hout. rewrite Hcount in Hout.
    unfold TileSelector.get_tileset_name. rewrite Hlen.
    destruct (Z.leb_spec 0 k); simpl; [|reflexivity].
    destruct (Z.ltb_spec k
                (Z.of_nat (length (List.filter
                                     (TileSelector.path_exists fs) paths))));
      [lia|reflexivity].
Qed.

Lemma loaded_names_aligned_witness :
  TileSelector.init MoreFixtures.flat_disk MoreFixtures.flat_paths 48 []
  = (Ok MoreFixtures.flat_selector, MoreFixtures.flat_console)
  /\ TileSelector.get_tileset_count MoreFixtures.flat_selector = 2
  /\ TileSelector.get_tileset_name MoreFixtures.flat_selector 1
     = Ok (Some "tileset2.png"%string)
  /\ TileSelector.get_tileset_name MoreFixtures.flat_selector 2 = Ok None.
Proof.
  assert (H : TileSelector.init MoreFixtures.flat_disk
                MoreFixtures.flat_paths 48 []
              = (Ok MoreFixtures.flat_selector, MoreFixtures.flat_console))
    by (vm_compute; reflexivity).
  split; [exact H|].
  destruct (loaded_names_aligned _ _ _ _ _ _ H) as (_ & Hc & Hname & Hnone).
  split; [exact Hc|]. split.
  - apply (Hname 1%nat "tileset2.png"%string). vm_compute. reflexivity.
  - apply Hnone. rewrite Hc. vm_compute. intros [_ Hlt]. discriminate Hlt.
Defined.

(** ** Unusual tile sizes *)

(** The loading loop on paths that are all missing: one warning each. *)
Lemma load_loop_missing fs T :
  forall pre idxs rest l,
    length idxs = length (pre ++ rest) ->
    Forall (fun q => fs q = Missing) pre ->
    exists l',
      forM_ (combine idxs (pre ++ rest))
            (fun '(i, q) => TileSelector.load_one fs T i q) l
      = forM_ (combine (drop (length pre) idxs) rest)
              (fun '(i, q) => TileSelector.load_one fs T i q) l'
      /\ TileSelector.self l' = TileSelector.self l
      /\ TileSelector.stdout l'
         = TileSelector.stdout l ++ map MissingFileWarning pre.
Proof.
  induction pre as [|q pre IH]; intros idxs rest l Hlen Hall.
  - exists l. simpl. rewrite app_nil_r. auto.
  - destruct idxs as [|i idxs]; [discriminate|].
    apply Forall_cons in Hall as [Hq Hall]. injection Hlen as Hlen.
    simpl. unfold Py.bind. rewrite load_one_missing by exact Hq.
    match goal with
    | |- context [forM_ _ _ ?l0] =>
        destruct (IH idxs rest l0 Hlen Hall) as (l' & Hrun & Hs & Ho)
    end.
    exists l'. rewrite Hrun. simpl in *. rewrite <- app_assoc in Ho. auto.
Qed.

(** With a tile size of zero the first path that exists decides: an image
    makes the construction raise [ZeroDivisionError], which the handler of
    pygame errors does not catch; an undecodable file raises the
    [RuntimeError] as usual; when no path exists the construction returns
    an empty selector. *)
Theorem zero_tile_size
        (fs : FileSystem) (pre post : list string) (p : string)
        (out : list Msg) :
  Forall (fun q => fs q = Missing) pre ->
  (forall w h, fs p = Picture w h ->
     TileSelector.init fs (pre ++ p :: post) 0 out
     = (Raise ZeroDivisionError, out ++ map MissingFileWarning pre))
  /\ (fs p = Undecodable ->
      TileSelector.init fs (pre ++ p :: post) 0 out
      = (Raise (RuntimeError p), out ++ map MissingFileWarning pre))
  /\ TileSelector.init fs pre 0 out
     = (Ok {| TileSelector.tile_size := 0;
              TileSelector.tileset_images := [];
              TileSelector.tileset_names := [] |},
        out ++ map MissingFileWarning pre).
Proof.
  intros Hpre.
  assert (Hloop : forall rest,
    exists l',
      TileSelector.init_loop fs 0 (pre ++ rest)
        {| TileSelector.self :=
             {| TileSelector.tile_size := 0;
                TileSelector.tileset_images := [];
                TileSelector.tileset_names := [] |};
           TileSelector.stdout := out |}
      = forM_ (combine (drop (length pre)
                          (range 0 (Z.of_nat (length (pre ++ rest))))) rest)
              (fun '(i, q) => TileSelector.load_one fs 0 i q) l'
      /\ TileSelector.self l'
         = {| TileSelector.tile_size := 0;
              TileSelector.tileset_images := [];
              TileSelector.tileset_names := [] |}
      /\ TileSelector.stdout l' = out ++ map MissingFileWarning pre).
  { intros rest. unfold TileSelector.init_loop, TileSelector.enumerate.
    apply load_loop_missing; [apply enumerate_lengths|exact Hpre]. }
  split; [|split].
  - intros w h Hp. destruct (Hloop (p :: post)) as (l' & Hrun & Hs & Ho).
    unfold TileSelector.init. rewrite Hrun.
    destruct (drop (length pre) _) as [|i idxs] eqn:Ed.
    + exfalso. apply (f_equal length) in Ed.
      rewrite length_drop, range_length, length_app in Ed. simpl in Ed. lia.
    + simpl. unfold Py.bind.
      rewrite (load_one_picture_zero fs i p w h) by exact Hp.
      rewrite Ho. reflexivity.
  - intros Hp. destruct (Hloop (p :: post)) as (l' & Hrun & Hs & Ho).
    unfold TileSelector.init. rewrite Hrun.
    destruct (drop (length pre) _) as [|i idxs] eqn:Ed.
    + exfalso. apply (f_equal length) in Ed.
      rewrite length_drop, range_length, length_app in Ed. simpl in Ed. lia.
    + simpl. unfold Py.bind.
      rewrite load_one_undecodable by exact Hp.
      rewrite Ho. reflexivity.
  - destruct (Hloop []) as (l' & Hrun & Hs & Ho).
    rewrite app_nil_r in Hrun.
    unfold TileSelector.init. rewrite Hrun.
    destruct (drop (length pre) _); simpl; rewrite Hs, Ho; reflexivity.
Qed.

Lemma zero_tile_size_witness :
  Forall (fun q => Fixtures.one_sheet q = Missing) ["missing.png"%string]
  /\ TileSelector.init Fixtures.one_sheet
       ["missing.png"; "assets/tileset1.png"]%string 0 []
     = (Raise ZeroDivisionError, [MissingFileWarning "missing.png"]).
Proof.
  assert (H : Forall (fun q => Fixtures.one_sheet q = Missing)
                     ["missing.png"%string])
    by (repeat constructor).
  split; [exact H|].
  exact (proj1 (zero_tile_size Fixtures.one_sheet ["missing.png"%string] []
                  "assets/tileset1.png"%string [] H) 480%N 48%N eq_refl).
Defined.

(** A located image that is smaller than one tile in width or in height,
    or any image when the tile size is negative, still becomes a sheet of
    the selector, but a sheet without tiles: its tile count is 0 and
    [get_tile] answers [None] for every index. *)
Theorem undersized_sheet_is_empty
        (fs : FileSystem) (paths : list string) (T : Z)
        (out out' : list Msg) (sel : TileSelector.t)
        (k : nat) (img : Image) :
  TileSelector.init fs paths T out = (Ok sel, out') ->
  TileSelector.located_images fs paths !! k = Some img ->
  T < 0 \/ Z.of_N (img_w img) < T \/ Z.of_N (img_h img) < T ->
  0 <= Z.of_nat k < TileSelector.get_tileset_count sel
  /\ TileSelector.get_tile_count sel (Z.of_nat k) = Ok 0
  /\ forall i, TileSelector.get_tile sel (Z.of_nat k) i = Ok None.
Proof.
  intros Hrun Hk Hsmall.
  destruct (init_returned _ _ _ _ _ _ Hrun) as (Hall & H0 & _ & Himg & _ & _).
  pose proof (lookup_lt_Some _ _ _ Hk) as Hlt.
  assert (HT : T <> 0).
  { intros ->. rewrite located_images_length in Hlt by exact Hall.
    rewrite H0 in Hlt by reflexivity. simpl in Hlt. lia. }
  assert (Hsheet : TileSelector.tileset_images sel !! k = Some []).
  { rewrite Himg, map_lookup, Hk. simpl.
    rewrite sliced_undersized by assumption. reflexivity. }
  destruct (selector_sheet sel k [] Hsheet) as [Hc Hg].
  split; [|split; [exact Hc|]].
  - unfold TileSelector.get_tileset_count.
    rewrite Himg, length_map. lia.
  - intros i. rewrite Hg.
    destruct ((0 <=? i) && (i <? Z.of_nat (length (@nil Tile)))) eqn:E;
      [|reflexivity].
    apply andb_true_iff in E as [E1 E2].
    apply Z.leb_le in E1. apply Z.ltb_lt in E2. simpl in E2. lia.
Qed.

Lemma undersized_sheet_is_empty_witness :
  TileSelector.init MoreFixtures.tiny_sheet ["assets/tileset1.png"%string]
                    48 []
  = (Ok {| TileSelector.tile_size := 48;
           TileSelector.tileset_images := [[]];
           TileSelector.tileset_names := ["tileset1.png"%string] |},
     [LoadSuccess 0 "assets/tileset1.png" 0])
  /\ TileSelector.get_tile_count
       {| TileSelector.tile_size := 48;
          TileSelector.tileset_images := [[]];
          TileSelector.tileset_names := ["tileset1.png"%string] |} 0
     = Ok 0.
Proof.
  assert (H : TileSelector.init MoreFixtures.tiny_sheet
                ["assets/tileset1.png"%string] 48 []
              = (Ok {| TileSelector.tile_size := 48;
                       TileSelector.tileset_images := [[]];
                       TileSelector.tileset_names :=
                         ["tileset1.png"%string] |},
                 [LoadSuccess 0 "assets/tileset1.png" 0]))
    by (vm_compute; reflexivity).
  split; [exact H|].
  refine (proj1 (proj2 (undersized_sheet_is_empty _ _ _ _ _ _ 0%nat
            {| img_path := "assets/tileset1.png"; img_w := 30; img_h := 30 |}
            H _ _))).
  - vm_compute. reflexivity.
  - right. left. vm_compute. reflexivity.
Defined.

(** ** The constructor of the map *)

Lemma path_exists_false fs p :
  TileSelector.path_exists fs p = false <-> fs p = Missing.
Proof.
  unfold TileSelector.path_exists. destruct (fs p); split; congruence.
Qed.

(** The search for the tile sheets, unrolled. *)
Lemma find_tileset_paths_cases fs :
  find_tileset_paths fs possible_paths
  = if TileSelector.path_exists fs "assets/tileset1.png"
    then Ok (Some (List.filter (TileSelector.path_exists fs)
                     ["assets/tileset1.png"; "assets/tileset2.png"]%string))
    else if TileSelector.path_exists fs "Assets/tileset1.png"
    then Ok (Some (List.filter (TileSelector.path_exists fs)
                     ["Assets/tileset1.png"; "Assets/tileset2.png"]%string))
    else if TileSelector.path_exists fs "tileset1.png"
    then Ok (Some (List.filter (TileSelector.path_exists fs)
                     ["tileset1.png"; "tileset2.png"]%string))
    else Ok None.
Proof. reflexivity. Qed.

(** The search finds nothing, or a first sheet that exists and possibly a
    second one. *)
Lemma find_tileset_paths_found fs :
  (find_tileset_paths fs possible_paths = Ok None
   /\ Forall (fun p => fs p = Missing) first_sheet_paths)
  \/ exists p ps,
      find_tileset_paths fs possible_paths = Ok (Some (p :: ps))
      /\ p ∈ first_sheet_paths
      /\ Forall (fun q => TileSelector.path_exists fs q = true) (p :: ps)
      /\ (length ps <= 1)%nat.
Proof.
  rewrite find_tileset_paths_cases. unfold first_sheet_paths.
  destruct (TileSelector.path_exists fs "assets/tileset1.png") eqn:E1.
  { right. simpl. rewrite E1.
    destruct (TileSelector.path_exists fs "assets/tileset2.png") eqn:E2;
      eexists _, _; (split; [reflexivity|]);
      (split; [repeat constructor|]); split;
      repeat constructor; auto. }
  destruct (TileSelector.path_exists fs "Assets/tileset1.png") eqn:E3.
  { right. simpl. rewrite E3.
    destruct (TileSelector.path_exists fs "Assets/tileset2.png") eqn:E2;
      eexists _, _; (split; [reflexivity|]);
      (split; [repeat constructor|]); split;
      repeat constructor; auto. }
  destruct (TileSelector.path_exists fs "tileset1.png") eqn:E4.
  { right. simpl. rewrite E4.
    destruct (TileSelector.path_exists fs "tileset2.png") eqn:E2;
      eexists _, _; (split; [reflexivity|]);
      (split; [repeat constructor|]); split;
      repeat constructor; auto. }
  left. split; [reflexivity|].
  repeat constructor; apply path_exists_false; assumption.
Qed.

(** The loading loop raises nothing but [ZeroDivisionError] and
    [RuntimeError], and does not run out of fuel. *)
Lemma load_loop_errors fs T :
  forall paths idxs l,
    length idxs = length paths ->
    match fst (forM_ (combine idxs paths)
                     (fun '(i, p) => TileSelector.load_one fs T i p) l) with
    | Ok _ => True
    | Raise e => e = ZeroDivisionError \/ exists p, e = RuntimeError p
    | OutOfFuel => False
    end.
Proof.
  induction paths as [|p paths IH]; intros idxs l Hlen.
  - destruct idxs; exact I.
  - destruct idxs as [|i idxs]; [discriminate|]. injection Hlen as Hlen.
    simpl. unfold Py.bind.
    destruct (fs p) as [| |w h] eqn:Ep.
    + rewrite load_one_missing by exact Ep. apply IH. exact Hlen.
    + rewrite load_one_undecodable by exact Ep. simpl. eauto.
    + destruct (Z.eq_dec T 0) as [->|HT].
      * rewrite (load_one_picture_zero fs i p w h) by exact Ep. simpl. auto.
      * rewrite (load_one_picture_any fs T i p w h) by assumption.
        apply IH. exact Hlen.
Qed.

Lemma selector_init_errors fs paths T out :
  match fst (TileSelector.init fs paths T out) with
  | Ok _ => True
  | Raise e => e = ZeroDivisionError \/ exists p, e = RuntimeError p
  | OutOfFuel => False
  end.
Proof.
  unfold TileSelector.init, TileSelector.init_loop, TileSelector.enumerate.
  match goal with
  | |- context [forM_ ?c ?b ?l0] =>
      pose proof (load_loop_errors fs T paths _ l0 (enumerate_lengths paths))
        as H;
      destruct (forM_ c b l0) as [[[]|e|] l']
  end; simpl in *; auto.
Qed.

(** The constructor raises [FileNotFoundError] exactly when the first tile
    sheet is in none of the three places it is looked for, whatever else
    the disk holds; nothing is printed then. *)
Theorem init_file_not_found
        (fs : FileSystem) (W H T a b c d : Z) (out : list Msg) :
  Forall (fun p => fs p = Missing) first_sheet_paths
  <-> exists out',
      init fs W H T a b c d out = (Raise FileNotFoundError, out').
Proof.
  unfold init, Py.bind, Py.lift, Py.raise, Py.ret.
  destruct (find_tileset_paths_found fs)
    as [[-> Hall]|(p & ps & -> & Hp & Hex & _)].
  - split; [eauto|auto].
  - split.
    + intros Hall. exfalso. rewrite Forall_forall in Hall.
      apply Forall_cons in Hex as [Hex _].
      specialize (Hall p Hp). apply path_exists_false in Hall. congruence.
    + intros (out' & Hrun). exfalso.
      pose proof (selector_init_errors fs (p :: ps) T out) as Herr.
      destruct (TileSelector.init fs (p :: ps) T out) as [[sel|e|] out2];
        simpl in *; try discriminate.
      injection Hrun as -> _. destruct Herr as [E|(q & E)]; discriminate.
Qed.

(** What a constructor that returned has built. *)
Lemma init_returned_map fs W H T a b c d out s out' :
  init fs W H T a b c d out = (Ok s, out') ->
  exists p ps,
    p ∈ first_sheet_paths
    /\ find_tileset_paths fs possible_paths = Ok (Some (p :: ps))
    /\ Forall (fun q => TileSelector.path_exists fs q = true) (p :: ps)
    /\ (length ps <= 1)%nat
    /\ TileSelector.init fs (p :: ps) T out = (Ok (tile_selector s), out')
    /\ s = {| width := W; height := H; tile_size := T;
              room_count := 5; room_min_size := 6; room_max_size := 15;
              tilemap := map (fun _ => map (fun _ => 0) (range 0 H))
                             (range 0 W);
              rooms := [];
              tile_selector := tile_selector s;
              floor_tileset := a; floor_tile := b;
              wall_tileset := c; wall_tile := d |}.
Proof.
  unfold init, Py.bind, Py.lift, Py.raise, Py.ret.
  destruct (find_tileset_paths_found fs)
    as [[-> Hall]|(p & ps & -> & Hp & Hex & Hlen)]; [discriminate|].
  destruct (TileSelector.init fs (p :: ps) T out) as [[sel|e|] out2] eqn:Es;
    try discriminate.
  intros E. injection E as <- <-.
  exists p, ps. simpl. repeat split; auto.
Qed.

Lemma filter_all_true {A} (f : A -> bool) (l : list A) :
  Forall (fun x => f x = true) l -> List.filter f l = l.
Proof.
  induction 1 as [|x l Hx _ IH]; simpl; [reflexivity|].
  rewrite Hx, IH. reflexivity.
Qed.

(** A map that was constructed has one or two sheets, a tile size that is
    not zero, no room, the room configuration 5, 6, 15, the tile
    references and sizes it was given, and a grid that reads wall at every
    coordinate. *)
Theorem constructed_map
        (fs : FileSystem) (W H T a b c d : Z) (out out' : list Msg) (s : t) :
  init fs W H T a b c d out = (Ok s, out') ->
  1 <= TileSelector.get_tileset_count (tile_selector s) <= 2
  /\ tile_size s = T /\ T <> 0
  /\ TileSelector.tile_size (tile_selector s) = T
  /\ width s = W /\ height s = H /\ rooms s = []
  /\ room_count s = 5 /\ room_min_size s = 6 /\ room_max_size s = 15
  /\ floor_tileset s = a /\ floor_tile s = b
  /\ wall_tileset s = c /\ wall_tile s = d
  /\ forall x y, get_tile_at s x y = Ok 0 /\ is_walkable s x y = Ok false.
Proof.
  intros Hinit.
  destruct (init_returned_map _ _ _ _ _ _ _ _ _ _ _ Hinit)
    as (p & ps & _ & _ & Hex & Hlen & Hsel & Hs).
  destruct (init_returned _ _ _ _ _ _ Hsel) as (Hall & H0 & Hts & Himg & _).
  assert (Hcount : TileSelector.get_tileset_count (tile_selector s)
                   = Z.of_nat (length (p :: ps))).
  { unfold TileSelector.get_tileset_count.
    rewrite Himg, length_map, located_images_length by exact Hall.
    rewrite filter_all_true by exact Hex. reflexivity. }
  assert (HT : T <> 0).
  { intros E. specialize (H0 E).
    rewrite filter_all_true in H0 by exact Hex. discriminate. }
  rewrite Hcount. simpl length.
  assert (Hget : forall x y, get_tile_at s x y = Ok 0).
  { intros x y. unfold get_tile_at.
    destruct (in_bounds s x y) eqn:Hb; [|reflexivity].
    assert (Hxy : 0 <= x < W /\ 0 <= y < H).
    { apply in_bounds_spec in Hb. rewrite Hs in Hb. exact Hb. }
    unfold load. rewrite Hs. simpl.
    rewrite (py_get_nonneg _ _ (map (fun _ => 0) (range 0 H)));
      [|lia|rewrite map_lookup, range_lookup by lia; reflexivity].
    apply py_get_nonneg; [lia|].
    rewrite map_lookup, range_lookup by lia. reflexivity. }
  rewrite Hs. simpl. repeat split; try lia; try assumption.
  - rewrite Hs in Hget. apply Hget.
  - unfold is_walkable. rewrite Hs in Hget. rewrite Hget. reflexivity.
Qed.

Lemma constructed_map_witness :
  init MoreFixtures.flat_disk 8 8 48 0 0 1 1 []
  = (Ok MoreFixtures.flat_map,
     [LoadSuccess 0 "tileset1.png" 10; LoadSuccess 1 "tileset2.png" 4])
  /\ 1 <= TileSelector.get_tileset_count
            (tile_selector MoreFixtures.flat_map) <= 2
  /\ get_tile_at MoreFixtures.flat_map 3 3 = Ok 0.
Proof.
  assert (Hi : init MoreFixtures.flat_disk 8 8 48 0 0 1 1 []
               = (Ok MoreFixtures.flat_map,
                  [LoadSuccess 0 "tileset1.png" 10;
                   LoadSuccess 1 "tileset2.png" 4]))
    by (vm_compute; reflexivity).
  split; [exact Hi|].
  pose proof (constructed_map _ _ _ _ _ _ _ _ _ _ _ Hi) as Hc.
  split; [exact (proj1 Hc)|].
  exact (proj1 (proj2 (proj2 (proj2 (proj2 (proj2 (proj2 (proj2 (proj2
           (proj2 (proj2 (proj2 (proj2 (proj2 (proj2 Hc))))))))))))) 3 3)).
Defined.

Lemma init_file_not_found_witness :
  Forall (fun p => MoreFixtures.empty_disk p = Missing) first_sheet_paths
  /\ exists out',
      init MoreFixtures.empty_disk 50 50 48 0 0 0 1 []
      = (Raise FileNotFoundError, out').
Proof.
  assert (H : Forall (fun p => MoreFixtures.empty_disk p = Missing)
                     first_sheet_paths)
    by (repeat constructor).
  split; [exact H|].
  exact (proj1 (init_file_not_found MoreFixtures.empty_disk
                  50 50 48 0 0 0 1 []) H).
Defined.

(** ** Sequences of operations *)

Lemma same_setup_shape (s1 s2 : t) : same_setup s1 s2 -> same_shape s1 s2.
Proof.
  intros H. unfold same_setup in H. unfold same_shape.
  split; [exact (f_equal width H)|].
  split; [exact (f_equal height H)|].
  split; [exact (f_equal tile_size H)|].
  split; [exact (f_equal tile_selector H)|].
  split; [exact (f_equal room_count H)|].
  split; [exact (f_equal room_min_size H)|].
  exact (f_equal room_max_size H).
Qed.

Lemma same_shape_trans (s1 s2 s3 : t) :
  same_shape s1 s2 -> same_shape s2 s3 -> same_shape s1 s3.
Proof.
  unfold same_shape.
  intros (A1 & A2 & A3 & A4 & A5 & A6 & A7) (B1 & B2 & B3 & B4 & B5 & B6 & B7).
  repeat split; congruence.
Qed.

Lemma same_setup_fill (v : Z) (cells : list (Z * Z)) (s : t) :
  same_setup (fill v cells s) s.
Proof.
  unfold same_setup.
  exact (f_equal (fun m => with_rooms m []) (frame_fill v cells s)).
Qed.

Lemma same_setup_add_room (s : t) (r : Rect) : same_setup (add_room s r) s.
Proof.
  unfold same_setup.
  exact (f_equal (fun m => with_rooms m []) (frame_add_room s r)).
Qed.

Lemma same_setup_build (n : nat) :
  forall (s : t) (g : Random), same_setup (snd (build n s g)) s.
Proof.
  induction n as [|n IH]; intros s g; simpl; [reflexivity|].
  destruct (placeable s g); [|reflexivity].
  unfold same_setup in *. rewrite IH. apply same_setup_add_room.
Qed.

Lemma same_setup_generate (w : World) :
  dims_ok (gen w) -> same_setup (gen (snd (generate w))) (gen w).
Proof.
  intros Hd. destruct (generated_map w Hd) as [-> _].
  unfold same_setup. rewrite same_setup_build.
  exact (f_equal (fun m => with_rooms m [])
                 (frame_fill 0 _ (with_rooms (gen w) []))).
Qed.

(** Every operation keeps the grid well formed and the shape of the map. *)
Lemma run_op_shape (op : Op) (w : World) :
  dims_ok (gen w) ->
  dims_ok (gen (run_op op w)) /\ same_shape (gen (run_op op w)) (gen w).
Proof.
  intros Hd. destruct w as [s g]. destruct op; simpl in *.
  - split; [apply (generated_floor_exact {| gen := s; random := g |} Hd)|].
    apply same_setup_shape,
      (same_setup_generate {| gen := s; random := g |} Hd).
  - rewrite (on_gen_run _ s _ g _ (create_room_run room s Hd)). simpl.
    split; [apply dims_ok_fill, Hd|]. apply same_setup_shape, same_setup_fill.
  - rewrite (on_gen_run _ s _ g _ (create_corridor_run start end_ s Hd)).
    simpl.
    split; [apply dims_ok_fill, Hd|]. apply same_setup_shape, same_setup_fill.
  - split; [exact Hd|]. repeat split.
  - split; [exact Hd|]. repeat split.
  - split; [exact Hd|]. repeat split.
  - split; [exact Hd|]. repeat split.
Qed.

Lemma run_ops_shape (ops : list Op) :
  forall w,
    dims_ok (gen w) ->
    dims_ok (gen (run_ops ops w)) /\ same_shape (gen (run_ops ops w)) (gen w).
Proof.
  induction ops as [|op ops IH]; intros w Hd.
  - split; [exact Hd|]. repeat split.
  - destruct (run_op_shape op w Hd) as [Hd1 Hs1].
    destruct (IH (run_op op w) Hd1) as [Hd2 Hs2].
    split; [exact Hd2|]. exact (same_shape_trans _ _ _ Hs2 Hs1).
Qed.

(** [draw] on a well-formed grid with a tile size that is not zero. *)
Lemma draw_returns (s : t) (sf : Surface) (cx cy : Z) :
  dims_ok s -> tile_size s <> 0 ->
  draw s cx cy sf
  = (Ok tt, drawn_on sf (floor_calls s sf cx cy ++ wall_calls s sf cx cy)).
Proof.
  intros Hd Hts. unfold draw.
  erewrite bind_ok by reflexivity. cbv beta zeta.
  assert (Hdiv : forall a (sf' : Surface),
             Py.lift (floordiv a (tile_size s)) sf'
             = (Ok (a / tile_size s), sf')).
  { intros a sf'. unfold Py.lift, floordiv.
    destruct (Z.eqb_spec (tile_size s) 0); [contradiction|reflexivity]. }
  do 4 (erewrite bind_ok by apply Hdiv; cbv beta zeta).
  do 2 (erewrite bind_ok
          by (unfold Py.lift; rewrite get_tile_image; reflexivity);
        cbv beta zeta).
  rewrite <- drawn_on_app.
  assert (Hin : forall c, c ∈ window s sf cx cy ->
                          in_bounds s (fst c) (snd c) = true)
    by (intros c; apply window_in_bounds).
  unfold floor_calls, wall_calls, window in *.
  unfold Py.bind at 1. rewrite nested_ranges. cbv beta.
  rewrite floor_pass_run by assumption.
  rewrite nested_ranges. cbv beta.
  apply wall_pass_run; assumption.
Qed.

Lemma constructed_dims_ok fs W H T a b c d out s out' :
  0 <= W -> 0 <= H ->
  init fs W H T a b c d out = (Ok s, out') -> dims_ok s.
Proof.
  intros HW HH Hinit.
  destruct (init_grid _ _ _ _ _ _ _ _ _ _ _ Hinit) as (Ew & Eh & Etm).
  apply fresh_grid_inv; rewrite ?Ew, ?Eh; assumption.
Qed.

Lemma constructed_tile_size fs W H T a b c d out s out' :
  init fs W H T a b c d out = (Ok s, out') -> tile_size s <> 0.
Proof.
  intros Hinit.
  destruct (init_returned_map _ _ _ _ _ _ _ _ _ _ _ Hinit)
    as (p & ps & _ & _ & Hex & _ & Hsel & Hs).
  destruct (init_returned _ _ _ _ _ _ Hsel) as (_ & H0 & _).
  rewrite Hs. simpl. intros E. specialize (H0 E).
  rewrite filter_all_true in H0 by exact Hex. discriminate.
Qed.

(** On a map constructed with non-negative dimensions, after any sequence
    of operations and with any random draws, [draw] returns for every
    surface and camera position, and the two queries return at every
    coordinate: no operation can bring the map into a state in which they
    raise. *)
Theorem constructed_map_never_raises
        (fs : FileSystem) (W H T a b c d : Z) (out out' : list Msg) (s : t)
        (ops : list Op) (g : Random) :
  0 <= W -> 0 <= H ->
  init fs W H T a b c d out = (Ok s, out') ->
  (forall sf cx cy,
      fst (draw (gen (run_ops ops {| gen := s; random := g |})) cx cy sf)
      = Ok tt)
  /\ (forall x y,
        exists v,
          get_tile_at (gen (run_ops ops {| gen := s; random := g |})) x y
          = Ok v
          /\ is_walkable (gen (run_ops ops {| gen := s; random := g |})) x y
             = Ok (v =? 1))
  /\ width (gen (run_ops ops {| gen := s; random := g |})) = W
  /\ height (gen (run_ops ops {| gen := s; random := g |})) = H.
Proof.
  intros HW HH Hinit.
  pose proof (constructed_dims_ok _ _ _ _ _ _ _ _ _ _ _ HW HH Hinit) as Hd.
  pose proof (constructed_tile_size _ _ _ _ _ _ _ _ _ _ _ Hinit) as Hts.
  destruct (init_grid _ _ _ _ _ _ _ _ _ _ _ Hinit) as (Ew & Eh & _).
  destruct (run_ops_shape ops {| gen := s; random := g |} Hd)
    as [Hd' (Sw & Sh & Sts & _)].
  simpl in Sw, Sh, Sts.
  set (s' := gen (run_ops ops {| gen := s; random := g |})) in *.
  split; [|split; [|split; congruence]].
  - intros sf cx cy. rewrite draw_returns; [reflexivity|exact Hd'|congruence].
  - intros x y. unfold is_walkable.
    rewrite get_tile_at_peek by exact Hd'. eauto.
Qed.

Lemma constructed_map_never_raises_witness :
  0 <= 8
  /\ init MoreFixtures.flat_disk 8 8 48 0 0 1 1 []
     = (Ok MoreFixtures.flat_map,
        [LoadSuccess 0 "tileset1.png" 10; LoadSuccess 1 "tileset2.png" 4])
  /\ fst (draw (gen (run_ops
                      [OpGenerate;
                       OpCreateRoom {| rect_x := -3; rect_y := 2;
                                       rect_w := 20; rect_h := 2 |};
                       OpSetTiles 7 7 7 7]
                      {| gen := MoreFixtures.flat_map;
                         random := random Fixtures.tight_world |}))
               10 20 Fixtures.screen)
     = Ok tt.
Proof.
  assert (H8 : 0 <= 8) by lia.
  assert (Hi : init MoreFixtures.flat_disk 8 8 48 0 0 1 1 []
               = (Ok MoreFixtures.flat_map,
                  [LoadSuccess 0 "tileset1.png" 10;
                   LoadSuccess 1 "tileset2.png" 4]))
    by (vm_compute; reflexivity).
  split; [exact H8|]. split; [exact Hi|].
  exact (proj1 (constructed_map_never_raises _ _ _ _ _ _ _ _ _ _ _
                  [OpGenerate;
                   OpCreateRoom {| rect_x := -3; rect_y := 2;
                                   rect_w := 20; rect_h := 2 |};
                   OpSetTiles 7 7 7 7]
                  (random Fixtures.tight_world) H8 H8 Hi)
               Fixtures.screen 10 20).
Defined.

(** ** The program on a constructed map *)

(** On a map constructed with at least 17 x 17 cells (the program uses
    50 x 50), after any sequence of operations and with any random draws,
    the space key never raises: a new map with five rooms is generated and
    the player lands on a walkable cell. *)
Theorem constructed_map_respawns
        (fs : FileSystem) (W H T a b c d : Z) (out out' : list Msg) (s : t)
        (ops : list Op) (g : Random) :
  17 <= W -> 17 <= H ->
  init fs W H T a b c d out = (Ok s, out') ->
  exists x y w',
    Main.respawn (run_ops ops {| gen := s; random := g |}) = (Ok (x, y), w')
    /\ length (rooms (gen w')) = 5%nat
    /\ is_walkable (gen w') x y = Ok true.
Proof.
  intros HW HH Hinit.
  assert (HW0 : 0 <= W) by lia.
  assert (HH0 : 0 <= H) by lia.
  pose proof (constructed_dims_ok _ _ _ _ _ _ _ _ _ _ _ HW0 HH0 Hinit) as Hd.
  destruct (init_returned_map _ _ _ _ _ _ _ _ _ _ _ Hinit)
    as (_ & _ & _ & _ & _ & _ & _ & Hs).
  destruct (run_ops_shape ops {| gen := s; random := g |} Hd)
    as [Hd' (Sw & Sh & _ & _ & Sc & Smin & Smax)].
  simpl in Sw, Sh, Sc, Smin, Smax.
  set (w := run_ops ops {| gen := s; random := g |}) in *.
  assert (Ew : width (gen w) = W) by (rewrite Sw, Hs; reflexivity).
  assert (Eh : height (gen w) = H) by (rewrite Sh, Hs; reflexivity).
  assert (Ec : room_count (gen w) = 5) by (rewrite Sc, Hs; reflexivity).
  assert (Emin : room_min_size (gen w) = 6) by (rewrite Smin, Hs; reflexivity).
  assert (Emax : room_max_size (gen w) = 15)
    by (rewrite Smax, Hs; reflexivity).
  destruct (respawn_walkable w Hd') as (x & y & w' & Hrun & Hgen & Hwalk);
    rewrite ?Ew, ?Eh, ?Ec, ?Emin, ?Emax; try lia.
  destruct (generate_roomy w Hd') as [_ Hlen];
    rewrite ?Ew, ?Eh, ?Ec, ?Emin, ?Emax; try lia.
  exists x, y, w'. split; [exact Hrun|]. split; [|exact Hwalk].
  rewrite Hgen, Hlen, Ec. reflexivity.
Qed.

Lemma constructed_map_respawns_witness :
  17 <= 20
  /\ init Fixtures.one_sheet 20 20 48 0 0 0 1 []
     = (Ok (Fixtures.new_map 20 20), [LoadSuccess 0 "assets/tileset1.png" 10])
  /\ exists x y w',
      Main.respawn (run_ops [OpGenerate; OpSetTiles 0 0 0 1]
                            Fixtures.roomy_world) = (Ok (x, y), w')
      /\ length (rooms (gen w')) = 5%nat
      /\ is_walkable (gen w') x y = Ok true.
Proof.
  assert (H20 : 17 <= 20) by lia.
  assert (Hi : init Fixtures.one_sheet 20 20 48 0 0 0 1 []
               = (Ok (Fixtures.new_map 20 20),
                  [LoadSuccess 0 "assets/tileset1.png" 10]))
    by (vm_compute; reflexivity).
  split; [exact H20|]. split; [exact Hi|].
  exact (constructed_map_respawns _ _ _ _ _ _ _ _ _ _ _
           [OpGenerate; OpSetTiles 0 0 0 1]
           (random Fixtures.roomy_world) H20 H20 Hi).
Defined.

(** The tile choice of the program, on a constructed map: it returns, the
    floor tile is tile 0 of the first sheet, the wall tile is tile 1 of the
    second sheet when there are two sheets and of the first sheet when
    there is one, so both sheet indices name a loaded sheet; the grid and
    the rooms are untouched. *)
Theorem select_tiles_valid_sheets
        (fs : FileSystem) (W H T a b c d : Z) (out out' : list Msg) (s : t) :
  init fs W H T a b c d out = (Ok s, out') ->
  exists s',
    Main.select_tiles s = (Ok tt, s')
    /\ floor_tileset s' = 0 /\ floor_tile s' = 0 /\ wall_tile s' = 1
    /\ wall_tileset s'
       = TileSelector.get_tileset_count (tile_selector s) - 1
    /\ 0 <= floor_tileset s'
       < TileSelector.get_tileset_count (tile_selector s')
    /\ 0 <= wall_tileset s'
       < TileSelector.get_tileset_count (tile_selector s')
    /\ tilemap s' = tilemap s /\ rooms s' = rooms s.
Proof.
  intros Hinit.
  destruct (init_returned_map _ _ _ _ _ _ _ _ _ _ _ Hinit)
    as (p & ps & _ & _ & Hex & Hlen & Hsel & _).
  destruct (init_returned _ _ _ _ _ _ Hsel) as (Hall & _ & _ & Himg & _).
  assert (Hcount : TileSelector.get_tileset_count (tile_selector s)
                   = Z.of_nat (length (p :: ps))).
  { unfold TileSelector.get_tileset_count.
    rewrite Himg, length_map, located_images_length by exact Hall.
    rewrite filter_all_true by exact Hex. reflexivity. }
  simpl length in Hcount.
  unfold Main.select_tiles, Py.bind, Py.get, set_tiles, Py.modify.
  destruct (Z.leb_spec (TileSelector.get_tileset_count (tile_selector s)) 1);
    eexists; (split; [reflexivity|]); simpl; repeat split; lia.
Qed.

Lemma select_tiles_valid_sheets_witness :
  init MoreFixtures.flat_disk 8 8 48 0 0 1 1 []
  = (Ok MoreFixtures.flat_map,
     [LoadSuccess 0 "tileset1.png" 10; LoadSuccess 1 "tileset2.png" 4])
  /\ exists s',
      Main.select_tiles MoreFixtures.flat_map = (Ok tt, s')
      /\ wall_tileset s' = 1 /\ wall_tile s' = 1.
Proof.
  assert (Hi : init MoreFixtures.flat_disk 8 8 48 0 0 1 1 []
               = (Ok MoreFixtures.flat_map,
                  [LoadSuccess 0 "tileset1.png" 10;
                   LoadSuccess 1 "tileset2.png" 4]))
    by (vm_compute; reflexivity).
  split; [exact Hi|].
  destruct (select_tiles_valid_sheets _ _ _ _ _ _ _ _ _ _ _ Hi)
    as (s' & Hrun & _ & _ & Hwt & Hws & _).
  exists s'. split; [exact Hrun|]. split; [|exact Hwt].
  rewrite Hws. vm_compute. reflexivity.
Defined.

(** [set_tiles] changes what is drawn and nothing else: the grid reads the
    same, and the next [draw] issues its calls for the same cells with the
    images of the new references; a reference whose sheet index is not a
    loaded sheet has no image, so its cells are drawn as squares of the
    fallback color, without an error. *)
Theorem set_tiles_redraw
        (s : t) (a b c d : Z) (sf : Surface) (cx cy : Z) :
  dims_ok s -> tile_size s <> 0 ->
  exists s',
    set_tiles a b c d s = (Ok tt, s')
    /\ (forall x y, get_tile_at s' x y = get_tile_at s x y)
    /\ draw s' cx cy sf
       = (Ok tt,
          drawn_on sf
            (map (tile_call s (tile_image s a b) floor_fallback cx cy)
                 (List.filter (is_floor s) (window s sf cx cy))
             ++ map (tile_call s (tile_image s c d) wall_fallback cx cy)
                    (List.filter (is_front_wall s) (window s sf cx cy))))
    /\ (forall sheet index,
          ~ (0 <= sheet < TileSelector.get_tileset_count (tile_selector s)) ->
          tile_image s sheet index = None
          /\ forall fallback cell,
              tile_call s (tile_image s sheet index) fallback cx cy cell
              = FillRect fallback
                  (fst cell * tile_size s - cx, snd cell * tile_size s - cy,
                   tile_size s, tile_size s)).
Proof.
  intros Hd Hts. eexists. split; [reflexivity|]. simpl.
  split; [reflexivity|]. split.
  - rewrite draw_returns; [reflexivity|exact Hd|exact Hts].
  - intros sheet index Hout.
    assert (Hnone : tile_image s sheet index = None).
    { unfold tile_image, TileSelector.get_tile.
      unfold TileSelector.get_tileset_count in Hout.
      destruct (Z.leb_spec 0 sheet); simpl; [|reflexivity].
      destruct (Z.ltb_spec sheet
                  (Z.of_nat (length (TileSelector.tileset_images
                                       (tile_selector s)))));
        [lia|reflexivity]. }
    split; [exact Hnone|]. intros fallback cell.
    unfold tile_call. rewrite Hnone. reflexivity.
Qed.

Lemma set_tiles_redraw_witness :
  dims_ok (gen Fixtures.tight_world_generated)
  /\ tile_size (gen Fixtures.tight_world_generated) <> 0
  /\ exists s',
      set_tiles 5 0 0 1 (gen Fixtures.tight_world_generated) = (Ok tt, s')
      /\ fst (draw s' 0 0 Fixtures.screen) = Ok tt
      /\ tile_image (gen Fixtures.tight_world_generated) 5 0 = None.
Proof.
  assert (H : tile_size (gen Fixtures.tight_world_generated) <> 0)
    by (vm_compute; discriminate).
  split; [exact dims_ok_tight_generated|]. split; [exact H|].
  destruct (set_tiles_redraw (gen Fixtures.tight_world_generated) 5 0 0 1
              Fixtures.screen 0 0 dims_ok_tight_generated H)
    as (s' & Hrun & _ & Hdraw & Hnone).
  exists s'. split; [exact Hrun|]. split; [rewrite Hdraw; reflexivity|].
  apply Hnone. vm_compute. intros [_ Hlt]. discriminate Hlt.
Defined.

(** ** The visible window *)





(** ** Further edge behaviour *)

(** On a grid too small for even the smallest room (or with
    roomMinSize > roomMaxSize), [generate] with at least one room to place
    always raises [ValueError], whatever the draws, and leaves the map
    wiped: no room and every cell wall. *)
Theorem generate_cramped_always_fails (w : World) :
  dims_ok (gen w) ->
  1 <= room_count (gen w) ->
  room_max_size (gen w) < room_min_size (gen w)
  \/ width (gen w) - room_min_size (gen w) - 1 < 1
  \/ height (gen w) - room_min_size (gen w) - 1 < 1 ->
  fst (generate w) = Raise ValueError
  /\ rooms (gen (snd (generate w))) = []
  /\ forall x y, get_tile_at (gen (snd (generate w))) x y = Ok 0.
Proof.
  intros Hd Hc Hcr.
  destruct (generated_map w Hd) as [-> ->].
  destruct (blank_fields (gen w)) as (Bw & Bh & Br & _ & Bmin & Bmax).
  assert (Hp : placeable (blank (gen w)) (random w) = false).
  { destruct (placeable (blank (gen w)) (random w)) eqn:Hp; [|reflexivity].
    apply placeable_spec in Hp as (Hmm & Hw & Hh).
    unfold drawn_room in Hw, Hh. simpl in Hw, Hh.
    pose proof (pick_range _ _ (random w) 0 Hmm).
    pose proof (pick_range _ _ (random w) 1 Hmm).
    rewrite Bw, Bh, Bmin, Bmax in *. lia. }
  destruct (Z.to_nat (room_count (gen w))) as [|n] eqn:En; [lia|].
  simpl. rewrite Hp. simpl.
  split; [reflexivity|]. split; [exact Br|].
  intros x y. rewrite get_tile_at_peek by (apply dims_ok_blank; exact Hd).
  destruct (in_bounds (blank (gen w)) x y) eqn:Hb; [|reflexivity].
  rewrite blank_all_wall; [reflexivity|exact Hd|].
  unfold in_bounds in *. rewrite <- Bw, <- Bh. exact Hb.
Qed.

Lemma generate_cramped_always_fails_witness :
  dims_ok (Fixtures.new_map 7 20)
  /\ fst (generate {| gen := Fixtures.new_map 7 20;
                      random := random Fixtures.roomy_world |})
     = Raise ValueError
  /\ rooms (gen (snd (generate {| gen := Fixtures.new_map 7 20;
                                  random := random Fixtures.roomy_world |})))
     = [].
Proof.
  assert (Hd : dims_ok (Fixtures.new_map 7 20))
    by (split; [reflexivity|vm_compute; repeat constructor]).
  split; [exact Hd|].
  destruct (generate_cramped_always_fails
              {| gen := Fixtures.new_map 7 20;
                 random := random Fixtures.roomy_world |} Hd)
    as (H1 & H2 & _).
  - vm_compute. discriminate.
  - right. left. vm_compute. reflexivity.
  - split; [exact H1|exact H2].
Defined.

(** With a positive tile size every tile of a constructed selector is a
    whole tile of its image: it comes from the image of its sheet, has the
    tile size as its side, and its source area starts on a multiple of the
    tile size and lies inside the image. *)
Theorem tiles_inside_image
        (fs : FileSystem) (paths : list string) (T : Z)
        (out out' : list Msg) (sel : TileSelector.t)
        (k : nat) (img : Image) :
  0 < T ->
  TileSelector.init fs paths T out = (Ok sel, out') ->
  TileSelector.located_images fs paths !! k = Some img ->
  exists tiles,
    TileSelector.tileset_images sel !! k = Some tiles
    /\ Forall (fun tile =>
                 tile_src tile = img /\ tile_side tile = T
                 /\ (exists col, 0 <= col /\ tile_px tile = col * T)
                 /\ (exists row, 0 <= row /\ tile_py tile = row * T)
                 /\ tile_px tile + T <= Z.of_N (img_w img)
                 /\ tile_py tile + T <= Z.of_N (img_h img))
              tiles.
Proof.
  intros HT Hrun Hk.
  destruct (init_returned _ _ _ _ _ _ Hrun) as (_ & _ & _ & Himg & _).
  exists (TileSelector.sliced T img). split.
  - rewrite Himg, map_lookup, Hk. reflexivity.
  - apply Forall_forall. intros tile Hin.
    unfold TileSelector.sliced, TileSelector.sheet_tiles in Hin.
    apply list_elem_of_In, in_flat_map in Hin as (row & Hrow & Hin).
    apply in_map_iff in Hin as (col & <- & Hcol).
    rewrite <- list_elem_of_In, range_elem in Hrow, Hcol.
    pose proof (Z.mul_div_le (Z.of_N (img_w img)) T HT).
    pose proof (Z.mul_div_le (Z.of_N (img_h img)) T HT).
    simpl. repeat split; try (eexists; split; [|reflexivity]); try lia; nia.
Qed.

Lemma tiles_inside_image_witness :
  0 < 48
  /\ TileSelector.init MoreFixtures.flat_disk MoreFixtures.flat_paths 48 []
     = (Ok MoreFixtures.flat_selector, MoreFixtures.flat_console)
  /\ exists tiles,
      TileSelector.tileset_images MoreFixtures.flat_selector !! 1%nat
      = Some tiles
      /\ Forall (fun tile => tile_px tile + 48 <= 96 /\ tile_py tile + 48 <= 96)
                tiles.
Proof.
  assert (H0 : 0 < 48) by lia.
  assert (H : TileSelector.init MoreFixtures.flat_disk
                MoreFixtures.flat_paths 48 []
              = (Ok MoreFixtures.flat_selector, MoreFixtures.flat_console))
    by (vm_compute; reflexivity).
  split; [exact H0|]. split; [exact H|].
  destruct (tiles_inside_image _ _ _ _ _ _ 1%nat
              {| img_path := "tileset2.png"; img_w := 96; img_h := 96 |}
              H0 H eq_refl) as (tiles & Ht & Hall).
  exists tiles. split; [exact Ht|].
  eapply Forall_impl; [exact Hall|].
  intros tile (_ & _ & _ & _ & Hx & Hy). split; [exact Hx|exact Hy].
Defined.

(** Only [generate] turns floor into wall: over any sequence of the other
    operations, a cell that reads floor keeps reading floor. *)
Theorem floor_kept_without_generate
        (ops : list Op) (w : World) (x y : Z) :
  dims_ok (gen w) ->
  Forall (fun op => op <> OpGenerate) ops ->
  get_tile_at (gen w) x y = Ok 1 ->
  get_tile_at (gen (run_ops ops w)) x y = Ok 1.
Proof.
  intros Hd Hops. revert w Hd.
  induction Hops as [|op ops Hop _ IH]; intros w Hd H1; [exact H1|].
  simpl. destruct (run_op_shape op w Hd) as [Hd1 _].
  apply IH; [exact Hd1|].
  assert (Hcarve : forall cells,
             get_tile_at (carve cells (gen w)) x y = Ok 1).
  { intros cells. rewrite get_tile_at_peek in * by
        (try apply dims_ok_fill; exact Hd).
    rewrite (in_bounds_frame (gen w)) by apply frame_fill.
    destruct (in_bounds (gen w) x y) eqn:Hb; [|discriminate].
    injection H1 as H1. apply in_bounds_spec in Hb.
    rewrite peek_carve_keep; [reflexivity|exact Hd|lia|lia|exact H1]. }
  destruct w as [s g]. destruct op; simpl in *;
    try contradiction; try exact H1.
  - rewrite (on_gen_run _ s _ g _ (create_room_run room s Hd)). apply Hcarve.
  - rewrite (on_gen_run _ s _ g _ (create_corridor_run start end_ s Hd)).
    apply Hcarve.
Qed.

Lemma floor_kept_without_generate_witness :
  dims_ok (gen Fixtures.tight_world_generated)
  /\ get_tile_at (gen Fixtures.tight_world_generated) 3 3 = Ok 1
  /\ get_tile_at
       (gen (run_ops [OpCreateCorridor (0, 0) (7, 7); OpSetTiles 1 1 1 1;
                      OpCreateRoom {| rect_x := 2; rect_y := 2;
                                      rect_w := 3; rect_h := 3 |}]
                     Fixtures.tight_world_generated)) 3 3
     = Ok 1.
Proof.
  assert (H1 : get_tile_at (gen Fixtures.tight_world_generated) 3 3 = Ok 1)
    by (vm_compute; reflexivity).
  split; [exact dims_ok_tight_generated|]. split; [exact H1|].
  apply (floor_kept_without_generate _ _ 3 3 dims_ok_tight_generated);
    [|exact H1].
  repeat constructor; discriminate.
Defined.
